(** * Historical snapshot pipeline: ingestion, daily deltas, author aggregates

    A shallow embedding of the historical-processing code of the course
    repository:

    - [l3-data-pipelines/pipeline/src/downloadModelsData.py]
      (the snapshot ingestor, [download_historical_models_data]);
    - [l3-data-pipelines/pipeline/scratch/clean_historical_pandas.py]
      (file-name parsing and the union of the snapshot files);
    - [l3-data-pipelines/pipeline/scratch/analyze_historical_duckdb.py],
      [analyze_historical_pandas.py] and [analyze_historical_postgres.py]
      (the three delta/aggregation engines).

    Modelling conventions.  File names and model ids are ASCII strings.  A
    SQL [NULL] and a pandas [NaN] are [None].  A [DATE] is the integer
    [YYYYMMDD], whose order is the calendar order.  A table is the list of its
    rows in physical order; [sort_values] is the stable insertion sort
    [sort_by], and [GROUP BY] lists its groups by [remove_dups] of the keys
    before any [ORDER BY] is applied.  An [ORDER BY] sorts, and leaves open
    the order of the rows that tie: the functions below use [sort_by], and
    [ordered_by] describes every order the clause allows.  PostgreSQL
    compares text in the collation of the database, which the code does not
    set: it is the parameter [collate] of the query.  Counters are
    integers; the DuckDB engine holds them in [BIGINT] and raises when a
    difference leaves that range. *)

From Stdlib Require Import ZArith QArith Ascii.
From Stdlib Require String.
From stdpp Require Import base tactics option list sorting strings gmap.

Local Open Scope Z_scope.

(** ** Exceptions and results *)

Inductive Exception : Type :=
  | ValueError (msg : string)
  | FileNotFoundError (msg : string)
  | TypeError (msg : string)
  | ConversionException (msg : string)
  | OSError (msg : string)
  | IOException (msg : string)
  | BinderException (msg : string)
  | OutOfRangeException (msg : string).

Definition result (A : Type) : Type := Exception + A.

Definition raised {A : Type} (r : result A) : Prop :=
  match r with inl _ => True | inr _ => False end.

(** ** Relational helpers shared by the three engines *)

Section Relational.
Context {A : Type}.

Fixpoint insert_by (leb : A → A → bool) (x : A) (l : list A) : list A :=
  match l with
  | [] => [x]
  | y :: l' => if leb x y then x :: y :: l' else y :: insert_by leb x l'
  end.

(** Stable sort: among rows that compare equal the input order is kept. *)
Definition sort_by (leb : A → A → bool) (l : list A) : list A :=
  foldr (insert_by leb) [] l.

(** Each row paired with the row before it in the list ([LAG ... , 1]). *)
Fixpoint with_lag (prev : option A) (l : list A) : list (A * option A) :=
  match l with
  | [] => []
  | r :: l' => (r, prev) :: with_lag (Some r) l'
  end.

(** The order a comparison function decides, and its strict part. *)
Definition le_of (leb : A → A → bool) : A → A → Prop := λ a b, leb a b = true.
Definition before (leb : A → A → bool) : A → A → Prop := λ a b, leb b a = false.

(** What [ORDER BY] promises of the rows [rows]: [out] holds the same rows,
    in an order in which no row comes after a row it must precede.  Rows
    that tie may come in either order. *)
Definition ordered_by (order : A → A → Prop) (rows out : list A) : Prop :=
  out ≡ₚ rows ∧ StronglySorted order out.

(** [PARTITION BY key ORDER BY ...] for the key [k]. *)
Definition part {K : Type} `{!EqDecision K} (key : A → K) (leb : A → A → bool)
    (t : list A) (k : K) : list A :=
  sort_by leb (filter (λ r, key r = k) t).
End Relational.

(** [a - b] in SQL and in pandas: null as soon as one operand is. *)
Definition sub_null (a b : option Z) : option Z :=
  match a, b with
  | Some x, Some y => Some (x - y)
  | _, _ => None
  end.

(** [SUM(col)] over the rows of a non-empty group whose values are known. *)
Definition sum_list (l : list Z) : Z := foldr Z.add 0 l.

(** The non-null values of a column. *)
Definition non_null {A : Type} (l : list (option A)) : list A :=
  omap (λ x, x) l.

(** ** Strings: separators, globbing and the file-name patterns *)

Definition slash : ascii := "/"%char.

(** [SPLIT_PART(id, '/', 1)] and [id.split('/')[0]]. *)
Fixpoint split_part_1 (s : string) : string :=
  match s with
  | EmptyString => EmptyString
  | String c s' => if Ascii.eqb c slash then EmptyString else String c (split_part_1 s')
  end.

(** ['/' in model_id]. *)
Fixpoint has_slash (s : string) : bool :=
  match s with
  | EmptyString => false
  | String c s' => if Ascii.eqb c slash then true else has_slash s'
  end.

Definition is_digit (c : ascii) : bool :=
  let n := N_of_ascii c in ((48 <=? n) && (n <=? 57))%N.

(** The character class [[a-f0-9]]. *)
Definition is_lower_hex (c : ascii) : bool :=
  let n := N_of_ascii c in
  (((48 <=? n) && (n <=? 57)) || ((97 <=? n) && (n <=? 102)))%N.

(** [strip_prefix p s] is the rest of [s] after the literal [p]. *)
Fixpoint strip_prefix (p s : string) : option string :=
  match p, s with
  | EmptyString, _ => Some s
  | String a p', String b s' => if Ascii.eqb a b then strip_prefix p' s' else None
  | String _ _, EmptyString => None
  end.

(** [take_class cls n s]: exactly [n] characters of class [cls], and the rest. *)
Fixpoint take_class (cls : ascii → bool) (n : nat) (s : string) : option (string * string) :=
  match n with
  | O => Some (EmptyString, s)
  | S n' =>
      match s with
      | String c s' =>
          if cls c then
            match take_class cls n' s' with
            | Some (d, rest) => Some (String c d, rest)
            | None => None
            end
          else None
      | EmptyString => None
      end
  end.

(** The longest prefix of characters of class [cls], and the rest. *)
Fixpoint span_class (cls : ascii → bool) (s : string) : string * string :=
  match s with
  | String c s' =>
      if cls c then let '(d, rest) := span_class cls s' in (String c d, rest)
      else (EmptyString, s)
  | EmptyString => (EmptyString, EmptyString)
  end.

Fixpoint ends_with (suffix s : string) : bool :=
  if String.eqb suffix s then true
  else match s with
       | EmptyString => false
       | String _ s' => ends_with suffix s'
       end.

(** [Path.glob("models-*.parquet")] on one file name. *)
Definition glob_models_parquet (name : string) : bool :=
  match strip_prefix "models-" name with
  | Some rest => ends_with ".parquet" rest
  | None => false
  end.

(** ["{d[:4]}-{d[4:6]}-{d[6:8]}"]. *)
Definition iso_of_digits (d : string) : string :=
  String.substring 0 4 d +:+ "-" +:+ String.substring 4 2 d +:+ "-" +:+ String.substring 6 2 d.

Definition digit_val (c : ascii) : Z := Z.of_N (N_of_ascii c) - 48.

Fixpoint digits_val_acc (acc : Z) (s : string) : Z :=
  match s with
  | EmptyString => acc
  | String c s' => digits_val_acc (10 * acc + digit_val c) s'
  end.

Definition digits_val (s : string) : Z := digits_val_acc 0 s.

Definition is_leap (y : Z) : bool :=
  ((y mod 4 =? 0) && negb (y mod 100 =? 0)) || (y mod 400 =? 0).

Definition days_in_month (y m : Z) : Z :=
  if m =? 2 then (if is_leap y then 29 else 28)
  else if (m =? 4) || (m =? 6) || (m =? 9) || (m =? 11) then 30
  else 31.

Definition valid_ymd (y m d : Z) : bool :=
  (1 <=? m) && (m <=? 12) && (1 <=? d) && (d <=? days_in_month y m).

Definition date_ordinal (y m d : Z) : Z := y * 10000 + m * 100 + d.

(** ['YYYY-MM-DD'::DATE]: the cast fails on a day that is not in the calendar. *)
Definition cast_date (s : string) : option Z :=
  '(y, r1) ← take_class is_digit 4 s;
  r2 ← strip_prefix "-" r1;
  '(m, r3) ← take_class is_digit 2 r2;
  r4 ← strip_prefix "-" r3;
  '(d, r5) ← take_class is_digit 2 r4;
  if String.eqb r5 "" && valid_ymd (digits_val y) (digits_val m) (digits_val d)
  then Some (date_ordinal (digits_val y) (digits_val m) (digits_val d))
  else None.

(** Ascending order on two columns of strings, the first one first. *)
Definition lex_leb (a b : string * string) : bool :=
  String.ltb a.1 b.1 || (String.eqb a.1 b.1 && String.leb a.2 b.2).

(** [sorted(data_dir.glob("models-*.parquet"))] on a directory listing. *)
Definition glob_sorted {F : Type} (name : F → string) (listing : list F) : list F :=
  sort_by (λ a b, String.leb (name a) (name b))
          (List.filter (λ f, glob_models_parquet (name f)) listing).

(** ** The DuckDB engine: [analyze_historical_duckdb.py] *)

Module DuckDB.

(** The pattern [models-(\d{8})-] tried at the start of [s]. *)
Definition match_models_date (s : string) : option string :=
  rest ← strip_prefix "models-" s;
  '(d, rest') ← take_class is_digit 8 rest;
  _ ← strip_prefix "-" rest';
  Some d.

(** [re.search]: the first position of [s] where the pattern matches. *)
Fixpoint search_models_date (s : string) : option string :=
  match match_models_date s with
  | Some d => Some d
  | None =>
      match s with
      | EmptyString => None
      | String _ s' => search_models_date s'
      end
  end.

Definition extract_date_from_filename (filename : string) : option string :=
  iso_of_digits <$> search_models_date filename.

(** A snapshot file: its name and, when the file can be read as parquet,
    which of the two columns the query names it has, and its rows in these
    two columns ([downloadsAllTime] is a [BIGINT]). *)
Record ParquetRow := { pq_id : option string; pq_downloadsAllTime : option Z }.
Record ParquetTable := {
  has_id : bool;
  has_downloadsAllTime : bool;
  table_rows : list ParquetRow
}.
Record ParquetFile := { file_name : string; file_table : option ParquetTable }.

Definition file_rows (f : ParquetFile) : list ParquetRow :=
  match file_table f with
  | Some tb => table_rows tb
  | None => []
  end.

(** [FROM '{file_path}'] with the columns [id] and [downloadsAllTime]: the
    statement is refused when the file cannot be read or lacks a column. *)
Definition bind_file (f : ParquetFile) : result ParquetTable :=
  match file_table f with
  | None => inl (IOException ("Cannot open file " +:+ file_name f))
  | Some tb =>
      if negb (has_id tb)
      then inl (BinderException "Referenced column id not found in FROM clause")
      else if negb (has_downloadsAllTime tb)
      then inl (BinderException
                  "Referenced column downloadsAllTime not found in FROM clause")
      else inr tb
  end.

(** A row of [all_snapshots]. *)
Record Snapshot := {
  snapshot_date : Z;
  id : string;
  author : string;
  downloadsAllTime : Z
}.

(** The [SELECT ... WHERE] of one file of the union. *)
Definition select_snapshot (date : Z) (r : ParquetRow) : option Snapshot :=
  match pq_id r, pq_downloadsAllTime r with
  | Some i, Some n =>
      if String.eqb (split_part_1 i) "" then None
      else Some {| snapshot_date := date; id := i;
                   author := split_part_1 i; downloadsAllTime := n |}
  | _, _ => None
  end.

Definition load_file (date : Z) (f : ParquetFile) : list Snapshot :=
  omap (select_snapshot date) (file_rows f).

(** The loop over [parquet_files]: a file without a date adds no query. *)
Definition union_queries (parquet_files : list ParquetFile) : list (string * ParquetFile) :=
  omap (λ f, d ← extract_date_from_filename (file_name f); Some (d, f)) parquet_files.

(** The files of the union are bound before any row is read. *)
Fixpoint bind_queries (qs : list (string * ParquetFile)) : result unit :=
  match qs with
  | [] => inr ()
  | (_, f) :: qs' =>
      match bind_file f with
      | inl e => inl e
      | inr _ => bind_queries qs'
      end
  end.

(** [CREATE TABLE all_snapshots AS q1 UNION ALL q2 ...], once bound. *)
Fixpoint all_snapshots (qs : list (string * ParquetFile)) : result (list Snapshot) :=
  match qs with
  | [] => inr []
  | (d, f) :: qs' =>
      match cast_date d with
      | None => inl (ConversionException d)
      | Some date =>
          match all_snapshots qs' with
          | inl e => inl e
          | inr rows => inr (load_file date f ++ rows)
          end
      end
  end.

(** An observation: an entity on a date. *)
Definition obs_key (r : Snapshot) : string * Z := (id r, snapshot_date r).

(** A row of [daily_model_downloads]: the snapshot columns and the delta. *)
Record DailyModel := { row : Snapshot; daily_downloads : option Z }.

Definition date_leb (a b : Snapshot) : bool := snapshot_date a <=? snapshot_date b.

(** [PARTITION BY id ORDER BY snapshot_date] for one id. *)
Definition partition_of (t : list Snapshot) (k : string) : list Snapshot :=
  sort_by date_leb (filter (λ r, id r = k) t).

(** [downloadsAllTime - LAG(downloadsAllTime)]. *)
Definition delta_row (p : Snapshot * option Snapshot) : DailyModel :=
  {| row := p.1;
     daily_downloads := sub_null (Some (downloadsAllTime p.1)) (downloadsAllTime <$> p.2) |}.

Definition id_date_leb (a b : DailyModel) : bool :=
  String.ltb (id (row a)) (id (row b))
  || (String.eqb (id (row a)) (id (row b)) && date_leb (row a) (row b)).

Definition daily_model_downloads (t : list Snapshot) : list DailyModel :=
  sort_by id_date_leb
    (flat_map (λ k, delta_row <$> with_lag None (partition_of t k))
              (remove_dups (id <$> t))).

(** A row of [author_daily_downloads]. *)
Record AuthorDaily := {
  a_snapshot_date : Z;
  a_author : string;
  n_models : nat;
  total_daily_downloads : Z;
  avg_daily_downloads_per_model : Q;
  total_cumulative_downloads : Z
}.

(** [WHERE daily_downloads IS NOT NULL AND daily_downloads >= 0]. *)
Definition valid_delta (r : DailyModel) : bool :=
  match daily_downloads r with
  | Some d => 0 <=? d
  | None => false
  end.

Definition group_key (r : DailyModel) : Z * string :=
  (snapshot_date (row r), author (row r)).

(** The aggregates of one [GROUP BY snapshot_date, author] group. *)
Definition aggregate (k : Z * string) (g : list DailyModel) : AuthorDaily :=
  let deltas := non_null (daily_downloads <$> g) in
  {| a_snapshot_date := k.1;
     a_author := k.2;
     n_models := length (remove_dups ((λ r, id (row r)) <$> g));
     total_daily_downloads := sum_list deltas;
     avg_daily_downloads_per_model :=
       Qred (inject_Z (sum_list deltas) / inject_Z (Z.of_nat (length deltas)));
     total_cumulative_downloads := sum_list ((λ r, downloadsAllTime (row r)) <$> g) |}.

(** [ORDER BY snapshot_date, total_daily_downloads DESC]. *)
Definition output_leb (a b : AuthorDaily) : bool :=
  (a_snapshot_date a <? a_snapshot_date b)
  || ((a_snapshot_date a =? a_snapshot_date b)
      && (total_daily_downloads b <=? total_daily_downloads a)).

(** The same order as a relation: ascending date, then descending total. *)
Definition output_order (a b : AuthorDaily) : Prop :=
  a_snapshot_date a < a_snapshot_date b
  ∨ (a_snapshot_date a = a_snapshot_date b
     ∧ total_daily_downloads b ≤ total_daily_downloads a).

(** The groups of the aggregation, before its [ORDER BY]. *)
Definition author_daily_groups (dmd : list DailyModel) : list AuthorDaily :=
  let rows := List.filter valid_delta dmd in
  (λ k, aggregate k (filter (λ r, group_key r = k) rows))
    <$> remove_dups (group_key <$> rows).

Definition author_daily_downloads (dmd : list DailyModel) : list AuthorDaily :=
  sort_by output_leb (author_daily_groups dmd).

(** Every content of [author_daily_downloads] that the [ORDER BY] allows;
    [author_daily_downloads] above is one of them. *)
Definition possible_author_daily_downloads (dmd : list DailyModel)
    (out : list AuthorDaily) : Prop :=
  ordered_by output_order (author_daily_groups dmd) out.

(** [downloadsAllTime - LAG(downloadsAllTime)] is a [BIGINT] subtraction. *)
Definition in_bigint (z : Z) : bool := (- 2 ^ 63 <=? z) && (z <? 2 ^ 63).

Definition delta_in_range (r : DailyModel) : bool :=
  match daily_downloads r with
  | Some d => in_bigint d
  | None => true
  end.

(** The three temporary tables of one run. *)
Record Tables := {
  t_all_snapshots : list Snapshot;
  t_daily_model_downloads : list DailyModel;
  t_author_daily_downloads : list AuthorDaily
}.

Definition run_queries (t : list Snapshot) : Tables :=
  {| t_all_snapshots := t;
     t_daily_model_downloads := daily_model_downloads t;
     t_author_daily_downloads := author_daily_downloads (daily_model_downloads t) |}.

(** [process_historical_data] on the directory [data_dir] whose files are
    [listing]; the relation returned is [t_author_daily_downloads].  The
    first statement fails when a file of the union cannot be bound or a date
    cannot be cast, the second when a difference overflows. *)
Definition process_historical_data (data_dir : string) (listing : list ParquetFile)
    : result Tables :=
  let parquet_files := glob_sorted file_name listing in
  if (length parquet_files =? 0)%nat
  then inl (ValueError ("No parquet files found in " +:+ data_dir))
  else
    match union_queries parquet_files with
    | [] => inl (ValueError "No valid dates extracted from filenames")
    | qs =>
        match bind_queries qs with
        | inl e => inl e
        | inr _ =>
            match all_snapshots qs with
            | inl e => inl e
            | inr t =>
                if forallb delta_in_range (daily_model_downloads t)
                then inr (run_queries t)
                else inl (OutOfRangeException "Overflow in subtraction of INT64")
            end
        end
    end.

End DuckDB.

(** ** The combined CSV: [model_historical_downloads.csv] *)

(** One line of the CSV written by [clean_historical_data] and read by the
    pandas and PostgreSQL engines. *)
Record CsvRow := {
  csv_id : option string;
  csv_likes : option Z;
  csv_downloads : option Z;
  csv_downloadsAllTime : option Z;
  csv_snapshot_date : string
}.

(** [pd.read_csv(csv_path, nrows=limit) if limit else pd.read_csv(csv_path)]. *)
Definition read_csv (csv : list CsvRow) (limit : option nat) : list CsvRow :=
  match limit with
  | Some (S n) => take (S n) csv
  | _ => csv
  end.

(** ** The cleaning step: [clean_historical_pandas.py] *)

Module Clean.

(** [re.match(r'models-(\d{8})-[a-f0-9]+\.parquet', filename)], group 1. *)
Definition match_snapshot_name (filename : string) : option string :=
  r1 ← strip_prefix "models-" filename;
  '(d, r2) ← take_class is_digit 8 r1;
  r3 ← strip_prefix "-" r2;
  let '(sha, r4) := span_class is_lower_hex r3 in
  if String.eqb sha "" then None
  else _ ← strip_prefix ".parquet" r4; Some d.

(** [datetime.strptime(date_str, "%Y%m%d")] on eight digits: two-digit
    month and day, and a day that exists. *)
Definition strptime_Ymd (date_str : string) : option (Z * Z * Z) :=
  let y := digits_val (String.substring 0 4 date_str) in
  let m := digits_val (String.substring 4 2 date_str) in
  let d := digits_val (String.substring 6 2 date_str) in
  if (1 <=? y) && valid_ymd y m d then Some (y, m, d) else None.

Definition parse_snapshot_date (filename : string) : result string :=
  match match_snapshot_name filename with
  | None => inl (ValueError ("Filename " +:+ filename +:+ " does not match expected format"))
  | Some date_str =>
      match strptime_Ymd date_str with
      | None => inl (ValueError ("time data " +:+ date_str +:+ " does not match format %Y%m%d"))
      | Some _ => inr (iso_of_digits date_str)
      end
  end.

(** A parquet file as [pd.read_parquet] returns it: which of the four
    columns exist, and the rows.  [None] is a file that cannot be read. *)
Record FrameRow := {
  fr_id : option string;
  fr_likes : option Z;
  fr_downloads : option Z;
  fr_downloadsAllTime : option Z
}.

Record Frame := {
  has_id : bool;
  has_likes : bool;
  has_downloads : bool;
  has_downloadsAllTime : bool;
  frame_rows : list FrameRow
}.

Record SnapshotFile := { file_name : string; file_frame : option Frame }.

Definition column {A : Type} (present : bool) (v : option A) : option A :=
  if present then v else None.

Definition process_snapshot_file (f : SnapshotFile) (snapshot_date : string)
    : result (list CsvRow) :=
  match file_frame f with
  | None => inl (OSError ("Could not read " +:+ file_name f))
  | Some df =>
      if negb (has_id df)
      then inl (ValueError ("File " +:+ file_name f +:+ " missing required 'id' column"))
      else inr ((λ r, {| csv_id := fr_id r;
                         csv_likes := column (has_likes df) (fr_likes r);
                         csv_downloads := column (has_downloads df) (fr_downloads r);
                         csv_downloadsAllTime :=
                           column (has_downloadsAllTime df) (fr_downloadsAllTime r);
                         csv_snapshot_date := snapshot_date |}) <$> frame_rows df)
  end.

(** The loop over [parquet_files]: the first exception is re-raised. *)
Fixpoint process_all (parquet_files : list SnapshotFile) : result (list (list CsvRow)) :=
  match parquet_files with
  | [] => inr []
  | f :: fs =>
      match parse_snapshot_date (file_name f) with
      | inl e => inl e
      | inr snapshot_date =>
          match process_snapshot_file f snapshot_date with
          | inl e => inl e
          | inr df =>
              match process_all fs with
              | inl e => inl e
              | inr all_data => inr (df :: all_data)
              end
          end
      end
  end.

(** [clean_historical_data]; [listing] is [None] when [input_dir] does not
    exist.  The value is the frame written to [output_file]. *)
Definition clean_historical_data (input_dir : string) (listing : option (list SnapshotFile))
    : result (list CsvRow) :=
  match listing with
  | None => inl (FileNotFoundError ("Input directory not found: " +:+ input_dir))
  | Some files =>
      match glob_sorted file_name files with
      | [] => inl (ValueError ("No parquet files found in " +:+ input_dir))
      | parquet_files =>
          match process_all parquet_files with
          | inl e => inl e
          | inr all_data => inr (concat all_data)
          end
      end
  end.

End Clean.

(** ** The pandas engine: [analyze_historical_pandas.py] *)

Module Pandas.

Definition extract_author (model_id : string) : string :=
  if has_slash model_id then split_part_1 model_id else model_id.

(** A row of [df_subset] once [author] is added. *)
Record Row := {
  id : string;
  downloadsAllTime : option Z;
  snapshot_date : string;
  author : string
}.

(** [df[['id', 'downloadsAllTime', 'snapshot_date']]] with the [author]
    column; [extract_author] raises on a missing id. *)
Fixpoint add_author (df : list CsvRow) : result (list Row) :=
  match df with
  | [] => inr []
  | r :: df' =>
      match csv_id r with
      | None => inl (TypeError "argument of type 'float' is not iterable")
      | Some i =>
          match add_author df' with
          | inl e => inl e
          | inr rows =>
              inr ({| id := i; downloadsAllTime := csv_downloadsAllTime r;
                      snapshot_date := csv_snapshot_date r;
                      author := extract_author i |} :: rows)
          end
      end
  end.

(** [sort_values(['id', 'snapshot_date'])]: both columns hold strings. *)
Definition id_date_leb (a b : Row) : bool :=
  String.ltb (id a) (id b)
  || (String.eqb (id a) (id b) && String.leb (snapshot_date a) (snapshot_date b)).

(** An observation: an entity on a date. *)
Definition obs_key (r : Row) : string * string := (id r, snapshot_date r).

(** A row of [df_subset] with its [daily_downloads]. *)
Record Daily := { row : Row; daily_downloads : option Z }.

(** The closest earlier row with the id of [r]; [seen] is the part of the
    frame already passed, last row first. *)
Definition previous_of (seen : list Row) (r : Row) : option Row :=
  List.find (λ p, String.eqb (id p) (id r)) seen.

(** [groupby('id')['downloadsAllTime'].diff()]: the value minus the value of
    the closest earlier row of the frame with the same id. *)
Fixpoint groupby_diff (seen : list Row) (df : list Row) : list Daily :=
  match df with
  | [] => []
  | r :: df' =>
      {| row := r;
         daily_downloads :=
           sub_null (downloadsAllTime r) (previous_of seen r ≫= downloadsAllTime) |}
      :: groupby_diff (r :: seen) df'
  end.

(** [fillna(df_subset['downloadsAllTime'])]. *)
Definition fillna (r : Daily) : Daily :=
  match daily_downloads r with
  | None => {| row := row r; daily_downloads := downloadsAllTime (row r) |}
  | Some _ => r
  end.

(** [df_subset.loc[df_subset['daily_downloads'] < 0, 'daily_downloads'] = 0]. *)
Definition clamp_negative (r : Daily) : Daily :=
  match daily_downloads r with
  | Some d => if d <? 0 then {| row := row r; daily_downloads := Some 0 |} else r
  | None => r
  end.

(** The final [df_subset]. *)
Definition df_subset (df : list Row) : list Daily :=
  clamp_negative <$> (fillna <$> groupby_diff [] (sort_by id_date_leb df)).

Record AuthorDaily := {
  a_author : string;
  a_snapshot_date : string;
  total_daily_downloads : Z
}.

Definition group_key (r : Daily) : string * string :=
  (author (row r), snapshot_date (row r)).

Definition key_leb (a b : string * string) : bool :=
  String.ltb a.1 b.1 || (String.eqb a.1 b.1 && String.leb a.2 b.2).

(** [groupby(['author', 'snapshot_date'])['daily_downloads'].sum()]: one
    row per key, keys ascending, missing values skipped by the sum. *)
Definition author_daily (sub : list Daily) : list AuthorDaily :=
  (λ k, {| a_author := k.1; a_snapshot_date := k.2;
           total_daily_downloads :=
             sum_list (non_null (daily_downloads <$> filter (λ r, group_key r = k) sub)) |})
    <$> sort_by key_leb (remove_dups (group_key <$> sub)).

Record Output := { o_df_subset : list Daily; o_author_daily : list AuthorDaily }.

(** What the call leaves at [output_path]: [author_daily], written by
    [to_csv] before the sample of the largest totals is taken. *)
Definition written_output (csv : list CsvRow) (limit : option nat)
    : option (list AuthorDaily) :=
  match add_author (read_csv csv limit) with
  | inl _ => None
  | inr df => Some (author_daily (df_subset df))
  end.

(** [analyze_historical_data]: the frames it has built when it returns.  On
    a CSV without rows the column [total_daily_downloads] has dtype
    [object], and [nlargest] raises once the output is written. *)
Definition analyze_historical_data (csv : list CsvRow) (limit : option nat)
    : result Output :=
  match add_author (read_csv csv limit) with
  | inl e => inl e
  | inr df =>
      match df with
      | [] =>
          inl (TypeError ("Column 'total_daily_downloads' has dtype object, "
                          +:+ "cannot use method 'nlargest' with this dtype"))
      | _ =>
          inr {| o_df_subset := df_subset df;
                 o_author_daily := author_daily (df_subset df) |}
      end
  end.

End Pandas.

(** ** The PostgreSQL engine: [analyze_historical_postgres.py] *)

Module Postgres.

(** A row of the table [model_downloads] after the [COPY]. *)
Record ModelDownloads := {
  id : option string;
  likes : option Z;
  downloads : option Z;
  downloads_all_time : option Z;
  snapshot_date : option Z
}.

(** Ascending order of a nullable column: nulls last. *)
Definition nulls_last_leb {A : Type} (leb : A → A → bool) (a b : option A) : bool :=
  match a, b with
  | Some x, Some y => leb x y
  | _, None => true
  | None, Some _ => false
  end.

Definition date_leb (a b : ModelDownloads) : bool :=
  nulls_last_leb Z.leb (snapshot_date a) (snapshot_date b).

(** An observation: an entity on a date. *)
Definition obs_key (r : ModelDownloads) : option string * option Z :=
  (id r, snapshot_date r).

Definition partition_of (t : list ModelDownloads) (k : option string) : list ModelDownloads :=
  sort_by date_leb (filter (λ r, id r = k) t).

(** A row of the CTE [daily_diffs]. *)
Record DailyDiff := {
  dd_author : option string;
  dd_model_id : option string;
  dd_snapshot_date : option Z;
  dd_downloads_all_time : option Z;
  dd_daily_downloads : option Z
}.

Definition diff_row (p : ModelDownloads * option ModelDownloads) : DailyDiff :=
  {| dd_author := split_part_1 <$> id p.1;
     dd_model_id := id p.1;
     dd_snapshot_date := snapshot_date p.1;
     dd_downloads_all_time := downloads_all_time p.1;
     dd_daily_downloads :=
       sub_null (downloads_all_time p.1) (p.2 ≫= downloads_all_time) |}.

Definition daily_diffs (t : list ModelDownloads) : list DailyDiff :=
  flat_map (λ k, diff_row <$> with_lag None (partition_of t k))
           (remove_dups (id <$> t)).

(** A row of the CTE [cleaned_diffs]. *)
Record CleanedDiff := {
  cd_author : option string;
  cd_snapshot_date : option Z;
  cd_daily_downloads : option Z
}.

(** The [CASE] expression: the first branch that applies. *)
Definition cleaned_row (r : DailyDiff) : CleanedDiff :=
  {| cd_author := dd_author r;
     cd_snapshot_date := dd_snapshot_date r;
     cd_daily_downloads :=
       match dd_daily_downloads r with
       | None => dd_downloads_all_time r
       | Some d => if d <? 0 then Some 0 else Some d
       end |}.

Definition cleaned_diffs (t : list ModelDownloads) : list CleanedDiff :=
  cleaned_row <$> daily_diffs t.

(** A row of the result. *)
Record AuthorDaily := {
  author : option string;
  a_snapshot_date : option Z;
  total_daily_downloads : option Z
}.

Definition group_key (r : CleanedDiff) : option string * option Z :=
  (cd_author r, cd_snapshot_date r).

(** [SUM] of a group: null when no value of the group is known. *)
Definition sql_sum (l : list (option Z)) : option Z :=
  match non_null l with
  | [] => None
  | vs => Some (sum_list vs)
  end.

(** [ORDER BY author, snapshot_date], nulls last.  The query sets no
    [COLLATE]: [collate a b] is [a <= b] in the collation of the database. *)
Definition output_leb (collate : string → string → bool) (a b : AuthorDaily) : bool :=
  (nulls_last_leb collate (author a) (author b)
     && negb (nulls_last_leb collate (author b) (author a)))
  || (nulls_last_leb collate (author a) (author b)
        && nulls_last_leb collate (author b) (author a)
        && nulls_last_leb Z.leb (a_snapshot_date a) (a_snapshot_date b)).

(** The same order as a relation: ascending author, then ascending date. *)
Definition output_order (collate : string → string → bool) (a b : AuthorDaily) : Prop :=
  (nulls_last_leb collate (author a) (author b) = true ∧ author a ≠ author b)
  ∨ (author a = author b
     ∧ nulls_last_leb Z.leb (a_snapshot_date a) (a_snapshot_date b) = true).

(** The groups of the query, before its [ORDER BY]. *)
Definition query_groups (t : list ModelDownloads) : list AuthorDaily :=
  let cleaned := cleaned_diffs t in
  (λ k, {| author := k.1; a_snapshot_date := k.2;
           total_daily_downloads :=
             sql_sum (cd_daily_downloads <$> filter (λ r, group_key r = k) cleaned) |})
    <$> remove_dups (group_key <$> cleaned).

Definition query (collate : string → string → bool) (t : list ModelDownloads)
    : list AuthorDaily :=
  sort_by (output_leb collate) (query_groups t).

(** Every result of the query that its [ORDER BY] allows. *)
Definition possible_query (collate : string → string → bool) (t : list ModelDownloads)
    (out : list AuthorDaily) : Prop :=
  ordered_by (output_order collate) (query_groups t) out.

(** [analyze_historical_data] on the loaded table; the value is the frame
    written to [output_path]. *)
Definition analyze_historical_data (collate : string → string → bool)
    (model_downloads : list ModelDownloads) : list AuthorDaily :=
  query collate model_downloads.

End Postgres.

(** ** The snapshot ingestor: [downloadModelsData.py] *)

Module Ingestor.

(** The fields of a commit the ingestor reads; [created_at] is kept as its
    rendering [strftime("%Y%m%d")], the only use the code makes of it. *)
Record CommitInfo := {
  commit_id : string;
  created_at : string;
  title : string;
  message : string
}.

Definition lower_char (c : ascii) : ascii :=
  let n := N_of_ascii c in
  if ((65 <=? n) && (n <=? 90))%N then ascii_of_N (n + 32) else c.

Fixpoint lower (s : string) : string :=
  match s with
  | EmptyString => EmptyString
  | String c s' => String (lower_char c) (lower s')
  end.

(** [needle in s]. *)
Fixpoint contains (needle s : string) : bool :=
  if String.prefix needle s then true
  else match s with
       | EmptyString => false
       | String _ s' => contains needle s'
       end.

(** The filter on the commit message that builds [relevant_commits]. *)
Definition relevant (commit : CommitInfo) : bool :=
  let commit_text := lower (title commit +:+ " " +:+ message commit) in
  contains "models.parquet" commit_text || contains "models.csv" commit_text.

Definition short_sha (commit : CommitInfo) : string :=
  String.substring 0 7 (commit_id commit).

Definition output_filename (commit : CommitInfo) (file_format : string) : string :=
  "models-" +:+ created_at commit +:+ "-" +:+ short_sha commit +:+ "." +:+ file_format.

Definition source_filename (file_format : string) : string :=
  "models." +:+ file_format.

Section Run.
(** A file is its bytes; [sha256] is [_compute_file_hash], and
    [hf_hub_download revision filename] is the file of the dataset at a
    commit, [None] when the download raises. *)
Context {Content : Type}.
Variable sha256 : Content → string.
Variable hf_hub_download : string → string → option Content.

(** The state of the loop: the directory [historical_dir] as a map from
    file names to contents, the set [seen_hashes], the list
    [downloaded_files], the four counters, and the trace of the output
    names for which a download was requested. *)
Record State := {
  historical_dir : gmap string Content;
  seen_hashes : gset string;
  downloaded_files : list string;
  successful_downloads : nat;
  skipped_existing : nat;
  skipped_no_change : nat;
  skipped_no_file : nat;
  requested : list string
}.

Definition initial (dir : gmap string Content) : State :=
  {| historical_dir := dir; seen_hashes := ∅; downloaded_files := [];
     successful_downloads := 0; skipped_existing := 0;
     skipped_no_change := 0; skipped_no_file := 0; requested := [] |}.

(** The invariant of the store: no two stored files share a hash, and
    every stored hash has been seen. *)
Definition distinct_hashes (st : State) : Prop :=
  (∀ n x, historical_dir st !! n = Some x → sha256 x ∈ seen_hashes st)
  ∧ ∀ n1 n2 x1 x2,
      historical_dir st !! n1 = Some x1 → historical_dir st !! n2 = Some x2 →
      sha256 x1 = sha256 x2 → n1 = n2.

(** One pass of the body of [for file_format in ["parquet", "csv"]]; the
    boolean is [file_downloaded], set on every path that ends in [break]. *)
Definition try_format (commit : CommitInfo) (file_format : string) (st : State)
    : State * bool :=
  let output := output_filename commit file_format in
  match historical_dir st !! output with
  | Some existing =>
      ({| historical_dir := historical_dir st;
          seen_hashes := {[ sha256 existing ]} ∪ seen_hashes st;
          downloaded_files := downloaded_files st;
          successful_downloads := successful_downloads st;
          skipped_existing := S (skipped_existing st);
          skipped_no_change := skipped_no_change st;
          skipped_no_file := skipped_no_file st;
          requested := requested st |}, true)
  | None =>
      let st' :=
        {| historical_dir := historical_dir st;
           seen_hashes := seen_hashes st;
           downloaded_files := downloaded_files st;
           successful_downloads := successful_downloads st;
           skipped_existing := skipped_existing st;
           skipped_no_change := skipped_no_change st;
           skipped_no_file := skipped_no_file st;
           requested := requested st ++ [output] |} in
      match hf_hub_download (commit_id commit) (source_filename file_format) with
      | None => (st', false)
      | Some cached =>
          let file_hash := sha256 cached in
          if decide (file_hash ∈ seen_hashes st) then
            ({| historical_dir := historical_dir st';
                seen_hashes := seen_hashes st';
                downloaded_files := downloaded_files st';
                successful_downloads := successful_downloads st';
                skipped_existing := skipped_existing st';
                skipped_no_change := S (skipped_no_change st');
                skipped_no_file := skipped_no_file st';
                requested := requested st' |}, true)
          else
            ({| historical_dir := <[output := cached]> (historical_dir st');
                seen_hashes := {[ file_hash ]} ∪ seen_hashes st';
                downloaded_files := downloaded_files st' ++ [output];
                successful_downloads := S (successful_downloads st');
                skipped_existing := skipped_existing st';
                skipped_no_change := skipped_no_change st';
                skipped_no_file := skipped_no_file st';
                requested := requested st' |}, true)
      end
  end.

(** The loop over the formats, left at the first [break]. *)
Fixpoint try_formats (commit : CommitInfo) (formats : list string) (st : State)
    : State * bool :=
  match formats with
  | [] => (st, false)
  | file_format :: rest =>
      let '(st', file_downloaded) := try_format commit file_format st in
      if file_downloaded then (st', true) else try_formats commit rest st'
  end.

(** The body of the loop over [relevant_commits]. *)
Definition process_commit (st : State) (commit : CommitInfo) : State :=
  let '(st', file_downloaded) := try_formats commit ["parquet"; "csv"] st in
  if file_downloaded then st'
  else {| historical_dir := historical_dir st';
          seen_hashes := seen_hashes st';
          downloaded_files := downloaded_files st';
          successful_downloads := successful_downloads st';
          skipped_existing := skipped_existing st';
          skipped_no_change := skipped_no_change st';
          skipped_no_file := S (skipped_no_file st');
          requested := requested st' |}.

(** [download_historical_models_data] on the commits returned by the
    history listing, in that order, and the directory as it is found. *)
Definition download_historical_models_data
    (commits : list CommitInfo) (dir : gmap string Content) : State :=
  foldl process_commit (initial dir) (List.filter relevant commits).

End Run.

(** The names a commit can be stored under. *)
Definition output_names (commit : CommitInfo) : list string :=
  [output_filename commit "parquet"; output_filename commit "csv"].

End Ingestor.

(** ** The naming convention of the specification *)

(** [<entity-table-name>-<YYYYMMDD>-<7-hex-char-version-id>.<ext>], with the
    table name [models] and the two formats; this definition follows the
    words of the specification and is compared with the patterns of the code. *)
Definition is_hex (c : ascii) : bool :=
  let n := N_of_ascii c in
  (((48 <=? n) && (n <=? 57)) || ((97 <=? n) && (n <=? 102)) || ((65 <=? n) && (n <=? 70)))%N.

Definition spec_naming_convention (name : string) : bool :=
  match strip_prefix "models-" name with
  | Some r1 =>
      match take_class is_digit 8 r1 with
      | Some (_, r2) =>
          match strip_prefix "-" r2 with
          | Some r3 =>
              match take_class is_hex 7 r3 with
              | Some (_, r4) => String.eqb r4 ".parquet" || String.eqb r4 ".csv"
              | None => false
              end
          | None => false
          end
      | None => false
      end
  | None => false
  end.

(** The last character of a string. *)
Fixpoint last_char (s : string) : option ascii :=
  match s with
  | EmptyString => None
  | String c EmptyString => Some c
  | String _ s' => last_char s'
  end.

(** ** A small corpus

    Three snapshots, dated 2025-01-01 to 2025-01-03.  The counter of
    [acme/model-a] is 100, 150 and 130 (a reset on the third day);
    [acme/model-b] is first seen on the second day with 3 and has 7 on the
    third; [standalone-model] has no separator and has 5 and 9 on the first
    two days.  A fourth file has a name without the eight-digit date. *)

Module Corpus.

Definition model_a : string := "acme/model-a".
Definition model_b : string := "acme/model-b".
Definition standalone : string := "standalone-model".

Definition pq (i : string) (n : Z) : DuckDB.ParquetRow :=
  {| DuckDB.pq_id := Some i; DuckDB.pq_downloadsAllTime := Some n |}.

(** A readable file with both columns. *)
Definition parquet (name : string) (rows : list DuckDB.ParquetRow) : DuckDB.ParquetFile :=
  {| DuckDB.file_name := name;
     DuckDB.file_table :=
       Some {| DuckDB.has_id := true; DuckDB.has_downloadsAllTime := true;
               DuckDB.table_rows := rows |} |}.

Definition day1 : DuckDB.ParquetFile :=
  parquet "models-20250101-abcdef1.parquet" [pq model_a 100; pq standalone 5].
Definition day2 : DuckDB.ParquetFile :=
  parquet "models-20250102-abcdef2.parquet"
    [pq model_a 150; pq model_b 3; pq standalone 9].
Definition day3 : DuckDB.ParquetFile :=
  parquet "models-20250103-abcdef3.parquet" [pq model_a 130; pq model_b 7].
Definition undated : DuckDB.ParquetFile :=
  parquet "models-2025-01-01.parquet" [pq model_a 999].

Definition snap (d : Z) (i a : string) (n : Z) : DuckDB.Snapshot :=
  {| DuckDB.snapshot_date := d; DuckDB.id := i; DuckDB.author := a;
     DuckDB.downloadsAllTime := n |}.

(** The table [all_snapshots] of the three dated files. *)
Definition table : list DuckDB.Snapshot :=
  [ snap 20250101 model_a "acme" 100; snap 20250101 standalone standalone 5;
    snap 20250102 model_a "acme" 150; snap 20250102 model_b "acme" 3;
    snap 20250102 standalone standalone 9;
    snap 20250103 model_a "acme" 130; snap 20250103 model_b "acme" 7 ].

(** Two authors with the same delta on one date. *)
Definition tie : list DuckDB.DailyModel :=
  [ {| DuckDB.row := snap 20250102 "acme/model-a" "acme" 150;
       DuckDB.daily_downloads := Some 50 |};
    {| DuckDB.row := snap 20250102 "zeta/model-z" "zeta" 90;
       DuckDB.daily_downloads := Some 50 |} ].


Definition csv (i : string) (n : Z) (d : string) : CsvRow :=
  {| csv_id := Some i; csv_likes := None; csv_downloads := None;
     csv_downloadsAllTime := Some n; csv_snapshot_date := d |}.

(** The rows of [acme/model-a] in the combined CSV. *)
Definition csv_model_a : list CsvRow :=
  [ csv model_a 130 "2025-01-03"; csv model_a 100 "2025-01-01";
    csv model_a 150 "2025-01-02" ].

Definition frame_row (i : string) (n : Z) (d : string) : Pandas.Row :=
  {| Pandas.id := i; Pandas.downloadsAllTime := Some n;
     Pandas.snapshot_date := d; Pandas.author := Pandas.extract_author i |}.

Definition frame_model_a : list Pandas.Row :=
  [ frame_row model_a 130 "2025-01-03"; frame_row model_a 100 "2025-01-01";
    frame_row model_a 150 "2025-01-02" ].

Definition pg (i : string) (n d : Z) : Postgres.ModelDownloads :=
  {| Postgres.id := Some i; Postgres.likes := None; Postgres.downloads := None;
     Postgres.downloads_all_time := Some n; Postgres.snapshot_date := Some d |}.

(** The table [model_downloads] with two authors on two dates. *)
Definition pg_table : list Postgres.ModelDownloads :=
  [ pg "acme/model-a" 100 20250101; pg "zeta/model-z" 10 20250101;
    pg "acme/model-a" 150 20250102; pg "zeta/model-z" 40 20250102 ].

(** Two authors, one of them with two models, as the combined CSV, the
    pandas frame and the table [model_downloads] hold them. *)
Definition csv_two_authors : list CsvRow :=
  [ csv "acme/model-a" 150 "2025-01-02"; csv "Zeta/model-z" 40 "2025-01-01";
    csv "acme/model-a" 100 "2025-01-01"; csv "acme/model-b" 5 "2025-01-01";
    csv "Zeta/model-z" 30 "2025-01-02"; csv "acme/model-b" 7 "2025-01-02" ].

Definition frame_two_authors : list Pandas.Row :=
  [ frame_row "acme/model-a" 150 "2025-01-02"; frame_row "Zeta/model-z" 40 "2025-01-01";
    frame_row "acme/model-a" 100 "2025-01-01"; frame_row "acme/model-b" 5 "2025-01-01";
    frame_row "Zeta/model-z" 30 "2025-01-02"; frame_row "acme/model-b" 7 "2025-01-02" ].

Definition pg_two_authors : list Postgres.ModelDownloads :=
  [ pg "acme/model-a" 150 20250102; pg "Zeta/model-z" 40 20250101;
    pg "acme/model-a" 100 20250101; pg "acme/model-b" 5 20250101;
    pg "Zeta/model-z" 30 20250102; pg "acme/model-b" 7 20250102 ].

Definition clean_file (name : string) : Clean.SnapshotFile :=
  {| Clean.file_name := name;
     Clean.file_frame :=
       Some {| Clean.has_id := true; Clean.has_likes := false;
               Clean.has_downloads := false; Clean.has_downloadsAllTime := true;
               Clean.frame_rows := [] |} |}.

(** Two commits with the same bytes [content_x] in [models.parquet]: the
    newer one, [commit_new], is listed first, as the history listing does. *)
Definition content_x : string := "id,downloadsAllTime".

Definition commit_new : Ingestor.CommitInfo :=
  {| Ingestor.commit_id := "aaaaaaa1c0ffee"; Ingestor.created_at := "20250103";
     Ingestor.title := "Update models.parquet"; Ingestor.message := "" |}.
Definition commit_old : Ingestor.CommitInfo :=
  {| Ingestor.commit_id := "bbbbbbb2c0ffee"; Ingestor.created_at := "20250102";
     Ingestor.title := "Update models.parquet"; Ingestor.message := "" |}.

Definition hub (revision filename : string) : option string :=
  if String.eqb filename "models.parquet"
     && (String.eqb revision "aaaaaaa1c0ffee" || String.eqb revision "bbbbbbb2c0ffee")
  then Some content_x else None.

(** The directory left by an earlier run that only saw [commit_old]. *)
Definition dir_after_old : gmap string string :=
  {[ "models-20250102-bbbbbbb.parquet" := content_x ]}.

(** A stand-in for the digest in examples: the bytes themselves. *)
Definition digest (bytes : string) : string := bytes.

(** A first run from an empty directory, and a second one on what it left. *)
Definition first_run : Ingestor.State :=
  Ingestor.download_historical_models_data digest hub [commit_new; commit_old] ∅.
Definition second_run : Ingestor.State :=
  Ingestor.download_historical_models_data digest hub [commit_new; commit_old]
    (Ingestor.historical_dir first_run).

End Corpus.

(** * Properties *)

(** ** Sorting and the window function *)

Section RelationalFacts.
Context {A : Type} (leb : A → A → bool).

Lemma insert_by_Permutation x l : insert_by leb x l ≡ₚ x :: l.
Proof.
  induction l as [|y l IH]; simpl; [done|].
  destruct (leb x y); [done|]. rewrite IH. apply Permutation_swap.
Qed.

Lemma sort_by_Permutation l : sort_by leb l ≡ₚ l.
Proof.
  induction l as [|x l IH]; simpl; [done|].
  rewrite insert_by_Permutation. by f_equiv.
Qed.

Lemma elem_of_sort_by x l : x ∈ sort_by leb l ↔ x ∈ l.
Proof. by rewrite sort_by_Permutation. Qed.

Lemma sort_by_length l : length (sort_by leb l) = length l.
Proof. by rewrite sort_by_Permutation. Qed.

Lemma sort_by_nil_inv l : sort_by leb l = [] → l = [].
Proof.
  intros H. apply nil_length_inv. by rewrite <- sort_by_length, H.
Qed.

Hypothesis leb_total : ∀ a b, leb a b = true ∨ leb b a = true.

Local Abbreviation le_of := (le_of leb).

Lemma insert_by_Sorted x l : Sorted le_of l → Sorted le_of (insert_by leb x l).
Proof.
  induction 1 as [|y l Hl IH Hy]; simpl.
  - repeat constructor.
  - destruct (leb x y) eqn:Hxy.
    + constructor; [by constructor|]. by constructor.
    + constructor; [done|].
      assert (le_of y x) by (destruct (leb_total x y); [congruence|done]).
      destruct Hy as [|z l' Hz]; simpl; [by constructor|].
      destruct (leb x z); by constructor.
Qed.

Lemma sort_by_Sorted l : Sorted le_of (sort_by leb l).
Proof.
  induction l as [|x l IH]; simpl; [constructor|]. by apply insert_by_Sorted.
Qed.

Hypothesis leb_trans : ∀ a b c, leb a b = true → leb b c = true → leb a c = true.

Lemma sort_by_StronglySorted l : StronglySorted le_of (sort_by leb l).
Proof.
  apply Sorted_StronglySorted; [|apply sort_by_Sorted].
  intros a b c. apply leb_trans.
Qed.
End RelationalFacts.

Lemma StronglySorted_weaken {A : Type} (R1 R2 : A → A → Prop) l :
  (∀ a b, R1 a b → R2 a b) → StronglySorted R1 l → StronglySorted R2 l.
Proof.
  intros HR. induction 1 as [|a l Hs IH Ha]; constructor; [done|].
  eapply Forall_impl; [exact Ha|]. intros b. apply HR.
Qed.

Section LagFacts.
Context {A : Type}.

Lemma with_lag_lookup (prev : option A) l i :
  with_lag prev l !! i
  = (λ r, (r, match i with O => prev | S j => l !! j end)) <$> l !! i.
Proof.
  revert prev i. induction l as [|x l IH]; intros prev [|i]; simpl;
    first [done | rewrite IH; destruct i; done].
Qed.

Lemma with_lag_fst (prev : option A) l : (with_lag prev l).*1 = l.
Proof. revert prev. induction l as [|x l IH]; intros prev; simpl; [done|]. by rewrite IH. Qed.

(** In a strictly increasing list the row before a row is its closest
    predecessor, and the first row has no predecessor. *)
Context (lt : A → A → Prop) `{!Irreflexive lt, !Transitive lt}.

Lemma StronglySorted_lookup_lt l i j x y :
  StronglySorted lt l → l !! i = Some x → l !! j = Some y → (i < j)%nat → lt x y.
Proof.
  intros Hs. revert i j. induction Hs as [|a l Hs IH Ha]; intros i j Hi Hj Hij; [done|].
  destruct j as [|j]; [lia|]. simpl in Hj.
  destruct i as [|i]; simpl in Hi.
  - simplify_eq. rewrite Forall_forall in Ha. apply Ha. eapply list_elem_of_lookup_2; eauto.
  - eapply IH; eauto. lia.
Qed.

Lemma sorted_first l i r :
  StronglySorted lt l → l !! i = Some r → (∀ q, q ∈ l → ¬ lt q r) → i = O.
Proof.
  intros Hs Hi Hmin. destruct i as [|i]; [done|].
  destruct l as [|a l]; [done|]. exfalso.
  apply (Hmin a); [left|]. eapply (StronglySorted_lookup_lt _ 0 (S i)); eauto. lia.
Qed.

Lemma sorted_pred l i r p :
  StronglySorted lt l → l !! i = Some r → p ∈ l → lt p r →
  (∀ q, q ∈ l → lt p q → lt q r → False) →
  ∃ j, i = S j ∧ l !! j = Some p.
Proof.
  intros Hs Hi Hp Hpr Hbetween.
  apply list_elem_of_lookup in Hp as [k Hk].
  assert (k < i)%nat as Hki.
  { destruct (lt_eq_lt_dec k i) as [[?| ->]|Hgt]; [done|..].
    - simplify_eq. by apply irreflexivity in Hpr.
    - exfalso. apply (irreflexivity lt p). etrans; [done|].
      eapply StronglySorted_lookup_lt; eauto. }
  destruct i as [|j]; [lia|]. exists j. split; [done|].
  destruct (decide (k = j)) as [->|Hne]; [done|]. exfalso.
  destruct (lookup_lt_is_Some_2 l j) as [q Hq].
  { apply lookup_lt_Some in Hi. lia. }
  apply (Hbetween q); [by eapply list_elem_of_lookup_2| |].
  - eapply StronglySorted_lookup_lt; eauto. lia.
  - eapply StronglySorted_lookup_lt; eauto.
Qed.
End LagFacts.

Section WindowFacts.
Context {A K D : Type} `{!EqDecision K}.
Context (key : A → K) (ord : A → D) (leb : A → A → bool).

Hypothesis leb_total : ∀ a b, leb a b = true ∨ leb b a = true.
Hypothesis leb_trans : ∀ a b c, leb a b = true → leb b c = true → leb a c = true.
Hypothesis leb_antisym : ∀ a b, leb a b = true → leb b a = true → ord a = ord b.

Local Abbreviation part := (part key leb).
Local Abbreviation before := (before leb).
Local Abbreviation le_of := (le_of leb).

Local Instance before_irreflexive : Irreflexive before.
Proof. intros a Ha. unfold before in Ha. destruct (leb_total a a); congruence. Qed.

Local Instance before_transitive : Transitive before.
Proof.
  intros a b c Hab Hbc. unfold before in *.
  destruct (leb c a) eqn:Hca; [|done].
  destruct (leb_total a b) as [Hab'|?]; [|congruence].
  rewrite (leb_trans c a b) in Hbc; done.
Qed.

Lemma elem_of_part t k r : r ∈ part t k ↔ r ∈ t ∧ key r = k.
Proof. unfold part. rewrite elem_of_sort_by, list_elem_of_filter. tauto. Qed.

Lemma filter_ord_NoDup t k :
  NoDup ((λ r, (key r, ord r)) <$> t) → NoDup (ord <$> filter (λ r, key r = k) t).
Proof.
  intros Hnd.
  assert (NoDup ((λ r, (key r, ord r)) <$> filter (λ r, key r = k) t)) as Hnd'.
  { eapply sublist_NoDup; [done|apply fmap_sublist, sublist_filter]. }
  replace (ord <$> filter (λ r, key r = k) t)
    with (snd <$> ((λ r, (key r, ord r)) <$> filter (λ r, key r = k) t))
    by (rewrite <- list_fmap_compose; done).
  apply NoDup_fmap_2_strong; [|done].
  intros [k1 o1] [k2 o2] H1 H2 Ho. simpl in Ho. subst o2.
  apply list_elem_of_fmap in H1 as (r1 & ? & Hr1), H2 as (r2 & ? & Hr2).
  apply list_elem_of_filter in Hr1 as [? _], Hr2 as [? _]. congruence.
Qed.

(** Sorting rows that differ in [ord] gives a strictly increasing list. *)
Lemma sort_by_strictly_sorted l :
  NoDup (ord <$> l) → StronglySorted before (sort_by leb l).
Proof.
  intros Hnd. rewrite <- (sort_by_Permutation leb l) in Hnd.
  assert (StronglySorted le_of (sort_by leb l)) as Hs
    by (by apply sort_by_StronglySorted).
  induction Hs as [|a l' Hs IH Ha]; [constructor|].
  rewrite fmap_cons in Hnd. apply NoDup_cons in Hnd as [Hnotin Hnd].
  constructor; [by apply IH|].
  rewrite Forall_forall in Ha |- *. intros y Hy. unfold before.
  destruct (leb y a) eqn:Hya; [|done]. exfalso. apply Hnotin.
  rewrite (leb_antisym a y); [by apply list_elem_of_fmap_2| by apply Ha | done].
Qed.

Lemma part_strictly_sorted t k :
  NoDup ((λ r, (key r, ord r)) <$> t) → StronglySorted before (part t k).
Proof. intros Hnd. by apply sort_by_strictly_sorted, filter_ord_NoDup. Qed.

Lemma elem_of_lag_part t k r prev :
  (r, prev) ∈ with_lag None (part t k) →
  r ∈ t ∧ key r = k ∧ ∀ p, prev = Some p → p ∈ t ∧ key p = k.
Proof.
  intros Hin. apply list_elem_of_lookup in Hin as [i Hi].
  rewrite with_lag_lookup in Hi.
  destruct (part t k !! i) as [r'|] eqn:Hr; simplify_eq/=.
  apply list_elem_of_lookup_2, elem_of_part in Hr as [? ?].
  split_and!; [done..|]. intros p Hp. destruct i as [|j]; [done|].
  by apply list_elem_of_lookup_2, elem_of_part in Hp.
Qed.

Lemma lag_part_total t r : r ∈ t → ∃ prev, (r, prev) ∈ with_lag None (part t (key r)).
Proof.
  intros Hr. assert (r ∈ part t (key r)) as Hin by (by apply elem_of_part).
  apply list_elem_of_lookup in Hin as [i Hi].
  eexists. apply (list_elem_of_lookup_2 _ i). rewrite with_lag_lookup, Hi. done.
Qed.

Lemma lag_part_first t r prev :
  NoDup ((λ r, (key r, ord r)) <$> t) →
  (r, prev) ∈ with_lag None (part t (key r)) →
  (∀ q, q ∈ t → key q = key r → leb r q = true) →
  prev = None.
Proof.
  intros Hnd Hin Hmin. apply list_elem_of_lookup in Hin as [i Hi].
  rewrite with_lag_lookup in Hi.
  destruct (part t (key r) !! i) as [r'|] eqn:Hr; simplify_eq/=.
  assert (i = O) as ->; [|done].
  eapply (sorted_first before); [by apply part_strictly_sorted|done|].
  intros q [Hq Hk]%elem_of_part Hlt. unfold before in Hlt.
  rewrite Hmin in Hlt; done.
Qed.

Lemma lag_part_pred t r prev p :
  NoDup ((λ r, (key r, ord r)) <$> t) →
  (r, prev) ∈ with_lag None (part t (key r)) →
  p ∈ t → key p = key r → before p r →
  (∀ q, q ∈ t → key q = key r → before p q → before q r → False) →
  prev = Some p.
Proof.
  intros Hnd Hin Hp Hk Hpr Hbetween. apply list_elem_of_lookup in Hin as [i Hi].
  rewrite with_lag_lookup in Hi.
  destruct (part t (key r) !! i) as [r'|] eqn:Hr; simplify_eq/=.
  destruct (sorted_pred before (part t (key r)) i r p) as (j & -> & Hj);
    [by apply part_strictly_sorted|done|by apply elem_of_part|done| |done].
  intros q [Hq Hkq]%elem_of_part. by apply Hbetween.
Qed.
End WindowFacts.

Lemma NoDup_fmap_eq {A B : Type} (f : A → B) (l : list A) x y :
  NoDup (f <$> l) → x ∈ l → y ∈ l → f x = f y → x = y.
Proof.
  intros Hnd [i Hi]%list_elem_of_lookup [j Hj]%list_elem_of_lookup Hf.
  assert (i = j) as ->; [|congruence].
  eapply NoDup_lookup; [done| |]; rewrite list_lookup_fmap; [by rewrite Hi|].
  by rewrite Hj, Hf.
Qed.

(** ** The DuckDB engine *)

Module DuckDBFacts.
Import DuckDB.

Lemma date_leb_total a b : date_leb a b = true ∨ date_leb b a = true.
Proof. unfold date_leb. lia. Qed.

Lemma date_leb_trans a b c :
  date_leb a b = true → date_leb b c = true → date_leb a c = true.
Proof. unfold date_leb. lia. Qed.

Lemma date_leb_antisym a b :
  date_leb a b = true → date_leb b a = true → snapshot_date a = snapshot_date b.
Proof. unfold date_leb. lia. Qed.

Lemma before_date a b : before date_leb a b ↔ snapshot_date a < snapshot_date b.
Proof. unfold before, date_leb. lia. Qed.

(** The rows of [daily_model_downloads] are the rows of the partitions,
    each with the difference to the row before it. *)
Lemma elem_of_daily_model_downloads t dr :
  dr ∈ daily_model_downloads t ↔
  ∃ r prev, (r, prev) ∈ with_lag None (part id date_leb t (id r)) ∧ dr = delta_row (r, prev).
Proof.
  unfold daily_model_downloads. rewrite elem_of_sort_by, list_elem_of_In, in_flat_map.
  split.
  - intros (k & Hk & Hin).
    apply list_elem_of_In, list_elem_of_fmap in Hin as ([r prev] & -> & Hin).
    exists r, prev. split; [|done].
    pose proof (elem_of_lag_part id date_leb t k r prev Hin) as (_ & <- & _). done.
  - intros (r & prev & Hin & ->). exists (id r). split.
    + rewrite <- list_elem_of_In, elem_of_remove_dups. apply list_elem_of_fmap_2.
      by destruct (elem_of_lag_part id date_leb t (id r) r prev Hin).
    + rewrite <- list_elem_of_In. apply list_elem_of_fmap_2. exact Hin.
Qed.

Lemma daily_model_downloads_row t dr : dr ∈ daily_model_downloads t → row dr ∈ t.
Proof.
  intros (r & prev & Hin & ->)%elem_of_daily_model_downloads. simpl.
  by destruct (elem_of_lag_part id date_leb t (id r) r prev Hin).
Qed.

Lemma daily_model_downloads_total t r :
  r ∈ t → ∃ dr, dr ∈ daily_model_downloads t ∧ row dr = r.
Proof.
  intros Hr. destruct (lag_part_total id date_leb t r Hr) as [prev Hin].
  exists (delta_row (r, prev)). split; [|done].
  apply elem_of_daily_model_downloads. eauto.
Qed.

(** Every delta is the exact difference of two counters of the entity. *)
Lemma daily_downloads_exact t dr d :
  dr ∈ daily_model_downloads t → daily_downloads dr = Some d →
  ∃ p, p ∈ t ∧ id p = id (row dr)
       ∧ d = downloadsAllTime (row dr) - downloadsAllTime p.
Proof.
  intros (r & prev & Hin & ->)%elem_of_daily_model_downloads Hd. simpl in *.
  destruct prev as [p|]; simplify_eq/=. exists p.
  destruct (elem_of_lag_part id date_leb t (id r) r (Some p) Hin) as (_ & _ & Hp).
  destruct (Hp p eq_refl). done.
Qed.

Lemma first_observation_null t r :
  NoDup (obs_key <$> t) → r ∈ t →
  (∀ q, q ∈ t → id q = id r → snapshot_date r ≤ snapshot_date q) →
  {| row := r; daily_downloads := None |} ∈ daily_model_downloads t
  ∧ ∀ dr, dr ∈ daily_model_downloads t →
          id (row dr) = id r → snapshot_date (row dr) = snapshot_date r →
          daily_downloads dr = None.
Proof.
  intros Hnd Hr Hmin.
  assert (∀ prev, (r, prev) ∈ with_lag None (part id date_leb t (id r)) → prev = None)
    as Hfirst.
  { intros prev Hin.
    eapply (lag_part_first id snapshot_date date_leb); eauto using date_leb_total,
      date_leb_trans, date_leb_antisym.
    intros q Hq Hk. unfold date_leb. specialize (Hmin q Hq Hk). lia. }
  split.
  - destruct (lag_part_total id date_leb t r Hr) as [prev Hin].
    apply elem_of_daily_model_downloads. exists r, prev. split; [done|].
    by rewrite (Hfirst prev Hin).
  - intros dr (r' & prev & Hin & ->)%elem_of_daily_model_downloads Hid Hdate. simpl in *.
    assert (r' = r) as ->.
    { apply (NoDup_fmap_eq obs_key t); [done| |done|unfold obs_key; congruence].
      by destruct (elem_of_lag_part id date_leb t (id r') r' prev Hin). }
    by rewrite (Hfirst prev Hin).
Qed.

Lemma delta_from_previous_observation t r p :
  NoDup (obs_key <$> t) → r ∈ t → p ∈ t → id p = id r →
  snapshot_date p < snapshot_date r →
  (∀ q, q ∈ t → id q = id r →
        ¬ (snapshot_date p < snapshot_date q < snapshot_date r)) →
  {| row := r; daily_downloads := Some (downloadsAllTime r - downloadsAllTime p) |}
    ∈ daily_model_downloads t
  ∧ ∀ dr, dr ∈ daily_model_downloads t →
          id (row dr) = id r → snapshot_date (row dr) = snapshot_date r →
          daily_downloads dr = Some (downloadsAllTime r - downloadsAllTime p).
Proof.
  intros Hnd Hr Hp Hid Hlt Hbetween.
  assert (∀ prev, (r, prev) ∈ with_lag None (part id date_leb t (id r)) → prev = Some p)
    as Hprev.
  { intros prev Hin.
    eapply (lag_part_pred id snapshot_date date_leb); eauto using date_leb_total,
      date_leb_trans, date_leb_antisym.
    - by apply before_date.
    - intros q Hq Hk ?%before_date ?%before_date. apply (Hbetween q); auto. }
  split.
  - destruct (lag_part_total id date_leb t r Hr) as [prev Hin].
    apply elem_of_daily_model_downloads. exists r, prev. split; [done|].
    by rewrite (Hprev prev Hin).
  - intros dr (r' & prev & Hin & ->)%elem_of_daily_model_downloads Hid' Hdate. simpl in *.
    assert (r' = r) as ->.
    { apply (NoDup_fmap_eq obs_key t); [done| |done|unfold obs_key; congruence].
      by destruct (elem_of_lag_part id date_leb t (id r') r' prev Hin). }
    by rewrite (Hprev prev Hin).
Qed.
End DuckDBFacts.

Module DuckDBAggregateFacts.
Import DuckDB.

Lemma valid_delta_spec r :
  valid_delta r = true ↔ ∃ d, daily_downloads r = Some d ∧ 0 ≤ d.
Proof.
  unfold valid_delta. destruct (daily_downloads r) as [d|].
  - rewrite Z.leb_le. split; [eauto|]. by intros (? & [= <-] & ?).
  - split; [done|]. by intros (? & ? & ?).
Qed.

(** A row the [WHERE] clause rejects leaves no trace in the aggregates. *)
Lemma author_daily_downloads_drop l1 dr l2 :
  valid_delta dr = false →
  author_daily_downloads (l1 ++ dr :: l2) = author_daily_downloads (l1 ++ l2).
Proof.
  intros Hdr. unfold author_daily_downloads, author_daily_groups.
  rewrite !List.filter_app. simpl. by rewrite Hdr.
Qed.

Lemma elem_of_author_daily_downloads dmd g :
  g ∈ author_daily_downloads dmd ↔
  ∃ k, k ∈ group_key <$> List.filter valid_delta dmd
       ∧ g = aggregate k (filter (λ r, group_key r = k) (List.filter valid_delta dmd)).
Proof.
  unfold author_daily_downloads, author_daily_groups. rewrite elem_of_sort_by, list_elem_of_fmap.
  setoid_rewrite elem_of_remove_dups. naive_solver.
Qed.

Lemma elem_of_valid_rows dmd r :
  r ∈ List.filter valid_delta dmd ↔ r ∈ dmd ∧ valid_delta r = true.
Proof. by rewrite !list_elem_of_In, List.filter_In. Qed.

(** [n_models] is the number of distinct ids among the rows of the group
    that pass the [WHERE] clause. *)
Lemma n_models_counts_valid_rows dmd g :
  g ∈ author_daily_downloads dmd →
  ∃ ids : list string,
    NoDup ids ∧ length ids = n_models g
    ∧ ∀ e, e ∈ ids ↔
           ∃ r, r ∈ dmd ∧ id (row r) = e
                ∧ snapshot_date (row r) = a_snapshot_date g
                ∧ author (row r) = a_author g
                ∧ ∃ d, daily_downloads r = Some d ∧ 0 ≤ d.
Proof.
  intros (k & Hk & ->)%elem_of_author_daily_downloads.
  exists (remove_dups ((λ r, id (row r))
            <$> filter (λ r, group_key r = k) (List.filter valid_delta dmd))).
  split_and!; [apply NoDup_remove_dups|done|].
  intros e. rewrite elem_of_remove_dups, list_elem_of_fmap. simpl.
  setoid_rewrite list_elem_of_filter. setoid_rewrite elem_of_valid_rows.
  setoid_rewrite valid_delta_spec. unfold group_key. destruct k as [d a]. simpl.
  split.
  - intros (r & -> & [= ? ?] & ? & ?). exists r. naive_solver.
  - intros (r & ? & <- & <- & <- & ?). exists r. naive_solver.
Qed.

(** A group exists in the output exactly when one of its rows passes the
    [WHERE] clause. *)
Lemma group_in_output dmd d a :
  (∃ g, g ∈ author_daily_downloads dmd ∧ a_snapshot_date g = d ∧ a_author g = a) ↔
  ∃ r, r ∈ dmd ∧ snapshot_date (row r) = d ∧ author (row r) = a
       ∧ valid_delta r = true.
Proof.
  split.
  - intros (g & (k & Hk & ->)%elem_of_author_daily_downloads & <- & <-). simpl.
    apply list_elem_of_fmap in Hk as (r & -> & [? ?]%elem_of_valid_rows).
    exists r. done.
  - intros (r & Hr & <- & <- & Hv).
    exists (aggregate (group_key r)
              (filter (λ r', group_key r' = group_key r) (List.filter valid_delta dmd))).
    split; [|done]. apply elem_of_author_daily_downloads.
    exists (group_key r). split; [|done].
    apply list_elem_of_fmap_2. by apply elem_of_valid_rows.
Qed.

Lemma output_leb_spec a b : output_leb a b = true ↔ output_order a b.
Proof. unfold output_leb, output_order. lia. Qed.

Lemma author_daily_downloads_sorted dmd :
  StronglySorted output_order (author_daily_downloads dmd).
Proof.
  unfold author_daily_downloads, author_daily_groups.
  eapply StronglySorted_weaken; [|apply (sort_by_StronglySorted output_leb)].
  - intros a b. apply output_leb_spec.
  - intros a b. unfold output_leb. lia.
  - intros a b c. unfold output_leb. lia.
Qed.
End DuckDBAggregateFacts.

(** ** Loading: separators, file names, empty inputs *)

Lemma split_part_1_no_slash s : has_slash s = false → split_part_1 s = s.
Proof.
  induction s as [|c s IH]; simpl; [done|].
  destruct (Ascii.eqb c slash); [done|]. intros H. by rewrite IH.
Qed.

Lemma split_part_1_empty s :
  split_part_1 s = "" ↔ s = "" ∨ ∃ s', s = String slash s'.
Proof.
  destruct s as [|c s]; simpl; [naive_solver|].
  destruct (Ascii.eqb_spec c slash) as [->|Hne]; [naive_solver|].
  split; [done|]. intros [?|[s' ?]]; simplify_eq.
Qed.

Section GlobFacts.
Context {F : Type} (name : F → string).

Lemma glob_sorted_nil listing :
  (∀ f, f ∈ listing → glob_models_parquet (name f) = false) →
  glob_sorted name listing = [].
Proof.
  intros Hnone. unfold glob_sorted.
  replace (List.filter (λ f, glob_models_parquet (name f)) listing) with (@nil F); [done|].
  induction listing as [|f l IH]; simpl; [done|].
  rewrite (Hnone f) by left. apply IH. intros g Hg. apply Hnone. by right.
Qed.

Lemma elem_of_glob_sorted listing f :
  f ∈ glob_sorted name listing ↔ f ∈ listing ∧ glob_models_parquet (name f) = true.
Proof.
  unfold glob_sorted. by rewrite elem_of_sort_by, !list_elem_of_In, List.filter_In.
Qed.

Lemma glob_sorted_cons f listing :
  glob_sorted name (f :: listing)
  = if glob_models_parquet (name f)
    then insert_by (λ a b, String.leb (name a) (name b)) f (glob_sorted name listing)
    else glob_sorted name listing.
Proof. unfold glob_sorted. simpl. by destruct (glob_models_parquet (name f)). Qed.
End GlobFacts.

Lemma insert_by_not_nil {A : Type} (leb : A → A → bool) x l : insert_by leb x l ≠ [].
Proof. destruct l as [|y l]; simpl; [done|]. by destruct (leb x y). Qed.

Lemma omap_insert_by_None {A B : Type} (f : A → option B) (leb : A → A → bool) x l :
  f x = None → omap f (insert_by leb x l) = omap f l.
Proof.
  intros Hx. induction l as [|y l IH]; csimpl; [by rewrite Hx|].
  destruct (leb x y); csimpl; [by rewrite Hx|]. by rewrite IH.
Qed.

Module DuckDBLoadFacts.
Import DuckDB.

Lemma select_snapshot_no_slash date s n :
  has_slash s = false → s ≠ "" →
  select_snapshot date {| pq_id := Some s; pq_downloadsAllTime := Some n |}
  = Some {| snapshot_date := date; id := s; author := s; downloadsAllTime := n |}.
Proof.
  intros Hs Hne. unfold select_snapshot. simpl.
  rewrite split_part_1_no_slash by done.
  destruct (String.eqb_spec s ""); done.
Qed.

(** The rows that the [WHERE] clause of the load rejects. *)
Lemma select_snapshot_None date r :
  select_snapshot date r = None ↔
  pq_id r = None ∨ pq_downloadsAllTime r = None
  ∨ ∃ s, pq_id r = Some s ∧ (s = "" ∨ ∃ s', s = String slash s').
Proof.
  unfold select_snapshot. destruct (pq_id r) as [s|]; [|naive_solver].
  destruct (pq_downloadsAllTime r) as [n|]; [|naive_solver].
  destruct (String.eqb_spec (split_part_1 s) "") as [He|Hne].
  - apply split_part_1_empty in He. naive_solver.
  - split; [done|]. intros [?|[?|(s0 & [= <-] & H)]]; [done..|].
    by apply split_part_1_empty in H.
Qed.

Lemma elem_of_all_snapshots qs t ds f date x :
  all_snapshots qs = inr t → (ds, f) ∈ qs → cast_date ds = Some date →
  x ∈ load_file date f → x ∈ t.
Proof.
  revert t. induction qs as [|[d' f'] qs IH]; intros t Ht Hin Hd Hx; [by inv Hin|].
  simpl in Ht. destruct (cast_date d') as [date'|] eqn:Hd'; [|done].
  destruct (all_snapshots qs) as [e|rows]; [done|]. simplify_eq.
  apply elem_of_app. apply elem_of_cons in Hin as [[= -> ->]|Hin].
  - left. by simplify_eq.
  - right. by eapply IH.
Qed.

Lemma process_no_files data_dir listing :
  (∀ f, f ∈ listing → glob_models_parquet (file_name f) = false) →
  process_historical_data data_dir listing
  = inl (ValueError ("No parquet files found in " +:+ data_dir)).
Proof.
  intros Hnone. unfold process_historical_data. by rewrite glob_sorted_nil.
Qed.

(** A file whose name has no date is left out of the union. *)
Lemma process_skips_undated data_dir f listing :
  extract_date_from_filename (file_name f) = None →
  glob_sorted file_name listing ≠ [] →
  process_historical_data data_dir (f :: listing)
  = process_historical_data data_dir listing.
Proof.
  intros Hf Hne. unfold process_historical_data. rewrite glob_sorted_cons.
  destruct (glob_models_parquet (file_name f)); [|done].
  assert (∀ l : list ParquetFile, l ≠ [] → (length l =? 0)%nat = false) as Hlen.
  { intros [|??]; done. }
  rewrite !Hlen by (done || apply insert_by_not_nil).
  unfold union_queries. rewrite omap_insert_by_None; [done|]. by rewrite Hf.
Qed.
End DuckDBLoadFacts.

Module CleanFacts.
Import Clean.

Lemma process_all_parses fs all_data f :
  process_all fs = inr all_data → f ∈ fs →
  ∃ d, parse_snapshot_date (file_name f) = inr d.
Proof.
  revert all_data. induction fs as [|g fs IH]; intros all_data Hok Hin; [by inv Hin|].
  simpl in Hok.
  destruct (parse_snapshot_date (file_name g)) as [e|d] eqn:Hg; [done|].
  destruct (process_snapshot_file g d) as [e|df]; [done|].
  destruct (process_all fs) as [e|rest] eqn:Hrest; [done|].
  apply elem_of_cons in Hin as [->|Hin]; [eauto|]. by eapply IH.
Qed.

Lemma parse_snapshot_date_mismatch filename :
  match_snapshot_name filename = None →
  parse_snapshot_date filename
  = inl (ValueError ("Filename " +:+ filename +:+ " does not match expected format")).
Proof. intros H. unfold parse_snapshot_date. by rewrite H. Qed.

Lemma clean_rejects_mismatch input_dir files f :
  f ∈ files → glob_models_parquet (file_name f) = true →
  match_snapshot_name (file_name f) = None →
  raised (clean_historical_data input_dir (Some files)).
Proof.
  intros Hf Hglob Hno. unfold clean_historical_data.
  assert (f ∈ glob_sorted file_name files) as Hin by (by apply elem_of_glob_sorted).
  destruct (glob_sorted file_name files) as [|g gs] eqn:Hgs; [done|].
  destruct (process_all (g :: gs)) as [e|all_data] eqn:Hall; [done|].
  destruct (process_all_parses _ _ f Hall Hin) as [d Hd].
  by rewrite parse_snapshot_date_mismatch in Hd.
Qed.

Lemma clean_no_files input_dir files :
  (∀ f, f ∈ files → glob_models_parquet (file_name f) = false) →
  clean_historical_data input_dir (Some files)
  = inl (ValueError ("No parquet files found in " +:+ input_dir)).
Proof. intros Hnone. unfold clean_historical_data. by rewrite glob_sorted_nil. Qed.
End CleanFacts.

(** ** The order of strings and of pairs of strings *)

Lemma string_leb_refl a : String.leb a a = true.
Proof. by destruct (String.leb_total a a). Qed.

Lemma string_leb_trans a b c :
  String.leb a b = true → String.leb b c = true → String.leb a c = true.
Proof.
  intros Hab Hbc. apply Is_true_true.
  apply (transitivity (R:=String.le) (y:=b)); by apply Is_true_true.
Qed.

Lemma string_ltb_leb a b : String.ltb a b = negb (String.leb b a).
Proof.
  unfold String.ltb, String.leb. rewrite (String.compare_antisym b a).
  by destruct (String.compare a b).
Qed.

Lemma string_ltb_spec a b :
  String.ltb a b = true ↔ String.leb a b = true ∧ a ≠ b.
Proof.
  rewrite string_ltb_leb. split.
  - intros Hba%negb_true_iff. split.
    + destruct (String.leb_total a b); congruence.
    + intros ->. by rewrite string_leb_refl in Hba.
  - intros [Hab Hne]. apply negb_true_iff.
    destruct (String.leb b a) eqn:Hba; [|done].
    destruct Hne. by apply String.leb_antisym.
Qed.

Section PairOrder.
Lemma lex_leb_spec a b :
  lex_leb a b = true ↔
  (String.leb a.1 b.1 = true ∧ a.1 ≠ b.1) ∨ (a.1 = b.1 ∧ String.leb a.2 b.2 = true).
Proof.
  unfold lex_leb. rewrite orb_true_iff, andb_true_iff, string_ltb_spec.
  by rewrite String.eqb_eq.
Qed.

Lemma lex_leb_total a b : lex_leb a b = true ∨ lex_leb b a = true.
Proof.
  rewrite !lex_leb_spec. destruct (decide (a.1 = b.1)) as [He|Hne].
  - destruct (String.leb_total a.2 b.2); [left|right]; right; done.
  - destruct (String.leb_total a.1 b.1); [left|right]; left; done.
Qed.

Lemma lex_leb_trans a b c :
  lex_leb a b = true → lex_leb b c = true → lex_leb a c = true.
Proof.
  rewrite !lex_leb_spec.
  intros [[Hab Hne]|[He Hab]] [[Hbc Hne']|[He' Hbc]].
  - left. split; [by eapply string_leb_trans|].
    intros Hac. rewrite <- Hac in Hbc. destruct Hne. by apply String.leb_antisym.
  - left. by rewrite <- He'.
  - left. by rewrite He.
  - right. split; [congruence|by eapply string_leb_trans].
Qed.

Lemma lex_leb_antisym a b : lex_leb a b = true → lex_leb b a = true → a = b.
Proof.
  rewrite !lex_leb_spec. destruct a as [a1 a2], b as [b1 b2]. simpl.
  intros [[Hab Hne]|[He Hab]] [[Hba Hne']|[He' Hba]]; simplify_eq.
  - destruct Hne. by apply String.leb_antisym.
  - f_equal. by apply String.leb_antisym.
Qed.

(** Strictly before in the order of the pairs. *)
Lemma before_lex_leb a b :
  before lex_leb a b ↔
  String.ltb a.1 b.1 = true ∨ (a.1 = b.1 ∧ String.ltb a.2 b.2 = true).
Proof.
  unfold before. split.
  - intros Hba. destruct (lex_leb_total a b) as [Hab|?]; [|congruence].
    apply lex_leb_spec in Hab as [[Hab Hne]|[He Hab]].
    + left. by apply string_ltb_spec.
    + right. split; [done|]. apply string_ltb_spec. split; [done|].
      intros He2. assert (lex_leb b a = true) as Hba'; [|congruence].
      apply lex_leb_spec. right. rewrite He2. split; [done|apply string_leb_refl].
  - intros H. destruct (lex_leb b a) eqn:Hba; [|done]. exfalso.
    apply lex_leb_spec in Hba.
    destruct H as [[Hab Hne]%string_ltb_spec|[He [Hab Hne]%string_ltb_spec]].
    + destruct Hba as [[Hba _]|[He _]]; [|done].
      destruct Hne. by apply String.leb_antisym.
    + destruct Hba as [[_ Hne']|[_ Hba]]; [done|].
      destruct Hne. by apply String.leb_antisym.
Qed.
End PairOrder.

(** ** The pandas engine *)

Module PandasFacts.
Import Pandas.

Lemma id_date_leb_lex a b : id_date_leb a b = lex_leb (obs_key a) (obs_key b).
Proof. done. Qed.

Lemma id_date_leb_total a b : id_date_leb a b = true ∨ id_date_leb b a = true.
Proof. rewrite !id_date_leb_lex. apply lex_leb_total. Qed.

Lemma id_date_leb_trans a b c :
  id_date_leb a b = true → id_date_leb b c = true → id_date_leb a c = true.
Proof. rewrite !id_date_leb_lex. apply lex_leb_trans. Qed.

Lemma id_date_leb_antisym a b :
  id_date_leb a b = true → id_date_leb b a = true → obs_key a = obs_key b.
Proof. rewrite !id_date_leb_lex. apply lex_leb_antisym. Qed.

Lemma before_id_date a b :
  before id_date_leb a b ↔
  String.ltb (id a) (id b) = true
  ∨ (id a = id b ∧ String.ltb (snapshot_date a) (snapshot_date b) = true).
Proof. apply (before_lex_leb (obs_key a) (obs_key b)). Qed.

Lemma sorted_frame_strict df :
  NoDup (obs_key <$> df) → StronglySorted (before id_date_leb) (sort_by id_date_leb df).
Proof.
  apply (sort_by_strictly_sorted obs_key id_date_leb id_date_leb_total
           id_date_leb_trans id_date_leb_antisym).
Qed.

Lemma groupby_diff_lookup seen df i :
  groupby_diff seen df !! i
  = (λ r, {| row := r;
             daily_downloads :=
               sub_null (downloadsAllTime r)
                        (previous_of (reverse (take i df) ++ seen) r ≫= downloadsAllTime) |})
      <$> df !! i.
Proof.
  revert seen i. induction df as [|x df IH]; intros seen [|i]; simpl; [done..|].
  rewrite IH. rewrite reverse_cons, <- app_assoc. done.
Qed.

Lemma elem_of_groupby_diff df x :
  x ∈ groupby_diff [] df ↔
  ∃ i r, df !! i = Some r
         ∧ x = {| row := r;
                  daily_downloads :=
                    sub_null (downloadsAllTime r)
                             (previous_of (reverse (take i df)) r ≫= downloadsAllTime) |}.
Proof.
  rewrite list_elem_of_lookup. split.
  - intros (i & Hi). rewrite groupby_diff_lookup, app_nil_r in Hi.
    destruct (df !! i) as [r|] eqn:Hr; simplify_eq/=. eauto.
  - intros (i & r & Hr & ->). exists i.
    by rewrite groupby_diff_lookup, app_nil_r, Hr.
Qed.

Lemma previous_of_None seen r :
  (∀ q, q ∈ seen → id q ≠ id r) → previous_of seen r = None.
Proof.
  intros Hne. unfold previous_of. induction seen as [|q seen IH]; simpl; [done|].
  destruct (String.eqb_spec (id q) (id r)) as [He|_].
  - destruct (Hne q); [left|done].
  - apply IH. intros q' Hq'. apply Hne. by right.
Qed.

(** In the sorted frame the first row of an entity has no earlier row. *)
Lemma previous_of_first df i r :
  NoDup (obs_key <$> df) → sort_by id_date_leb df !! i = Some r →
  (∀ q, q ∈ df → id q = id r → String.leb (snapshot_date r) (snapshot_date q) = true) →
  previous_of (reverse (take i (sort_by id_date_leb df))) r = None.
Proof.
  intros Hnd Hi Hmin. apply previous_of_None.
  intros q Hq Hid. rewrite elem_of_reverse in Hq.
  apply list_elem_of_lookup in Hq as [j Hj].
  apply lookup_take_Some in Hj as [Hj Hji].
  pose proof (sorted_frame_strict df Hnd) as Hs.
  assert (before id_date_leb q r) as Hqr.
  { eapply (StronglySorted_lookup_lt (before id_date_leb)); eauto. }
  apply before_id_date in Hqr as [[_ Hne]%string_ltb_spec|[_ Hlt]]; [done|].
  rewrite string_ltb_leb, Hmin in Hlt; [done| |done].
  apply (elem_of_sort_by id_date_leb). by eapply list_elem_of_lookup_2.
Qed.

(** In the sorted frame the row before a row of the same entity is the
    closest earlier observation of that entity. *)
Lemma previous_of_pred df i r p :
  NoDup (obs_key <$> df) → sort_by id_date_leb df !! i = Some r →
  p ∈ df → id p = id r → String.ltb (snapshot_date p) (snapshot_date r) = true →
  (∀ q, q ∈ df → id q = id r →
        ¬ (String.ltb (snapshot_date p) (snapshot_date q) = true
           ∧ String.ltb (snapshot_date q) (snapshot_date r) = true)) →
  previous_of (reverse (take i (sort_by id_date_leb df))) r = Some p.
Proof.
  intros Hnd Hi Hp Hid Hlt Hbetween.
  pose proof (sorted_frame_strict df Hnd) as Hs.
  assert (Irreflexive (before id_date_leb)) as Hirr.
  { apply before_irreflexive, id_date_leb_total. }
  assert (Transitive (before id_date_leb)) as Htr.
  { apply (before_transitive id_date_leb id_date_leb_total id_date_leb_trans). }
  destruct (sorted_pred (before id_date_leb) (sort_by id_date_leb df) i r p)
    as (j & -> & Hj); [done|done|by apply elem_of_sort_by| | |].
  - apply before_id_date. by right.
  - intros q Hq%elem_of_sort_by Hpq%before_id_date Hqr%before_id_date.
    destruct Hpq as [[Hpq Hne]%string_ltb_spec|[He Hpq]].
    + destruct Hqr as [[Hqr _]%string_ltb_spec|[He _]]; [|congruence].
      destruct Hne. apply String.leb_antisym; [done|congruence].
    + destruct Hqr as [[_ Hne]%string_ltb_spec|[He' Hqr]]; [congruence|].
      apply (Hbetween q); [done|congruence|done].
  - rewrite (take_S_r _ _ p) by done. rewrite reverse_snoc.
    unfold previous_of. simpl. by rewrite Hid, String.eqb_refl.
Qed.
End PandasFacts.

Module PandasDeltaFacts.
Import Pandas PandasFacts.

Lemma groupby_diff_row df x : x ∈ groupby_diff [] df → row x ∈ df.
Proof.
  intros (i & r & Hr & ->)%elem_of_groupby_diff. simpl. by eapply list_elem_of_lookup_2.
Qed.

(** The value of the [diff] step at the first observation of an entity. *)
Lemma diff_first df r :
  NoDup (obs_key <$> df) → r ∈ df →
  (∀ q, q ∈ df → id q = id r → String.leb (snapshot_date r) (snapshot_date q) = true) →
  {| row := r; daily_downloads := None |} ∈ groupby_diff [] (sort_by id_date_leb df)
  ∧ ∀ x, x ∈ groupby_diff [] (sort_by id_date_leb df) →
         obs_key (row x) = obs_key r → daily_downloads x = None.
Proof.
  intros Hnd Hr Hmin.
  assert (∀ i, sort_by id_date_leb df !! i = Some r →
            sub_null (downloadsAllTime r)
              (previous_of (reverse (take i (sort_by id_date_leb df))) r ≫= downloadsAllTime)
            = None) as Hval.
  { intros i Hi. rewrite (previous_of_first df i r) by done.
    by destruct (downloadsAllTime r). }
  split.
  - apply elem_of_groupby_diff.
    assert (r ∈ sort_by id_date_leb df) as [i Hi]%list_elem_of_lookup
      by (by apply elem_of_sort_by).
    exists i, r. split; [done|]. by rewrite Hval.
  - intros x (i & r' & Hi & ->)%elem_of_groupby_diff Hk. simpl in *.
    assert (r' = r) as ->.
    { apply (NoDup_fmap_eq obs_key df); [done| |done..].
      apply (elem_of_sort_by id_date_leb). by eapply list_elem_of_lookup_2. }
    by apply Hval.
Qed.

(** The value of the [diff] step at a later observation. *)
Lemma diff_from_previous_observation df r p :
  NoDup (obs_key <$> df) → r ∈ df → p ∈ df → id p = id r →
  String.ltb (snapshot_date p) (snapshot_date r) = true →
  (∀ q, q ∈ df → id q = id r →
        ¬ (String.ltb (snapshot_date p) (snapshot_date q) = true
           ∧ String.ltb (snapshot_date q) (snapshot_date r) = true)) →
  {| row := r; daily_downloads := sub_null (downloadsAllTime r) (downloadsAllTime p) |}
    ∈ groupby_diff [] (sort_by id_date_leb df)
  ∧ ∀ x, x ∈ groupby_diff [] (sort_by id_date_leb df) →
         obs_key (row x) = obs_key r →
         daily_downloads x = sub_null (downloadsAllTime r) (downloadsAllTime p).
Proof.
  intros Hnd Hr Hp Hid Hlt Hbetween.
  assert (∀ i, sort_by id_date_leb df !! i = Some r →
            previous_of (reverse (take i (sort_by id_date_leb df))) r = Some p) as Hval.
  { intros i Hi. by apply previous_of_pred. }
  split.
  - apply elem_of_groupby_diff.
    assert (r ∈ sort_by id_date_leb df) as [i Hi]%list_elem_of_lookup
      by (by apply elem_of_sort_by).
    exists i, r. split; [done|]. by rewrite Hval.
  - intros x (i & r' & Hi & ->)%elem_of_groupby_diff Hk. simpl in *.
    assert (r' = r) as ->.
    { apply (NoDup_fmap_eq obs_key df); [done| |done..].
      apply (elem_of_sort_by id_date_leb). by eapply list_elem_of_lookup_2. }
    by rewrite Hval.
Qed.

Lemma elem_of_df_subset df x :
  x ∈ df_subset df ↔
  ∃ y, y ∈ groupby_diff [] (sort_by id_date_leb df) ∧ x = clamp_negative (fillna y).
Proof.
  unfold df_subset. rewrite <- list_fmap_compose, list_elem_of_fmap. naive_solver.
Qed.

Lemma clamp_fillna_row y : row (clamp_negative (fillna y)) = row y.
Proof.
  destruct y as [r [d|]]; unfold clamp_negative, fillna; simpl.
  - by destruct (d <? 0).
  - destruct (downloadsAllTime r) as [d|]; simpl; [|done]. by destruct (d <? 0).
Qed.

(** What [fillna] and the clamp make of a difference. *)
Lemma clamp_fillna_value y :
  daily_downloads (clamp_negative (fillna y))
  = Z.max 0 <$> (match daily_downloads y with
                 | Some d => Some d
                 | None => downloadsAllTime (row y)
                 end).
Proof.
  destruct y as [r [d|]]; unfold clamp_negative, fillna; simpl.
  - destruct (Z.ltb_spec d 0); simpl; f_equal; lia.
  - destruct (downloadsAllTime r) as [d|]; simpl; [|done].
    destruct (Z.ltb_spec d 0); simpl; f_equal; lia.
Qed.

(** No negative value survives in [df_subset]. *)
Lemma df_subset_nonnegative df x d :
  x ∈ df_subset df → daily_downloads x = Some d → 0 ≤ d.
Proof.
  intros (y & _ & ->)%elem_of_df_subset. rewrite clamp_fillna_value.
  destruct (match daily_downloads y with Some d => Some d | None => _ end);
    intros [= <-]. lia.
Qed.
End PandasDeltaFacts.

(** ** The PostgreSQL engine *)

Module PostgresFacts.
Import Postgres.

Lemma pg_date_leb_total a b : date_leb a b = true ∨ date_leb b a = true.
Proof.
  unfold date_leb, nulls_last_leb.
  destruct (snapshot_date a), (snapshot_date b); auto. lia.
Qed.

Lemma pg_date_leb_trans a b c :
  date_leb a b = true → date_leb b c = true → date_leb a c = true.
Proof.
  unfold date_leb, nulls_last_leb.
  destruct (snapshot_date a), (snapshot_date b), (snapshot_date c); auto; try done. lia.
Qed.

Lemma pg_date_leb_antisym a b :
  date_leb a b = true → date_leb b a = true → snapshot_date a = snapshot_date b.
Proof.
  unfold date_leb, nulls_last_leb.
  destruct (snapshot_date a), (snapshot_date b); try done. intros. f_equal. lia.
Qed.

Lemma elem_of_daily_diffs t x :
  x ∈ daily_diffs t ↔
  ∃ r prev, (r, prev) ∈ with_lag None (part id date_leb t (id r)) ∧ x = diff_row (r, prev).
Proof.
  unfold daily_diffs. rewrite list_elem_of_In, in_flat_map. split.
  - intros (k & Hk & Hin).
    apply list_elem_of_In, list_elem_of_fmap in Hin as ([r prev] & -> & Hin).
    exists r, prev. split; [|done].
    pose proof (elem_of_lag_part id date_leb t k r prev Hin) as (_ & <- & _). done.
  - intros (r & prev & Hin & ->). exists (id r). split.
    + rewrite <- list_elem_of_In, elem_of_remove_dups. apply list_elem_of_fmap_2.
      by destruct (elem_of_lag_part id date_leb t (id r) r prev Hin).
    + rewrite <- list_elem_of_In. apply list_elem_of_fmap_2. exact Hin.
Qed.

(** The first observation of an entity: [LAG] is null, and the [CASE]
    puts the counter itself in [daily_downloads]. *)
Lemma pg_first_observation_raw t r :
  NoDup (obs_key <$> t) → r ∈ t →
  (∀ q, q ∈ t → id q = id r → date_leb r q = true) →
  (∃ x, x ∈ daily_diffs t ∧ dd_model_id x = id r ∧ dd_snapshot_date x = snapshot_date r)
  ∧ ∀ x, x ∈ daily_diffs t →
         dd_model_id x = id r → dd_snapshot_date x = snapshot_date r →
         dd_daily_downloads x = None
         ∧ cd_daily_downloads (cleaned_row x) = downloads_all_time r.
Proof.
  intros Hnd Hr Hmin. split.
  - destruct (lag_part_total id date_leb t r Hr) as [prev Hin].
    exists (diff_row (r, prev)). split; [|done]. apply elem_of_daily_diffs. eauto.
  - intros x (r' & prev & Hin & ->)%elem_of_daily_diffs Hid Hdate. simpl in *.
    assert (r' = r) as ->.
    { apply (NoDup_fmap_eq obs_key t); [done| |done|unfold obs_key; congruence].
      by destruct (elem_of_lag_part id date_leb t (id r') r' prev Hin). }
    assert (prev = None) as ->.
    { eapply (lag_part_first id snapshot_date date_leb); eauto using pg_date_leb_total,
        pg_date_leb_trans, pg_date_leb_antisym. }
    unfold cleaned_row. simpl. by destruct (downloads_all_time r).
Qed.

(** The [CASE] never lets a negative difference through. *)
Lemma cleaned_row_clamps x d :
  dd_daily_downloads x = Some d →
  cd_daily_downloads (cleaned_row x) = Some (Z.max 0 d).
Proof.
  intros Hd. unfold cleaned_row. simpl. rewrite Hd.
  destruct (Z.ltb_spec d 0); f_equal; lia.
Qed.

Section Collation.
Context (collate : string → string → bool).
Hypothesis collate_total : ∀ a b, collate a b = true ∨ collate b a = true.
Hypothesis collate_trans :
  ∀ a b c, collate a b = true → collate b c = true → collate a c = true.

Lemma opt_string_leb_total (a b : option string) :
  nulls_last_leb collate a b = true ∨ nulls_last_leb collate b a = true.
Proof. destruct a, b; simpl; auto. Qed.

Lemma opt_string_leb_trans (a b c : option string) :
  nulls_last_leb collate a b = true → nulls_last_leb collate b c = true →
  nulls_last_leb collate a c = true.
Proof. destruct a, b, c; simpl; auto; try done. apply collate_trans. Qed.

Lemma opt_Z_leb_total (a b : option Z) :
  nulls_last_leb Z.leb a b = true ∨ nulls_last_leb Z.leb b a = true.
Proof. destruct a, b; simpl; auto. lia. Qed.

Lemma opt_Z_leb_trans (a b c : option Z) :
  nulls_last_leb Z.leb a b = true → nulls_last_leb Z.leb b c = true →
  nulls_last_leb Z.leb a c = true.
Proof. destruct a, b, c; simpl; auto; try done. lia. Qed.

Lemma output_leb_total a b : output_leb collate a b = true ∨ output_leb collate b a = true.
Proof.
  unfold output_leb.
  destruct (opt_string_leb_total (author a) (author b)) as [H1|H1],
    (opt_Z_leb_total (a_snapshot_date a) (a_snapshot_date b)) as [H2|H2];
    rewrite ?H1, ?H2;
    destruct (nulls_last_leb collate (author b) (author a)) eqn:E1,
      (nulls_last_leb collate (author a) (author b)) eqn:E2; simpl; auto;
    rewrite ?H2; auto; try done.
Qed.

Lemma output_leb_trans a b c :
  output_leb collate a b = true → output_leb collate b c = true → output_leb collate a c = true.
Proof.
  unfold output_leb.
  pose proof (opt_string_leb_trans (author a) (author b) (author c)).
  pose proof (opt_string_leb_trans (author b) (author c) (author a)).
  pose proof (opt_string_leb_trans (author c) (author a) (author b)).
  pose proof (opt_string_leb_trans (author c) (author b) (author a)).
  pose proof (opt_Z_leb_trans (a_snapshot_date a) (a_snapshot_date b) (a_snapshot_date c)).
  destruct (nulls_last_leb collate (author a) (author b)),
    (nulls_last_leb collate (author b) (author a)),
    (nulls_last_leb collate (author b) (author c)),
    (nulls_last_leb collate (author c) (author b)),
    (nulls_last_leb collate (author a) (author c)),
    (nulls_last_leb collate (author c) (author a)),
    (nulls_last_leb Z.leb (a_snapshot_date a) (a_snapshot_date b)),
    (nulls_last_leb Z.leb (a_snapshot_date b) (a_snapshot_date c)),
    (nulls_last_leb Z.leb (a_snapshot_date a) (a_snapshot_date c));
    simpl; intros; auto; try done; try (by exfalso; auto).
Qed.

Lemma query_sorted t : StronglySorted (le_of (output_leb collate)) (query collate t).
Proof.
  unfold query, query_groups. apply sort_by_StronglySorted; [apply output_leb_total|apply output_leb_trans].
Qed.
End Collation.
End PostgresFacts.

(** ** The ingestor *)

Section IngestorFacts.
Import Ingestor.
Context {Content : Type} (sha256 : Content → string).
Context (hf_hub_download : string → string → option Content).

Local Abbreviation step := (process_commit sha256 hf_hub_download).
Local Abbreviation run := (foldl (process_commit sha256 hf_hub_download)).

Local Ltac unfold_step :=
  unfold process_commit, try_formats, try_format, output_names in *; simpl in *.

(** A commit only ever touches the files named after it. *)
Lemma step_other_names (st : State) c n :
  n ∉ output_names c → historical_dir (step st c) !! n = historical_dir st !! n.
Proof.
  intros Hn. unfold_step.
  assert (n ≠ output_filename c "parquet" ∧ n ≠ output_filename c "csv") as [??]
    by set_solver.
  repeat case_match; simplify_eq/=; by rewrite ?lookup_insert_ne.
Qed.

(** A stored file is never overwritten. *)
Lemma step_keeps_files (st : State) c n x :
  historical_dir st !! n = Some x → historical_dir (step st c) !! n = Some x.
Proof.
  intros Hn. unfold_step.
  repeat case_match; simplify_eq/=; try done;
    rewrite lookup_insert_ne; congruence.
Qed.

Lemma run_other_names cs (st : State) n :
  n ∉ cs ≫= output_names → historical_dir (run st cs) !! n = historical_dir st !! n.
Proof.
  revert st. induction cs as [|c cs IH]; intros st Hn; simpl; [done|].
  rewrite bind_cons in Hn. rewrite IH by set_solver. apply step_other_names. set_solver.
Qed.

Lemma run_keeps_files cs (st : State) n x :
  historical_dir st !! n = Some x → historical_dir (run st cs) !! n = Some x.
Proof.
  revert st. induction cs as [|c cs IH]; intros st Hn; simpl; [done|].
  by apply IH, step_keeps_files.
Qed.

Local Abbreviation try := (try_format sha256 hf_hub_download).

Lemma try_format_false (st : State) c fmt :
  (try c fmt st).2 = false →
  historical_dir (try c fmt st).1 = historical_dir st
  ∧ seen_hashes (try c fmt st).1 = seen_hashes st
  ∧ downloaded_files (try c fmt st).1 = downloaded_files st
  ∧ successful_downloads (try c fmt st).1 = successful_downloads st.
Proof. unfold try_format. repeat case_match; simpl; done. Qed.

(** One format of one commit in a second run. *)
Lemma try_format_second_run (st1 st2 : State) c fmt :
  historical_dir st2 !! output_filename c fmt
  = historical_dir (try c fmt st1).1 !! output_filename c fmt →
  seen_hashes st1 ⊆ seen_hashes st2 →
  (try c fmt st2).2 = (try c fmt st1).2
  ∧ historical_dir (try c fmt st2).1 = historical_dir st2
  ∧ downloaded_files (try c fmt st2).1 = downloaded_files st2
  ∧ successful_downloads (try c fmt st2).1 = successful_downloads st2
  ∧ seen_hashes (try c fmt st1).1 ⊆ seen_hashes (try c fmt st2).1
  ∧ ∃ new, requested (try c fmt st2).1 = requested st2 ++ new
           ∧ Forall (λ n, historical_dir st2 !! n = None) new.
Proof.
  intros Hdir Hseen. unfold try_format in *.
  destruct (historical_dir st1 !! output_filename c fmt) as [x|] eqn:H1; simpl in *.
  - rewrite Hdir, H1. simpl. split_and!; [done..|set_solver|].
    exists []. by rewrite app_nil_r.
  - destruct (hf_hub_download (commit_id c) (source_filename fmt)) as [cached|];
      simpl in *.
    + destruct (decide (sha256 cached ∈ seen_hashes st1)) as [Hin|Hnotin]; simpl in *.
      * rewrite H1 in Hdir. rewrite Hdir.
        rewrite decide_True by set_solver. simpl.
        split_and!; [done..|]. eexists [_]. split; [done|]. by repeat constructor.
      * rewrite lookup_insert_eq in Hdir. rewrite Hdir. simpl.
        split_and!; [done..|set_solver|]. exists []. by rewrite app_nil_r.
    + rewrite H1 in Hdir. rewrite Hdir. simpl.
      split_and!; [done..|]. eexists [_]. split; [done|]. by repeat constructor.
Qed.

Lemma try_format_other_names (st : State) c fmt n :
  n ≠ output_filename c fmt →
  historical_dir (try c fmt st).1 !! n = historical_dir st !! n.
Proof.
  intros Hn. unfold try_format. repeat case_match; simpl; try done.
  by rewrite lookup_insert_ne.
Qed.

Lemma process_commit_unfold (st : State) c :
  step st c
  = let r := try c "parquet" st in
    if r.2 then r.1
    else let r' := try c "csv" r.1 in
         if r'.2 then r'.1
         else {| historical_dir := historical_dir r'.1;
                 seen_hashes := seen_hashes r'.1;
                 downloaded_files := downloaded_files r'.1;
                 successful_downloads := successful_downloads r'.1;
                 skipped_existing := skipped_existing r'.1;
                 skipped_no_change := skipped_no_change r'.1;
                 skipped_no_file := S (skipped_no_file r'.1);
                 requested := requested r'.1 |}.
Proof.
  unfold process_commit, try_formats.
  destruct (try c "parquet" st) as [st' []]; simpl; [done|].
  destruct (try c "csv" st') as [st'' []]; done.
Qed.

(** One commit of a second run.  [st1] is the state of the first run and
    [st2] that of the second before the commit; the directory of the second
    run agrees, on the names of the commit, with what the first run leaves. *)
Lemma step_second_run (st1 st2 : State) c :
  output_filename c "parquet" ≠ output_filename c "csv" →
  (∀ n, n ∈ output_names c →
        historical_dir st2 !! n = historical_dir (step st1 c) !! n) →
  seen_hashes st1 ⊆ seen_hashes st2 →
  historical_dir (step st2 c) = historical_dir st2
  ∧ downloaded_files (step st2 c) = downloaded_files st2
  ∧ successful_downloads (step st2 c) = successful_downloads st2
  ∧ seen_hashes (step st1 c) ⊆ seen_hashes (step st2 c)
  ∧ ∃ new, requested (step st2 c) = requested st2 ++ new
           ∧ Forall (λ n, historical_dir st2 !! n = None) new.
Proof.
  intros Hne Hdir Hseen.
  pose proof (Hdir (output_filename c "parquet") ltac:(set_solver)) as Hp.
  pose proof (Hdir (output_filename c "csv") ltac:(set_solver)) as Hc.
  clear Hdir. rewrite !process_commit_unfold in *. cbv zeta in *.
  destruct (try c "parquet" st1).2 eqn:Hb1.
  - destruct (try_format_second_run st1 st2 c "parquet" Hp Hseen)
      as (Hb & ? & ? & ? & ? & ?).
    rewrite Hb, Hb1. done.
  - destruct (try_format_false st1 c "parquet" Hb1) as (Hd1 & Hs1 & _).
    assert (historical_dir st2 !! output_filename c "parquet"
            = historical_dir (try c "parquet" st1).1 !! output_filename c "parquet")
      as Hp'.
    { rewrite Hp. destruct (try c "csv" (try c "parquet" st1).1).2;
        simpl; by rewrite try_format_other_names. }
    destruct (try_format_second_run st1 st2 c "parquet" Hp' Hseen)
      as (Hb & Hd2 & Hf2 & Hn2 & Hs2 & new & Hr2 & Hnew).
    rewrite Hb, Hb1.
    assert (historical_dir (try c "parquet" st2).1 !! output_filename c "csv"
            = historical_dir (try c "csv" (try c "parquet" st1).1).1
                !! output_filename c "csv") as Hc'.
    { rewrite Hd2, Hc. by destruct (try c "csv" (try c "parquet" st1).1).2. }
    destruct (try_format_second_run (try c "parquet" st1).1 (try c "parquet" st2).1
                c "csv" Hc' Hs2)
      as (Hb' & Hd3 & Hf3 & Hn3 & Hs3 & new' & Hr3 & Hnew').
    rewrite Hb'. rewrite Hd2 in Hd3, Hnew'.
    destruct (try c "csv" (try c "parquet" st1).1).2; simpl;
      (split_and!; [congruence..|done|]);
      exists (new ++ new'); (split; [by rewrite Hr3, Hr2, app_assoc|by apply Forall_app]).
Qed.

Lemma run_second_run cs (st1 st2 : State) :
  NoDup (cs ≫= output_names) →
  historical_dir st2 = historical_dir (run st1 cs) →
  seen_hashes st1 ⊆ seen_hashes st2 →
  historical_dir (run st2 cs) = historical_dir st2
  ∧ downloaded_files (run st2 cs) = downloaded_files st2
  ∧ successful_downloads (run st2 cs) = successful_downloads st2
  ∧ ∃ new, requested (run st2 cs) = requested st2 ++ new
           ∧ Forall (λ n, historical_dir st2 !! n = None) new.
Proof.
  revert st1 st2. induction cs as [|c cs IH]; intros st1 st2 Hnd Hdir Hseen; simpl.
  { split_and!; [done..|]. exists []. by rewrite app_nil_r. }
  rewrite bind_cons in Hnd. apply NoDup_app in Hnd as (Hc & Hdisj & Hcs).
  simpl in Hdir.
  destruct (step_second_run st1 st2 c) as (Hd & Hf & Hn & Hs & new & Hr & Hnew); [| |done|].
  { unfold output_names in Hc. apply NoDup_cons in Hc as [Hc _]. set_solver. }
  { intros n Hn. rewrite Hdir. by apply run_other_names, Hdisj. }
  destruct (IH (step st1 c) (step st2 c)) as (Hd' & Hf' & Hn' & new' & Hr' & Hnew');
    [done|congruence|done|].
  rewrite Hd in Hd', Hnew'.
  split_and!; [congruence..|].
  exists (new ++ new'). split; [by rewrite Hr', Hr, app_assoc|by apply Forall_app].
Qed.

Lemma try_format_distinct_hashes (st : State) c fmt :
  distinct_hashes sha256 st → distinct_hashes sha256 (try c fmt st).1.
Proof.
  intros [Hseen Hinj]. unfold try_format.
  destruct (historical_dir st !! output_filename c fmt) as [x|] eqn:Hx; simpl.
  { split; simpl; [|done]. intros n y Hy. apply Hseen in Hy. set_solver. }
  destruct (hf_hub_download (commit_id c) (source_filename fmt)) as [cached|]; simpl;
    [|by split].
  destruct (decide (sha256 cached ∈ seen_hashes st)) as [Hin|Hnotin]; simpl; [by split|].
  split; simpl.
  - intros n y. rewrite lookup_insert. case_decide; simplify_eq/=.
    + intros [= <-]. set_solver.
    + intros Hy%Hseen. set_solver.
  - intros n1 n2 x1 x2. rewrite !lookup_insert.
    repeat case_decide; simplify_eq/=; try done.
    + intros [= <-] H2 He. destruct Hnotin. rewrite He. by eapply Hseen.
    + intros H1 [= <-] He. destruct Hnotin. rewrite <- He. by eapply Hseen.
    + apply Hinj.
Qed.

Lemma step_distinct_hashes (st : State) c :
  distinct_hashes sha256 st → distinct_hashes sha256 (step st c).
Proof.
  intros Hst. rewrite process_commit_unfold. cbv zeta.
  pose proof (try_format_distinct_hashes st c "parquet" Hst) as H1.
  pose proof (try_format_distinct_hashes _ c "csv" H1) as H2.
  repeat case_match; done.
Qed.

Lemma run_distinct_hashes cs (st : State) :
  distinct_hashes sha256 st → distinct_hashes sha256 (run st cs).
Proof.
  revert st. induction cs as [|c cs IH]; intros st Hst; simpl; [done|].
  by apply IH, step_distinct_hashes.
Qed.

(** A run that starts from an empty directory stores no content twice. *)
Lemma empty_store_run_distinct_hashes commits :
  distinct_hashes sha256
    (download_historical_models_data sha256 hf_hub_download commits ∅).
Proof.
  apply run_distinct_hashes. split; simpl; intros *; rewrite lookup_empty; done.
Qed.
End IngestorFacts.

Lemma list_filter_sublist {A : Type} (f : A → bool) (l : list A) :
  List.filter f l `sublist_of` l.
Proof.
  induction l as [|x l IH]; simpl; [done|].
  destruct (f x); by constructor.
Qed.

Module PandasFinalFacts.
Import Pandas PandasFacts PandasDeltaFacts.

(** After [fillna] and the clamp, the first observation of an entity
    carries its raw counter (0 when the counter is negative). *)
Lemma pandas_first_observation_raw df r :
  NoDup (obs_key <$> df) → r ∈ df →
  (∀ q, q ∈ df → id q = id r → String.leb (snapshot_date r) (snapshot_date q) = true) →
  (∃ x, x ∈ df_subset df ∧ row x = r)
  ∧ ∀ x, x ∈ df_subset df → obs_key (row x) = obs_key r →
         daily_downloads x = Z.max 0 <$> downloadsAllTime r.
Proof.
  intros Hnd Hr Hmin. destruct (diff_first df r Hnd Hr Hmin) as [Hin Hall]. split.
  - exists (clamp_negative (fillna {| row := r; daily_downloads := None |})).
    split; [|by rewrite clamp_fillna_row].
    apply elem_of_df_subset. eauto.
  - intros x (y & Hy & ->)%elem_of_df_subset Hk. rewrite clamp_fillna_row in Hk.
    rewrite clamp_fillna_value, (Hall y Hy Hk).
    assert (row y = r) as ->; [|done].
    apply (NoDup_fmap_eq obs_key df); [done| |done..].
    apply (elem_of_sort_by id_date_leb). by apply groupby_diff_row.
Qed.

(** After [fillna] and the clamp, a later observation carries the difference
    to the closest earlier observation of the entity, or 0 when that
    difference is negative. *)
Lemma pandas_later_observation_clamped df r p a b :
  NoDup (obs_key <$> df) → r ∈ df → p ∈ df → id p = id r →
  String.ltb (snapshot_date p) (snapshot_date r) = true →
  (∀ q, q ∈ df → id q = id r →
        ¬ (String.ltb (snapshot_date p) (snapshot_date q) = true
           ∧ String.ltb (snapshot_date q) (snapshot_date r) = true)) →
  downloadsAllTime r = Some a → downloadsAllTime p = Some b →
  {| row := r; daily_downloads := Some (Z.max 0 (a - b)) |} ∈ df_subset df
  ∧ ∀ x, x ∈ df_subset df → obs_key (row x) = obs_key r →
         daily_downloads x = Some (Z.max 0 (a - b)).
Proof.
  intros Hnd Hr Hp Hid Hlt Hbetween Ha Hb.
  destruct (diff_from_previous_observation df r p Hnd Hr Hp Hid Hlt Hbetween)
    as [Hin Hall].
  rewrite Ha, Hb in Hin, Hall. simpl in Hin, Hall. split.
  - apply elem_of_df_subset. eexists. split; [exact Hin|].
    unfold clamp_negative, fillna. simpl.
    destruct (Z.ltb_spec (a - b) 0); simpl; do 2 f_equal; lia.
  - intros x (y & Hy & ->)%elem_of_df_subset Hk. rewrite clamp_fillna_row in Hk.
    by rewrite clamp_fillna_value, (Hall y Hy Hk).
Qed.
End PandasFinalFacts.

(** ** What an [ORDER BY] determines *)

Lemma ordered_by_unique {A : Type} (order : A → A → Prop) (rows out1 out2 : list A) :
  (∀ a b, a ∈ rows → b ∈ rows → order a b → order b a → a = b) →
  ordered_by order rows out1 → ordered_by order rows out2 → out1 = out2.
Proof.
  intros Hanti [Hp1 Hs1] [Hp2 Hs2].
  apply (StronglySorted_unique_strong order); [|done|done|by rewrite Hp1, Hp2].
  intros a b Ha Hb. apply Hanti; [by rewrite <- Hp1|by rewrite <- Hp2].
Qed.

Lemma author_daily_downloads_possible dmd :
  DuckDB.possible_author_daily_downloads dmd (DuckDB.author_daily_downloads dmd).
Proof.
  split; [apply sort_by_Permutation|].
  apply DuckDBAggregateFacts.author_daily_downloads_sorted.
Qed.

Lemma nulls_last_leb_antisym {A : Type} (leb : A → A → bool) (a b : option A) :
  (∀ x y, leb x y = true → leb y x = true → x = y) →
  Postgres.nulls_last_leb leb a b = true → Postgres.nulls_last_leb leb b a = true → a = b.
Proof.
  intros Hanti. destruct a, b; simpl; try done. intros ??. f_equal. by apply Hanti.
Qed.

Lemma query_groups_keys_NoDup t :
  NoDup ((λ g, (Postgres.author g, Postgres.a_snapshot_date g)) <$> Postgres.query_groups t).
Proof.
  unfold Postgres.query_groups. cbv zeta. rewrite <- list_fmap_compose.
  generalize (NoDup_remove_dups (Postgres.group_key <$> Postgres.cleaned_diffs t)).
  generalize (remove_dups (Postgres.group_key <$> Postgres.cleaned_diffs t)). intros ks Hks.
  replace (_ <$> ks) with ks; [done|].
  clear Hks. induction ks as [|[a d] ks IH]; [done|].
  rewrite fmap_cons, <- IH. done.
Qed.

Section CollationOrder.
Context (collate : string → string → bool).
Hypothesis collate_total : ∀ a b, collate a b = true ∨ collate b a = true.
Hypothesis collate_trans :
  ∀ a b c, collate a b = true → collate b c = true → collate a c = true.
Hypothesis collate_antisym : ∀ a b, collate a b = true → collate b a = true → a = b.

Lemma pg_output_leb_order a b :
  Postgres.output_leb collate a b = true → Postgres.output_order collate a b.
Proof.
  unfold Postgres.output_leb, Postgres.output_order.
  destruct (Postgres.nulls_last_leb collate (Postgres.author a) (Postgres.author b))
    eqn:Hab,
    (Postgres.nulls_last_leb collate (Postgres.author b) (Postgres.author a)) eqn:Hba;
    simpl; try done.
  - intros Hd. right. split; [|done]. by eapply nulls_last_leb_antisym.
  - intros _. left. split; [done|]. intros Heq. rewrite Heq in Hab. congruence.
Qed.

Lemma pg_output_order_antisym a b :
  Postgres.output_order collate a b → Postgres.output_order collate b a →
  Postgres.author a = Postgres.author b
  ∧ Postgres.a_snapshot_date a = Postgres.a_snapshot_date b.
Proof.
  intros [[Hab Hne]|[Heq Hd]] [[Hba Hne']|[Heq' Hd']]; try done.
  - destruct Hne. by eapply nulls_last_leb_antisym.
  - split; [done|]. eapply nulls_last_leb_antisym; [|done..].
    intros x y ?%Z.leb_le ?%Z.leb_le. lia.
Qed.

Lemma query_ordered t :
  StronglySorted (Postgres.output_order collate) (Postgres.query collate t).
Proof.
  eapply StronglySorted_weaken; [apply pg_output_leb_order|].
  by apply PostgresFacts.query_sorted.
Qed.

Lemma query_possible t : Postgres.possible_query collate t (Postgres.query collate t).
Proof. split; [apply sort_by_Permutation|apply query_ordered]. Qed.

Lemma possible_query_unique t out :
  Postgres.possible_query collate t out → out = Postgres.query collate t.
Proof.
  intros Hout. eapply ordered_by_unique; [|exact Hout|exact (query_possible t)].
  intros a b Ha Hb Hab Hba.
  destruct (pg_output_order_antisym a b Hab Hba) as [Hauthor Hdate].
  eapply (NoDup_fmap_eq _ _ _ _ (query_groups_keys_NoDup t)); [done|done|].
  simpl. by rewrite Hauthor, Hdate.
Qed.
End CollationOrder.

(** * The claims *)

(** Tactics for closed goals on the corpus. *)
Ltac in_list := repeat first [apply list_elem_of_here | apply list_elem_of_further].
Ltac each_of H :=
  repeat (apply elem_of_cons in H as [->|H]); [..|by apply elem_of_nil in H].
Ltac nodup_list := apply (bool_decide_unpack _); vm_compute; exact I.

(** C7. When the input directory holds no file that the glob
    [models-*.parquet] selects, the DuckDB engine and the cleaning step both
    stop with a [ValueError] whose message names the directory; neither
    returns a table. *)
Theorem no_snapshot_files_is_fatal :
  (∀ data_dir listing,
     (∀ f, f ∈ listing → glob_models_parquet (DuckDB.file_name f) = false) →
     DuckDB.process_historical_data data_dir listing
     = inl (ValueError ("No parquet files found in " +:+ data_dir)))
  ∧ (∀ input_dir files,
       (∀ f, f ∈ files → glob_models_parquet (Clean.file_name f) = false) →
       Clean.clean_historical_data input_dir (Some files)
       = inl (ValueError ("No parquet files found in " +:+ input_dir))).
Proof.
  split.
  - apply DuckDBLoadFacts.process_no_files.
  - apply CleanFacts.clean_no_files.
Qed.

Lemma no_snapshot_files_is_fatal_witness :
  DuckDB.process_historical_data "data/raw/historical"
    [ {| DuckDB.file_name := "README.md"; DuckDB.file_table := None |} ]
  = inl (ValueError "No parquet files found in data/raw/historical")
  ∧ Clean.clean_historical_data "data/raw/historical" (Some [Corpus.clean_file "models.csv"])
    = inl (ValueError "No parquet files found in data/raw/historical").
Proof.
  split.
  - apply (proj1 no_snapshot_files_is_fatal "data/raw/historical").
    intros f Hf. each_of Hf. reflexivity.
  - apply (proj2 no_snapshot_files_is_fatal "data/raw/historical").
    intros f Hf. each_of Hf. reflexivity.
Defined.

(** C10 (as amended). The final table of the DuckDB engine is in ascending
    order of [snapshot_date] and, within a date, in descending order of
    [total_daily_downloads]; its [ORDER BY] leaves the order of rows with the
    same date and the same total open, so the order is the same across runs
    only for a table in which no two rows tie.  The final table of the
    PostgreSQL engine is ordered by [author], in the collation of the
    database, and then by [snapshot_date]; no two of its rows have the same
    author and date, so the input and the collation determine its order. *)
Theorem aggregate_output_order :
  (∀ dmd,
     StronglySorted DuckDB.output_order (DuckDB.author_daily_downloads dmd)
     ∧ DuckDB.possible_author_daily_downloads dmd (DuckDB.author_daily_downloads dmd))
  ∧ (∀ dmd out1 out2,
       DuckDB.possible_author_daily_downloads dmd out1 →
       DuckDB.possible_author_daily_downloads dmd out2 →
       NoDup ((λ g, (DuckDB.a_snapshot_date g, DuckDB.total_daily_downloads g)) <$> out1) →
       out1 = out2)
  ∧ (∀ collate t,
       (∀ a b, collate a b = true ∨ collate b a = true) →
       (∀ a b c, collate a b = true → collate b c = true → collate a c = true) →
       (∀ a b, collate a b = true → collate b a = true → a = b) →
       StronglySorted (Postgres.output_order collate)
                      (Postgres.analyze_historical_data collate t)
       ∧ Postgres.possible_query collate t (Postgres.analyze_historical_data collate t)
       ∧ ∀ out, Postgres.possible_query collate t out →
                out = Postgres.analyze_historical_data collate t).
Proof.
  split_and!.
  - intros dmd. split; [|apply author_daily_downloads_possible].
    apply DuckDBAggregateFacts.author_daily_downloads_sorted.
  - intros dmd out1 out2 H1 H2 Hnd.
    eapply ordered_by_unique; [|exact H1|exact H2].
    intros a b Ha Hb Hab Hba. destruct H1 as [Hp1 _]. rewrite <- Hp1 in Ha, Hb.
    eapply (NoDup_fmap_eq _ _ _ _ Hnd); [done|done|].
    unfold DuckDB.output_order in *. simpl. f_equal; lia.
  - intros collate t Htotal Htrans Hanti. unfold Postgres.analyze_historical_data.
    split_and!.
    + by apply query_ordered.
    + by apply query_possible.
    + intros out. by apply possible_query_unique.
Qed.

Lemma aggregate_output_order_witness :
  (∀ out,
     DuckDB.possible_author_daily_downloads (DuckDB.daily_model_downloads Corpus.table) out →
     DuckDB.author_daily_downloads (DuckDB.daily_model_downloads Corpus.table) = out)
  ∧ StronglySorted (Postgres.output_order String.leb)
                   (Postgres.analyze_historical_data String.leb Corpus.pg_table)
  ∧ Postgres.possible_query String.leb Corpus.pg_table
      (Postgres.analyze_historical_data String.leb Corpus.pg_table)
  ∧ ∀ out, Postgres.possible_query String.leb Corpus.pg_table out →
           out = Postgres.analyze_historical_data String.leb Corpus.pg_table.
Proof.
  split.
  - intros out Hout.
    apply (proj1 (proj2 aggregate_output_order)
             (DuckDB.daily_model_downloads Corpus.table)
             (DuckDB.author_daily_downloads (DuckDB.daily_model_downloads Corpus.table))
             out).
    + apply (proj1 aggregate_output_order).
    + exact Hout.
    + nodup_list.
  - apply (proj2 (proj2 aggregate_output_order) String.leb Corpus.pg_table).
    + apply String.leb_total.
    + apply string_leb_trans.
    + apply String.leb_antisym.
Defined.

(** C10, counterexample. On two authors and two dates the PostgreSQL engine,
    here with the bytewise collation, returns both dates of the first author
    before the first date of the second: the table is not in ascending order
    of [snapshot_date].  In the DuckDB engine two authors with the same total
    on one date may come in either order: both tables are allowed by the
    [ORDER BY], so the order is not fixed by the input. *)
Lemma claimed_output_order_fails :
  ((λ g, (Postgres.author g, Postgres.a_snapshot_date g))
     <$> Postgres.analyze_historical_data String.leb Corpus.pg_table
   = [ (Some "acme", Some 20250101); (Some "acme", Some 20250102);
       (Some "zeta", Some 20250101); (Some "zeta", Some 20250102) ]
   ∧ ¬ StronglySorted (λ a b, Postgres.nulls_last_leb Z.leb a b = true)
         (Postgres.a_snapshot_date
            <$> Postgres.analyze_historical_data String.leb Corpus.pg_table))
  ∧ ∃ out1 out2,
      DuckDB.possible_author_daily_downloads Corpus.tie out1
      ∧ DuckDB.possible_author_daily_downloads Corpus.tie out2
      ∧ DuckDB.a_author <$> out1 = ["acme"; "zeta"]
      ∧ DuckDB.a_author <$> out2 = ["zeta"; "acme"].
Proof.
  split.
  - split; [by vm_compute|].
    assert (Postgres.a_snapshot_date
              <$> Postgres.analyze_historical_data String.leb Corpus.pg_table
            = [Some 20250101; Some 20250102; Some 20250101; Some 20250102]) as ->
      by (by vm_compute).
    intros Hs. apply StronglySorted_inv in Hs as [Hs _].
    apply StronglySorted_inv in Hs as [_ Hall].
    apply Forall_inv in Hall. by vm_compute in Hall.
  - exists (DuckDB.author_daily_groups Corpus.tie),
           (reverse (DuckDB.author_daily_groups Corpus.tie)).
    unfold DuckDB.possible_author_daily_downloads, ordered_by.
    assert ((λ g, (DuckDB.a_snapshot_date g, DuckDB.total_daily_downloads g))
              <$> DuckDB.author_daily_groups Corpus.tie
            = [(20250102, 50); (20250102, 50)]) as Hkeys by (by vm_compute).
    assert (DuckDB.a_author <$> DuckDB.author_daily_groups Corpus.tie = ["acme"; "zeta"])
      as Hauthors by (by vm_compute).
    destruct (DuckDB.author_daily_groups Corpus.tie) as [|g1 [|g2 [|g3 gs]]];
      try discriminate Hkeys.
    injection Hkeys as Hd1 Ht1 Hd2 Ht2.
    assert (∀ a b, a ∈ [g1; g2] → b ∈ [g1; g2] → DuckDB.output_order a b) as Hties.
    { intros a b Ha Hb. right. each_of Ha; each_of Hb; lia. }
    split_and!.
    + done.
    + apply SSorted_cons; [apply SSorted_cons; constructor|].
      apply Forall_cons. split; [apply Hties; in_list|constructor].
    + by rewrite reverse_Permutation.
    + change (reverse [g1; g2]) with [g2; g1].
      apply SSorted_cons; [apply SSorted_cons; constructor|].
      apply Forall_cons. split; [apply Hties; in_list|constructor].
    + done.
    + injection Hauthors as H1 H2. change (reverse [g1; g2]) with [g2; g1].
      simpl. by rewrite H1, H2.
Qed.

(** C5 (as amended). In the cleaning step a file selected by the glob whose
    name does not start with [models-], eight digits, [-], at least one
    character of [[a-f0-9]] and [.parquet] stops the run with an exception.
    In the DuckDB engine a file in whose name [models-], eight digits and [-]
    do not occur is left out of the union without an error, as long as the
    glob selects another file: the run is the run without that file. *)
Theorem unmatched_file_names :
  (∀ input_dir files f,
     f ∈ files → glob_models_parquet (Clean.file_name f) = true →
     Clean.match_snapshot_name (Clean.file_name f) = None →
     raised (Clean.clean_historical_data input_dir (Some files)))
  ∧ (∀ data_dir f listing,
       DuckDB.extract_date_from_filename (DuckDB.file_name f) = None →
       glob_sorted DuckDB.file_name listing ≠ [] →
       DuckDB.process_historical_data data_dir (f :: listing)
       = DuckDB.process_historical_data data_dir listing).
Proof.
  split.
  - apply CleanFacts.clean_rejects_mismatch.
  - apply DuckDBLoadFacts.process_skips_undated.
Qed.

Lemma unmatched_file_names_witness :
  raised (Clean.clean_historical_data "data"
            (Some [ Corpus.clean_file "models-20250101-abcdef1.parquet";
                    Corpus.clean_file "models-2025-01-01.parquet" ]))
  ∧ DuckDB.process_historical_data "data" [Corpus.undated; Corpus.day1; Corpus.day2]
    = DuckDB.process_historical_data "data" [Corpus.day1; Corpus.day2].
Proof.
  split.
  - apply (proj1 unmatched_file_names "data" _ (Corpus.clean_file "models-2025-01-01.parquet")).
    + in_list.
    + reflexivity.
    + reflexivity.
  - apply (proj2 unmatched_file_names "data").
    + reflexivity.
    + vm_compute. discriminate.
Defined.

(** C5, counterexample. [models-2025-01-01.parquet] does not follow the
    naming convention, yet the DuckDB engine runs to the end on a directory
    that holds it, with the tables of the directory without it. *)
Lemma duckdb_skips_unmatched_file :
  spec_naming_convention (DuckDB.file_name Corpus.undated) = false
  ∧ glob_models_parquet (DuckDB.file_name Corpus.undated) = true
  ∧ ¬ raised (DuckDB.process_historical_data "data"
                [Corpus.day3; Corpus.undated; Corpus.day1; Corpus.day2])
  ∧ DuckDB.process_historical_data "data"
      [Corpus.day3; Corpus.undated; Corpus.day1; Corpus.day2]
    = inr (DuckDB.run_queries Corpus.table).
Proof.
  split_and!; [reflexivity|reflexivity|by vm_compute|by vm_compute].
Qed.

(** C6 (as amended). A row whose id has no separator is kept by the DuckDB
    engine, with the whole id as its author: it is in [all_snapshots] and has
    a row in [daily_model_downloads]; [extract_author] of the pandas engine
    returns the whole id as well.  The load of the DuckDB engine drops a row
    exactly when its id is null, its counter is null, or its id is empty or
    starts with the separator. *)
Theorem id_without_separator_is_kept :
  (∀ qs t ds f date s n,
     DuckDB.all_snapshots qs = inr t → (ds, f) ∈ qs → cast_date ds = Some date →
     {| DuckDB.pq_id := Some s; DuckDB.pq_downloadsAllTime := Some n |}
       ∈ DuckDB.file_rows f →
     has_slash s = false → s ≠ "" →
     {| DuckDB.snapshot_date := date; DuckDB.id := s; DuckDB.author := s;
        DuckDB.downloadsAllTime := n |} ∈ t
     ∧ ∃ dr, dr ∈ DuckDB.daily_model_downloads t
             ∧ DuckDB.row dr
               = {| DuckDB.snapshot_date := date; DuckDB.id := s; DuckDB.author := s;
                    DuckDB.downloadsAllTime := n |})
  ∧ (∀ s, has_slash s = false → Pandas.extract_author s = s)
  ∧ (∀ date r,
       DuckDB.select_snapshot date r = None ↔
       DuckDB.pq_id r = None ∨ DuckDB.pq_downloadsAllTime r = None
       ∨ ∃ s, DuckDB.pq_id r = Some s ∧ (s = "" ∨ ∃ s', s = String slash s')).
Proof.
  split_and!.
  - intros qs t ds f date s n Ht Hin Hd Hrow Hs Hne.
    assert ({| DuckDB.snapshot_date := date; DuckDB.id := s; DuckDB.author := s;
               DuckDB.downloadsAllTime := n |} ∈ t) as Hx.
    { eapply DuckDBLoadFacts.elem_of_all_snapshots; eauto.
      unfold DuckDB.load_file. apply list_elem_of_omap.
      eexists. split; [exact Hrow|]. by apply DuckDBLoadFacts.select_snapshot_no_slash. }
    split; [done|]. by apply DuckDBFacts.daily_model_downloads_total.
  - intros s Hs. unfold Pandas.extract_author. by rewrite Hs.
  - apply DuckDBLoadFacts.select_snapshot_None.
Qed.

Lemma id_without_separator_is_kept_witness :
  ({| DuckDB.snapshot_date := 20250101; DuckDB.id := "standalone-model";
      DuckDB.author := "standalone-model"; DuckDB.downloadsAllTime := 5 |} ∈ Corpus.table
   ∧ ∃ dr, dr ∈ DuckDB.daily_model_downloads Corpus.table
           ∧ DuckDB.row dr
             = {| DuckDB.snapshot_date := 20250101; DuckDB.id := "standalone-model";
                  DuckDB.author := "standalone-model"; DuckDB.downloadsAllTime := 5 |})
  ∧ Pandas.extract_author "standalone-model" = "standalone-model".
Proof.
  split.
  - apply (proj1 id_without_separator_is_kept
             [("2025-01-01", Corpus.day1); ("2025-01-02", Corpus.day2);
              ("2025-01-03", Corpus.day3)]
             Corpus.table "2025-01-01" Corpus.day1 20250101 "standalone-model" 5).
    + reflexivity.
    + in_list.
    + reflexivity.
    + in_list.
    + reflexivity.
    + discriminate.
  - apply (proj1 (proj2 id_without_separator_is_kept)). reflexivity.
Defined.

(** C6, counterexample. [standalone-model] has no separator; the DuckDB
    engine gives it a delta record on both of its dates and an aggregate row
    under the author [standalone-model]. *)
Lemma standalone_model_is_aggregated :
  has_slash Corpus.standalone = false
  ∧ ∃ out,
      DuckDB.process_historical_data "data" [Corpus.day1; Corpus.day2; Corpus.day3] = inr out
      ∧ {| DuckDB.row := Corpus.snap 20250102 Corpus.standalone Corpus.standalone 9;
           DuckDB.daily_downloads := Some 4 |} ∈ DuckDB.t_daily_model_downloads out
      ∧ {| DuckDB.a_snapshot_date := 20250102; DuckDB.a_author := Corpus.standalone;
           DuckDB.n_models := 1; DuckDB.total_daily_downloads := 4;
           DuckDB.avg_daily_downloads_per_model := 4;
           DuckDB.total_cumulative_downloads := 9 |} ∈ DuckDB.t_author_daily_downloads out.
Proof.
  split; [reflexivity|]. eexists. split; [by vm_compute|]. split; in_list.
Qed.

(** C4 (as amended). In the DuckDB engine [n_models] of an output row is the
    number of distinct ids among the rows of [daily_model_downloads] with the
    date and author of the row whose delta is neither null nor negative: the
    count is taken after the [WHERE] clause, so an entity left out of the sums
    is left out of the count as well. *)
Theorem n_models_counts_rows_with_valid_delta :
  ∀ dmd g,
    g ∈ DuckDB.author_daily_downloads dmd →
    ∃ ids : list string,
      NoDup ids ∧ length ids = DuckDB.n_models g
      ∧ ∀ e, e ∈ ids ↔
             ∃ r, r ∈ dmd ∧ DuckDB.id (DuckDB.row r) = e
                  ∧ DuckDB.snapshot_date (DuckDB.row r) = DuckDB.a_snapshot_date g
                  ∧ DuckDB.author (DuckDB.row r) = DuckDB.a_author g
                  ∧ ∃ d, DuckDB.daily_downloads r = Some d ∧ 0 ≤ d.
Proof. apply DuckDBAggregateFacts.n_models_counts_valid_rows. Qed.

Lemma n_models_counts_rows_with_valid_delta_witness :
  ∃ ids : list string,
    NoDup ids ∧ length ids = 1%nat
    ∧ ∀ e, e ∈ ids ↔
           ∃ r, r ∈ DuckDB.daily_model_downloads Corpus.table
                ∧ DuckDB.id (DuckDB.row r) = e
                ∧ DuckDB.snapshot_date (DuckDB.row r) = 20250103
                ∧ DuckDB.author (DuckDB.row r) = "acme"
                ∧ ∃ d, DuckDB.daily_downloads r = Some d ∧ 0 ≤ d.
Proof.
  apply (n_models_counts_rows_with_valid_delta (DuckDB.daily_model_downloads Corpus.table)
           {| DuckDB.a_snapshot_date := 20250103; DuckDB.a_author := "acme";
              DuckDB.n_models := 1; DuckDB.total_daily_downloads := 4;
              DuckDB.avg_daily_downloads_per_model := 4;
              DuckDB.total_cumulative_downloads := 7 |}).
  vm_compute. in_list.
Defined.

(** C4, counterexample. On the third day two entities of [acme] are in the
    delta table, [acme/model-a] with the delta -20 and [acme/model-b] with 4;
    the aggregate row of that day has [n_models = 1]. *)
Lemma n_models_leaves_out_negative_delta :
  ∃ out g,
    DuckDB.process_historical_data "data" [Corpus.day1; Corpus.day2; Corpus.day3] = inr out
    ∧ g ∈ DuckDB.t_author_daily_downloads out
    ∧ DuckDB.a_snapshot_date g = 20250103 ∧ DuckDB.a_author g = "acme"
    ∧ DuckDB.n_models g = 1%nat
    ∧ (λ r, (DuckDB.id (DuckDB.row r), DuckDB.daily_downloads r))
        <$> filter (λ r, DuckDB.group_key r = (20250103, "acme"))
              (DuckDB.t_daily_model_downloads out)
      = [ ("acme/model-a", Some (-20)); ("acme/model-b", Some 4) ].
Proof.
  eexists. eexists. split; [by vm_compute|].
  split; [apply list_elem_of_further, list_elem_of_further, list_elem_of_here|].
  split_and!; by vm_compute.
Qed.

(** C1 (as amended). When an entity has one row per date, the DuckDB engine
    gives the record of its first observed date a null delta, wherever that
    date falls among the dates of the corpus.  The pandas engine fills that
    record with the raw counter (0 if the counter is negative), and the
    PostgreSQL engine, whose [LAG] is null there as well, replaces the null by
    the raw counter before summing. *)
Theorem first_observation_delta :
  (∀ t r,
     NoDup (DuckDB.obs_key <$> t) → r ∈ t →
     (∀ q, q ∈ t → DuckDB.id q = DuckDB.id r →
           DuckDB.snapshot_date r ≤ DuckDB.snapshot_date q) →
     {| DuckDB.row := r; DuckDB.daily_downloads := None |} ∈ DuckDB.daily_model_downloads t
     ∧ ∀ dr, dr ∈ DuckDB.daily_model_downloads t →
             DuckDB.id (DuckDB.row dr) = DuckDB.id r →
             DuckDB.snapshot_date (DuckDB.row dr) = DuckDB.snapshot_date r →
             DuckDB.daily_downloads dr = None)
  ∧ (∀ df r,
       NoDup (Pandas.obs_key <$> df) → r ∈ df →
       (∀ q, q ∈ df → Pandas.id q = Pandas.id r →
             String.leb (Pandas.snapshot_date r) (Pandas.snapshot_date q) = true) →
       (∃ x, x ∈ Pandas.df_subset df ∧ Pandas.row x = r)
       ∧ ∀ x, x ∈ Pandas.df_subset df → Pandas.obs_key (Pandas.row x) = Pandas.obs_key r →
              Pandas.daily_downloads x = Z.max 0 <$> Pandas.downloadsAllTime r)
  ∧ (∀ t r,
       NoDup (Postgres.obs_key <$> t) → r ∈ t →
       (∀ q, q ∈ t → Postgres.id q = Postgres.id r → Postgres.date_leb r q = true) →
       (∃ x, x ∈ Postgres.daily_diffs t ∧ Postgres.dd_model_id x = Postgres.id r
             ∧ Postgres.dd_snapshot_date x = Postgres.snapshot_date r)
       ∧ ∀ x, x ∈ Postgres.daily_diffs t →
              Postgres.dd_model_id x = Postgres.id r →
              Postgres.dd_snapshot_date x = Postgres.snapshot_date r →
              Postgres.dd_daily_downloads x = None
              ∧ Postgres.cd_daily_downloads (Postgres.cleaned_row x)
                = Postgres.downloads_all_time r).
Proof.
  split_and!.
  - apply DuckDBFacts.first_observation_null.
  - apply PandasFinalFacts.pandas_first_observation_raw.
  - apply PostgresFacts.pg_first_observation_raw.
Qed.

Lemma first_observation_delta_witness :
  {| DuckDB.row := Corpus.snap 20250102 Corpus.model_b "acme" 3;
     DuckDB.daily_downloads := None |} ∈ DuckDB.daily_model_downloads Corpus.table
  ∧ (∃ x, x ∈ Pandas.df_subset Corpus.frame_model_a
          ∧ Pandas.row x = Corpus.frame_row Corpus.model_a 100 "2025-01-01")
  ∧ (∃ x, x ∈ Postgres.daily_diffs Corpus.pg_table
          ∧ Postgres.dd_model_id x = Some "acme/model-a"
          ∧ Postgres.dd_snapshot_date x = Some 20250101).
Proof.
  split_and!.
  - apply (proj1 first_observation_delta Corpus.table
             (Corpus.snap 20250102 Corpus.model_b "acme" 3)).
    + nodup_list.
    + in_list.
    + intros q Hq Hid. each_of Hq; simpl in *; first [lia | discriminate Hid].
  - apply (proj1 (proj2 first_observation_delta) Corpus.frame_model_a
             (Corpus.frame_row Corpus.model_a 100 "2025-01-01")).
    + nodup_list.
    + in_list.
    + intros q Hq Hid. each_of Hq; reflexivity.
  - apply (proj2 (proj2 first_observation_delta) Corpus.pg_table
             (Corpus.pg "acme/model-a" 100 20250101)).
    + nodup_list.
    + in_list.
    + intros q Hq Hid. each_of Hq; first [reflexivity | discriminate Hid].
Defined.

(** C1, counterexample. On the three snapshots of [acme/model-a] the pandas
    engine gives the record of the first date, 2025-01-01, the delta 100, the
    raw counter, and not a null. *)
Lemma pandas_first_observation_gets_raw_counter :
  ∃ out,
    Pandas.analyze_historical_data Corpus.csv_model_a None = inr out
    ∧ {| Pandas.row := Corpus.frame_row Corpus.model_a 100 "2025-01-01";
         Pandas.daily_downloads := Some 100 |} ∈ Pandas.o_df_subset out
    ∧ (λ x, (Pandas.snapshot_date (Pandas.row x), Pandas.daily_downloads x))
        <$> Pandas.o_df_subset out
      = [ ("2025-01-01", Some 100); ("2025-01-02", Some 50); ("2025-01-03", Some 0) ].
Proof.
  eexists. split; [by vm_compute|]. split; [in_list|by vm_compute].
Qed.




(** C2 (as amended). In the DuckDB engine a negative delta stays in
    [daily_model_downloads] as computed, and the aggregation drops the row
    that carries it: the aggregate table is the one computed without the row,
    so the row adds nothing to any sum, average, count or cumulative total.
    In the pandas engine no negative value is left in [df_subset]: where the
    counter of an entity is lower than at its closest earlier observation,
    the record of [df_subset] holds 0.  In the PostgreSQL engine the [CASE]
    turns a negative difference into 0.  Both do so before the sums are
    taken. *)
Theorem negative_delta_policy :
  (∀ t r p,
     NoDup (DuckDB.obs_key <$> t) → r ∈ t → p ∈ t → DuckDB.id p = DuckDB.id r →
     DuckDB.snapshot_date p < DuckDB.snapshot_date r →
     (∀ q, q ∈ t → DuckDB.id q = DuckDB.id r →
           ¬ (DuckDB.snapshot_date p < DuckDB.snapshot_date q < DuckDB.snapshot_date r)) →
     DuckDB.downloadsAllTime r < DuckDB.downloadsAllTime p →
     ∃ d, d < 0 ∧ d = DuckDB.downloadsAllTime r - DuckDB.downloadsAllTime p
          ∧ {| DuckDB.row := r; DuckDB.daily_downloads := Some d |}
              ∈ DuckDB.daily_model_downloads t)
  ∧ (∀ l1 dr l2 d,
       DuckDB.daily_downloads dr = Some d → d < 0 →
       DuckDB.author_daily_downloads (l1 ++ dr :: l2)
       = DuckDB.author_daily_downloads (l1 ++ l2))
  ∧ (∀ df x d,
       x ∈ Pandas.df_subset df → Pandas.daily_downloads x = Some d → 0 ≤ d)
  ∧ (∀ df r p a b,
       NoDup (Pandas.obs_key <$> df) → r ∈ df → p ∈ df → Pandas.id p = Pandas.id r →
       String.ltb (Pandas.snapshot_date p) (Pandas.snapshot_date r) = true →
       (∀ q, q ∈ df → Pandas.id q = Pandas.id r →
             ¬ (String.ltb (Pandas.snapshot_date p) (Pandas.snapshot_date q) = true
                ∧ String.ltb (Pandas.snapshot_date q) (Pandas.snapshot_date r) = true)) →
       Pandas.downloadsAllTime r = Some a → Pandas.downloadsAllTime p = Some b →
       a < b →
       {| Pandas.row := r; Pandas.daily_downloads := Some 0 |} ∈ Pandas.df_subset df
       ∧ ∀ x, x ∈ Pandas.df_subset df →
              Pandas.obs_key (Pandas.row x) = Pandas.obs_key r →
              Pandas.daily_downloads x = Some 0)
  ∧ (∀ x d,
       Postgres.dd_daily_downloads x = Some d → d < 0 →
       Postgres.cd_daily_downloads (Postgres.cleaned_row x) = Some 0).
Proof.
  split_and!.
  - intros t r p Hnd Hr Hp Hid Hlt Hbetween Hneg.
    exists (DuckDB.downloadsAllTime r - DuckDB.downloadsAllTime p).
    split_and!; [lia|done|].
    by apply DuckDBFacts.delta_from_previous_observation.
  - intros l1 dr l2 d Hd Hneg. apply DuckDBAggregateFacts.author_daily_downloads_drop.
    unfold DuckDB.valid_delta. rewrite Hd. lia.
  - apply PandasDeltaFacts.df_subset_nonnegative.
  - intros df r p a b Hnd Hr Hp Hid Hlt Hbetween Ha Hb Hneg.
    replace 0 with (Z.max 0 (a - b)) by lia.
    by apply (PandasFinalFacts.pandas_later_observation_clamped df r p).
  - intros x d Hd Hneg. rewrite (PostgresFacts.cleaned_row_clamps x d Hd). f_equal. lia.
Qed.

Lemma negative_delta_policy_witness :
  (∃ d, d < 0 ∧ d = 130 - 150
        ∧ {| DuckDB.row := Corpus.snap 20250103 Corpus.model_a "acme" 130;
             DuckDB.daily_downloads := Some d |}
            ∈ DuckDB.daily_model_downloads Corpus.table)
  ∧ DuckDB.author_daily_downloads
      ([] ++ [ {| DuckDB.row := Corpus.snap 20250103 Corpus.model_a "acme" 130;
                  DuckDB.daily_downloads := Some (-20) |} ])
    = DuckDB.author_daily_downloads ([] ++ [])
  ∧ 0 ≤ 50
  ∧ {| Pandas.row := Corpus.frame_row Corpus.model_a 130 "2025-01-03";
       Pandas.daily_downloads := Some 0 |} ∈ Pandas.df_subset Corpus.frame_model_a
  ∧ Postgres.cd_daily_downloads
      (Postgres.cleaned_row
         (Postgres.diff_row (Corpus.pg "acme/model-a" 130 20250103,
                             Some (Corpus.pg "acme/model-a" 150 20250102))))
    = Some 0.
Proof.
  split_and!.
  - apply (proj1 negative_delta_policy Corpus.table
             (Corpus.snap 20250103 Corpus.model_a "acme" 130)
             (Corpus.snap 20250102 Corpus.model_a "acme" 150)).
    + nodup_list.
    + in_list.
    + in_list.
    + reflexivity.
    + simpl. lia.
    + intros q Hq Hid. each_of Hq; simpl; lia.
    + simpl. lia.
  - apply (proj1 (proj2 negative_delta_policy) [] _ [] (-20)).
    + reflexivity.
    + lia.
  - apply (proj1 (proj2 (proj2 negative_delta_policy)) Corpus.frame_model_a
             {| Pandas.row := Corpus.frame_row Corpus.model_a 150 "2025-01-02";
                Pandas.daily_downloads := Some 50 |} 50).
    + vm_compute. in_list.
    + reflexivity.
  - apply (proj1 (proj2 (proj2 (proj2 negative_delta_policy))) Corpus.frame_model_a
             (Corpus.frame_row Corpus.model_a 130 "2025-01-03")
             (Corpus.frame_row Corpus.model_a 150 "2025-01-02") 130 150).
    + nodup_list.
    + in_list.
    + in_list.
    + reflexivity.
    + reflexivity.
    + intros q Hq Hid. each_of Hq; vm_compute; intros [??]; discriminate.
    + reflexivity.
    + reflexivity.
    + lia.
  - apply (proj2 (proj2 (proj2 (proj2 negative_delta_policy))) _ (-20)).
    + reflexivity.
    + lia.
Defined.

(** C2, counterexample. The counter of [acme/model-a] falls from 150 to 130
    on 2025-01-03; the per-entity record of the pandas engine for that date
    holds 0, not -20, and the sum of the author on that date is 0. *)
Lemma pandas_clamps_negative_delta :
  ∃ out,
    Pandas.analyze_historical_data Corpus.csv_model_a None = inr out
    ∧ {| Pandas.row := Corpus.frame_row Corpus.model_a 130 "2025-01-03";
         Pandas.daily_downloads := Some 0 |} ∈ Pandas.o_df_subset out
    ∧ ¬ ({| Pandas.row := Corpus.frame_row Corpus.model_a 130 "2025-01-03";
            Pandas.daily_downloads := Some (-20) |} ∈ Pandas.o_df_subset out)
    ∧ {| Pandas.a_author := "acme"; Pandas.a_snapshot_date := "2025-01-03";
         Pandas.total_daily_downloads := 0 |} ∈ Pandas.o_author_daily out.
Proof.
  eexists. split; [by vm_compute|]. split_and!; [in_list| |in_list].
  intros Hin. simpl in Hin.
  repeat (apply elem_of_cons in Hin as [Heq|Hin]; [discriminate Heq|]).
  by apply elem_of_nil in Hin.
Qed.

(** C9. A second run of the ingestor on the same commits, against the same
    remote files and the directory left by the first run, stores no new file
    and leaves the directory as it is, whatever the directory the first run
    started from; every download it requests is for an output name that is
    not on disk.  The output names of the commits are taken to be pairwise
    distinct. *)
Theorem second_run_stores_nothing :
  ∀ {Content : Type} (sha256 : Content → string)
    (hf_hub_download : string → string → option Content)
    (commits : list Ingestor.CommitInfo) (dir : gmap string Content),
    NoDup (commits ≫= Ingestor.output_names) →
    let first := Ingestor.download_historical_models_data sha256 hf_hub_download commits dir in
    let second :=
      Ingestor.download_historical_models_data sha256 hf_hub_download commits
        (Ingestor.historical_dir first) in
    Ingestor.downloaded_files second = []
    ∧ Ingestor.successful_downloads second = 0%nat
    ∧ Ingestor.historical_dir second = Ingestor.historical_dir first
    ∧ Forall (λ n, Ingestor.historical_dir first !! n = None) (Ingestor.requested second).
Proof.
  intros Content sha256 hf commits dir Hnd first second.
  assert (NoDup (List.filter Ingestor.relevant commits ≫= Ingestor.output_names)) as Hnd'.
  { eapply sublist_NoDup; [exact Hnd|]. apply bind_sublist, list_filter_sublist. }
  destruct (run_second_run sha256 hf (List.filter Ingestor.relevant commits)
              (Ingestor.initial dir) (Ingestor.initial (Ingestor.historical_dir first)))
    as (Hd & Hf & Hn & new & Hr & Hnew); [done|done|done|].
  unfold second, Ingestor.download_historical_models_data.
  split_and!; [done..|]. rewrite Hr. simpl. exact Hnew.
Qed.

Lemma second_run_stores_nothing_witness :
  Ingestor.downloaded_files Corpus.second_run = []
  ∧ Ingestor.successful_downloads Corpus.second_run = 0%nat
  ∧ Ingestor.historical_dir Corpus.second_run = Ingestor.historical_dir Corpus.first_run
  ∧ Forall (λ n, Ingestor.historical_dir Corpus.first_run !! n = None)
           (Ingestor.requested Corpus.second_run).
Proof.
  apply (second_run_stores_nothing Corpus.digest Corpus.hub
           [Corpus.commit_new; Corpus.commit_old] ∅).
  nodup_list.
Defined.

(** C8, the code at the failing input.  The directory holds the file of an
    older commit; a newer commit with the same bytes is listed first.  The
    run stores the newer commit too, so the directory ends with two files of
    one content, whatever the hash function. *)
Theorem newer_commit_with_stored_content_is_stored_again :
  ∀ sha256 : string → string,
    let st :=
      Ingestor.download_historical_models_data sha256 Corpus.hub
        [Corpus.commit_new; Corpus.commit_old] Corpus.dir_after_old in
    Ingestor.downloaded_files st = ["models-20250103-aaaaaaa.parquet"]
    ∧ Ingestor.historical_dir st !! "models-20250103-aaaaaaa.parquet" = Some Corpus.content_x
    ∧ Ingestor.historical_dir st !! "models-20250102-bbbbbbb.parquet" = Some Corpus.content_x
    ∧ ¬ Ingestor.distinct_hashes sha256 st.
Proof.
  intros sha256 st.
  assert (Ingestor.downloaded_files st = ["models-20250103-aaaaaaa.parquet"]
          ∧ Ingestor.historical_dir st !! "models-20250103-aaaaaaa.parquet"
            = Some Corpus.content_x
          ∧ Ingestor.historical_dir st !! "models-20250102-bbbbbbb.parquet"
            = Some Corpus.content_x) as (Hf & Hnew & Hold).
  { split_and!; by vm_compute. }
  split_and!; [done..|]. intros [_ Hinj].
  by specialize (Hinj _ _ _ _ Hnew Hold eq_refl).
Qed.

(** * Further properties of the code *)

(** ** Grouping and sums *)

Section GroupFacts.
Context {A K : Type} `{!EqDecision K} (key : A → K).

(** The groups of the distinct keys are a partition of the rows. *)
Lemma groups_Permutation (ks : list K) (l : list A) :
  NoDup ks → (∀ x, x ∈ l → key x ∈ ks) →
  concat ((λ k, filter (λ r, key r = k) l) <$> ks) ≡ₚ l.
Proof.
  intros Hnd. revert l. induction Hnd as [|k ks Hk Hnd IH]; intros l Hl; simpl.
  { destruct l as [|x l]; [done|]. by destruct (not_elem_of_nil (key x)); apply Hl; left. }
  transitivity (filter (λ r, key r = k) l ++ filter (λ r, ¬ key r = k) l);
    [|apply filter_app_complement].
  f_equiv. etrans; [|apply (IH (filter (λ r, ¬ key r = k) l))].
  - apply reflexive_eq. f_equal. apply list_fmap_ext. intros i k' Hk'.
    apply list_elem_of_lookup_2 in Hk'.
    rewrite list_filter_filter. apply list_filter_iff. intros r. split; [|tauto].
    intros ->. split; [done|]. by intros ->.
  - intros x [Hx Hin]%list_elem_of_filter. apply Hl in Hin.
    apply elem_of_cons in Hin as [?|?]; [done|done].
Qed.

Lemma groups_of_keys_Permutation (l : list A) :
  concat ((λ k, filter (λ r, key r = k) l) <$> remove_dups (key <$> l)) ≡ₚ l.
Proof.
  apply groups_Permutation; [apply NoDup_remove_dups|].
  intros x Hx. apply elem_of_remove_dups. by apply list_elem_of_fmap_2.
Qed.
End GroupFacts.

Lemma sum_list_app l1 l2 : sum_list (l1 ++ l2) = sum_list l1 + sum_list l2.
Proof. induction l1 as [|x l1 IH]; simpl; [done|]. rewrite IH. lia. Qed.

Lemma sum_list_Permutation l1 l2 : l1 ≡ₚ l2 → sum_list l1 = sum_list l2.
Proof. induction 1; simpl; lia. Qed.

Lemma sum_list_concat ls : sum_list (concat ls) = sum_list (sum_list <$> ls).
Proof. induction ls as [|l ls IH]; simpl; [done|]. by rewrite sum_list_app, IH. Qed.

Lemma sum_list_nonneg l : Forall (λ x, 0 ≤ x) l → 0 ≤ sum_list l.
Proof. induction 1; simpl; lia. Qed.

Lemma non_null_concat {A : Type} (ls : list (list (option A))) :
  non_null (concat ls) = concat (non_null <$> ls).
Proof.
  unfold non_null. induction ls as [|l ls IH]; csimpl; [done|].
  by rewrite omap_app, IH.
Qed.

Lemma omap_all_None {A B : Type} (f : A → option B) (l : list A) :
  (∀ x, x ∈ l → f x = None) → omap f l = [].
Proof.
  induction l as [|x l IH]; intros Hl; csimpl; [done|].
  rewrite (Hl x) by left. apply IH. intros y Hy. apply Hl. by right.
Qed.

Section GroupSumFacts.
Context {A K : Type} `{!EqDecision K} (key : A → K).

(** A quantity that adds up over rows adds up over the groups. *)
Lemma additive_over_groups (w : list A → Z) (l : list A) :
  w [] = 0 → (∀ l1 l2, w (l1 ++ l2) = w l1 + w l2) →
  (∀ l1 l2, l1 ≡ₚ l2 → w l1 = w l2) →
  sum_list ((λ k, w (filter (λ r, key r = k) l)) <$> remove_dups (key <$> l)) = w l.
Proof.
  intros Hnil Happ Hperm.
  rewrite <- (Hperm _ _ (groups_of_keys_Permutation key l)).
  generalize (remove_dups (key <$> l)). intros ks.
  induction ks as [|k ks IH]; [done|].
  rewrite !fmap_cons. cbn [concat]. rewrite Happ, <- IH. done.
Qed.

Lemma sum_known_over_groups (f : A → option Z) (l : list A) :
  sum_list ((λ k, sum_list (non_null (f <$> filter (λ r, key r = k) l)))
              <$> remove_dups (key <$> l))
  = sum_list (non_null (f <$> l)).
Proof.
  apply (additive_over_groups (λ g, sum_list (non_null (f <$> g)))); [done| |].
  - intros l1 l2. unfold non_null. by rewrite fmap_app, omap_app, sum_list_app.
  - intros l1 l2 Hl. apply sum_list_Permutation. unfold non_null. by rewrite Hl.
Qed.

Lemma sum_over_groups (f : A → Z) (l : list A) :
  sum_list ((λ k, sum_list (f <$> filter (λ r, key r = k) l))
              <$> remove_dups (key <$> l))
  = sum_list (f <$> l).
Proof.
  apply (additive_over_groups (λ g, sum_list (f <$> g))); [done| |].
  - intros l1 l2. by rewrite fmap_app, sum_list_app.
  - intros l1 l2 Hl. apply sum_list_Permutation. by rewrite Hl.
Qed.
End GroupSumFacts.

(** ** The DuckDB engine: the delta table and the aggregates as a whole *)

Module DuckDBTableFacts.
Import DuckDB.

Lemma rows_of_partitions t ks :
  row <$> flat_map (λ k, delta_row <$> with_lag None (partition_of t k)) ks
  ≡ₚ concat ((λ k, filter (λ r, id r = k) t) <$> ks).
Proof.
  induction ks as [|k ks IH]; simpl; [done|].
  rewrite fmap_app, IH. f_equiv; [|done].
  rewrite <- list_fmap_compose.
  change (row ∘ delta_row) with (@fst Snapshot (option Snapshot)).
  rewrite with_lag_fst. unfold partition_of. apply sort_by_Permutation.
Qed.

(** X1. Every loaded row has exactly one row in [daily_model_downloads]. *)
Lemma daily_model_downloads_rows t : row <$> daily_model_downloads t ≡ₚ t.
Proof.
  unfold daily_model_downloads. rewrite sort_by_Permutation, rows_of_partitions.
  apply groups_of_keys_Permutation.
Qed.

(** X2. A delta is taken against a row of the same entity that is not later. *)
Lemma delta_against_earlier_row t dr d :
  dr ∈ daily_model_downloads t → daily_downloads dr = Some d →
  ∃ p, p ∈ t ∧ id p = id (row dr)
       ∧ snapshot_date p ≤ snapshot_date (row dr)
       ∧ d = downloadsAllTime (row dr) - downloadsAllTime p.
Proof.
  intros (r & prev & Hin & ->)%DuckDBFacts.elem_of_daily_model_downloads Hd. simpl in *.
  destruct prev as [p|]; simplify_eq/=. exists p.
  destruct (elem_of_lag_part id date_leb t (id r) r (Some p) Hin) as (_ & _ & Hp).
  destruct (Hp p eq_refl) as [? ?]. split_and!; [done..| |done].
  apply list_elem_of_lookup in Hin as [i Hi]. rewrite with_lag_lookup in Hi.
  destruct (part id date_leb t (id r) !! i) as [r'|] eqn:Hr; simplify_eq/=.
  destruct i as [|j]; simplify_eq/=.
  assert (le_of date_leb p r) as Hle.
  { eapply (StronglySorted_lookup_lt (le_of date_leb) _ j (S j)); eauto.
    apply sort_by_StronglySorted;
      [apply DuckDBFacts.date_leb_total|apply DuckDBFacts.date_leb_trans]. }
  unfold le_of, date_leb in Hle. lia.
Qed.

Lemma aggregate_key k g :
  (a_snapshot_date (aggregate k g), a_author (aggregate k g)) = k.
Proof. by destruct k. Qed.

(** The output has one row for each date and author. *)
Lemma author_daily_downloads_keys_NoDup dmd :
  NoDup ((λ g, (a_snapshot_date g, a_author g)) <$> author_daily_downloads dmd).
Proof.
  unfold author_daily_downloads, author_daily_groups. rewrite sort_by_Permutation, <- list_fmap_compose.
  erewrite list_fmap_ext; [|intros i k _; apply aggregate_key].
  rewrite list_fmap_id. apply NoDup_remove_dups.
Qed.

(** X3. The totals of the output add up to the sum of the deltas that pass the
    [WHERE] clause, and the cumulative totals to the sum of their counters. *)
Lemma author_daily_downloads_conserves dmd :
  sum_list (total_daily_downloads <$> author_daily_downloads dmd)
  = sum_list (non_null (daily_downloads <$> List.filter valid_delta dmd))
  ∧ sum_list (total_cumulative_downloads <$> author_daily_downloads dmd)
    = sum_list ((λ r, downloadsAllTime (row r)) <$> List.filter valid_delta dmd).
Proof.
  unfold author_daily_downloads, author_daily_groups. set (rows := List.filter valid_delta dmd).
  split.
  - rewrite (sum_list_Permutation _ _
               (fmap_Permutation _ _ _ (sort_by_Permutation output_leb _))).
    rewrite <- list_fmap_compose.
    apply (sum_known_over_groups group_key daily_downloads rows).
  - rewrite (sum_list_Permutation _ _
               (fmap_Permutation _ _ _ (sort_by_Permutation output_leb _))).
    rewrite <- list_fmap_compose.
    apply (sum_over_groups group_key (λ r, downloadsAllTime (row r)) rows).
Qed.

(** X4. An output row stands for at least one entity, and its total is not
    negative. *)
Lemma author_daily_downloads_row_bounds dmd g :
  g ∈ author_daily_downloads dmd →
  0 ≤ total_daily_downloads g ∧ (1 ≤ n_models g)%nat.
Proof.
  intros (k & Hk & ->)%DuckDBAggregateFacts.elem_of_author_daily_downloads. simpl.
  split.
  - apply sum_list_nonneg, Forall_forall. intros d Hd.
    unfold non_null in Hd. apply list_elem_of_omap in Hd as (o & Ho & Hd).
    apply list_elem_of_fmap in Ho as (r & Hr & Hin).
    apply list_elem_of_filter in Hin as [_ Hin].
    apply DuckDBAggregateFacts.elem_of_valid_rows in Hin as [_ Hv].
    apply DuckDBAggregateFacts.valid_delta_spec in Hv as (d' & Hd' & ?).
    simpl in Hd. congruence.
  - apply list_elem_of_fmap in Hk as (r & -> & Hr).
    assert (id (row r) ∈ remove_dups ((λ r0, id (row r0))
              <$> filter (λ r', group_key r' = group_key r)
                    (List.filter valid_delta dmd))) as Hin.
    { apply elem_of_remove_dups. apply (list_elem_of_fmap_2 (λ r0, id (row r0))).
      by apply list_elem_of_filter. }
    destruct (remove_dups _) as [|??]; [by apply elem_of_nil in Hin|simpl; lia].
Qed.

(** X5. When the glob selects files but none of their names holds a date, the
    run stops before any query. *)
Lemma process_no_dated_files data_dir listing :
  glob_sorted file_name listing ≠ [] →
  (∀ f, f ∈ listing → glob_models_parquet (file_name f) = true →
        extract_date_from_filename (file_name f) = None) →
  process_historical_data data_dir listing
  = inl (ValueError "No valid dates extracted from filenames").
Proof.
  intros Hne Hnone. unfold process_historical_data.
  assert (union_queries (glob_sorted file_name listing) = []) as Hq.
  { unfold union_queries. apply omap_all_None.
    intros f [Hf Hg]%elem_of_glob_sorted. by rewrite Hnone. }
  destruct (glob_sorted file_name listing) as [|f fs]; [done|].
  by rewrite Hq.
Qed.
End DuckDBTableFacts.

(** ** The pandas engine: the frame and the sums as a whole *)

Module PandasTableFacts.
Import Pandas PandasFacts PandasDeltaFacts.

Lemma extract_author_split_part s : extract_author s = split_part_1 s.
Proof.
  unfold extract_author. destruct (has_slash s) eqn:Hs; [done|].
  by rewrite split_part_1_no_slash.
Qed.

Lemma split_part_1_has_no_slash s : has_slash (split_part_1 s) = false.
Proof.
  induction s as [|c s IH]; simpl; [done|].
  destruct (Ascii.eqb c slash) eqn:Hc; simpl; [done|]. by rewrite Hc.
Qed.

(** X6. [extract_author] is [SPLIT_PART(id, '/', 1)] on every id; an author
    never holds a separator, and extracting twice changes nothing. *)
Lemma extract_author_is_first_part s :
  extract_author s = split_part_1 s
  ∧ has_slash (extract_author s) = false
  ∧ extract_author (extract_author s) = extract_author s.
Proof.
  rewrite !extract_author_split_part. split_and!; [done|apply split_part_1_has_no_slash|].
  apply split_part_1_no_slash, split_part_1_has_no_slash.
Qed.

Lemma groupby_diff_rows seen df : row <$> groupby_diff seen df = df.
Proof.
  revert seen. induction df as [|r df IH]; intros seen; simpl; [done|]. by rewrite IH.
Qed.

Lemma df_subset_rows df : row <$> df_subset df ≡ₚ df.
Proof.
  unfold df_subset. rewrite <- !list_fmap_compose.
  erewrite list_fmap_ext; [|intros i x _; apply (clamp_fillna_row x)].
  rewrite groupby_diff_rows. apply sort_by_Permutation.
Qed.

(** X7. [df_subset] keeps every row of the frame, once. *)
Lemma df_subset_keeps_every_row df : row <$> df_subset df ≡ₚ df.
Proof. apply df_subset_rows. Qed.

Lemma author_daily_keys sub :
  (λ g, (a_author g, a_snapshot_date g)) <$> author_daily sub
  = sort_by key_leb (remove_dups (group_key <$> sub)).
Proof.
  unfold author_daily. rewrite <- list_fmap_compose.
  erewrite list_fmap_ext; [apply list_fmap_id|]. intros i [a d] _. done.
Qed.

(** X8. The output has a row for every pair of author and date that
    occurs in [df_subset] and for no other pair, one row for each, in
    ascending order of author and then date. *)
Lemma author_daily_keys_sorted sub :
  (∀ k, k ∈ (λ g, (a_author g, a_snapshot_date g)) <$> author_daily sub
        ↔ ∃ x, x ∈ sub ∧ (author (row x), snapshot_date (row x)) = k)
  ∧ NoDup ((λ g, (a_author g, a_snapshot_date g)) <$> author_daily sub)
  ∧ StronglySorted
      (λ a b : string * string,
         (String.leb a.1 b.1 = true ∧ a.1 ≠ b.1)
         ∨ (a.1 = b.1 ∧ String.leb a.2 b.2 = true))
      ((λ g, (a_author g, a_snapshot_date g)) <$> author_daily sub).
Proof.
  rewrite author_daily_keys. split_and!.
  - intros k. rewrite elem_of_sort_by, elem_of_remove_dups, list_elem_of_fmap.
    unfold group_key. naive_solver.
  - rewrite sort_by_Permutation. apply NoDup_remove_dups.
  - eapply StronglySorted_weaken; [intros a b; apply lex_leb_spec|].
    apply (sort_by_StronglySorted lex_leb); [apply lex_leb_total|apply lex_leb_trans].
Qed.

(** X9. The totals of the output add up to the sum of the values of
    [daily_downloads] that are known. *)
Lemma author_daily_conserves sub :
  sum_list (total_daily_downloads <$> author_daily sub)
  = sum_list (non_null (daily_downloads <$> sub)).
Proof.
  unfold author_daily. rewrite <- list_fmap_compose.
  rewrite (sum_list_Permutation _ _
             (fmap_Permutation _ _ _ (sort_by_Permutation key_leb _))).
  apply (sum_known_over_groups group_key daily_downloads sub).
Qed.

(** X10. No total of the pandas engine is negative. *)
Lemma author_daily_nonnegative df g :
  g ∈ author_daily (df_subset df) → 0 ≤ total_daily_downloads g.
Proof.
  unfold author_daily. intros (k & -> & _)%list_elem_of_fmap. simpl.
  apply sum_list_nonneg, Forall_forall. intros d Hd.
  unfold non_null in Hd. apply list_elem_of_omap in Hd as (o & Ho & Hd).
  apply list_elem_of_fmap in Ho as (x & -> & [_ Hx]%list_elem_of_filter).
  by eapply df_subset_nonnegative.
Qed.

Lemma add_author_raises df :
  (∃ e, add_author df = inl e) ↔ ∃ r, r ∈ df ∧ csv_id r = None.
Proof.
  induction df as [|r df IH]; simpl.
  - split; [by intros [? ?]|]. by intros (? & ?%elem_of_nil & _).
  - destruct (csv_id r) as [i|] eqn:Hi.
    + destruct (add_author df) as [e|rows].
      * split; [|eauto]. intros _. destruct (proj1 IH) as (r' & ? & ?); [eauto|].
        exists r'. split; [by right|done].
      * split; [by intros [? ?]|]. intros (r' & [->|Hr']%elem_of_cons & Hnone).
        -- congruence.
        -- destruct (proj2 IH) as [? ?]; [eauto|done].
    + split; [|eauto]. intros _. exists r. split; [left|done].
Qed.

Lemma add_author_length df rows :
  add_author df = inr rows → length rows = length df.
Proof.
  revert rows. induction df as [|r df IH]; intros rows Hrows; simpl in Hrows.
  - by simplify_eq.
  - destruct (csv_id r); [|done].
    destruct (add_author df) as [|rows']; [done|]. simplify_eq/=. f_equal. by apply IH.
Qed.

(** X11. The analysis raises exactly when a row that is read has no id or
    no row is read at all; it has written its output unless an id is
    missing, so also when no row is read; and when it returns, what it has
    written is [author_daily] and [df_subset] has one record for each row
    read. *)
Lemma analyze_raises_on_missing_id csv limit :
  ((∃ e, analyze_historical_data csv limit = inl e) ↔
   (∃ r, r ∈ read_csv csv limit ∧ csv_id r = None) ∨ read_csv csv limit = [])
  ∧ (is_Some (written_output csv limit) ↔
     ¬ ∃ r, r ∈ read_csv csv limit ∧ csv_id r = None)
  ∧ ∀ out, analyze_historical_data csv limit = inr out →
           written_output csv limit = Some (o_author_daily out)
           ∧ length (o_df_subset out) = length (read_csv csv limit).
Proof.
  unfold analyze_historical_data, written_output.
  pose proof (add_author_raises (read_csv csv limit)) as Hraises.
  destruct (add_author (read_csv csv limit)) as [e|df] eqn:Hdf.
  - assert (∃ r, r ∈ read_csv csv limit ∧ csv_id r = None) as Hmissing
      by (apply Hraises; eauto).
    split_and!.
    + split; [by left|eauto].
    + split; [by intros [? ?]|done].
    + done.
  - assert (¬ ∃ r, r ∈ read_csv csv limit ∧ csv_id r = None) as Hnone.
    { intros [e He]%Hraises. done. }
    pose proof (add_author_length _ _ Hdf) as Hlen.
    split_and!.
    + destruct df as [|r df].
      * split; [|eauto]. intros _. right. by apply nil_length_inv.
      * split; [by intros [? ?]|]. intros [?|Hnil]; [done|]. by rewrite Hnil in Hlen.
    + split; [done|eauto].
    + intros out Hout. destruct df as [|r df]; [done|]. simplify_eq/=. split; [done|].
      rewrite <- Hlen. change (S (length df)) with (length (r :: df)).
      by rewrite <- (length_fmap row (df_subset (r :: df))), df_subset_rows.
Qed.
End PandasTableFacts.

(** ** The PostgreSQL engine: the query as a whole *)

Module PostgresTableFacts.
Import Postgres.

Lemma diffs_of_partitions t ks :
  (λ x, (dd_model_id x, dd_snapshot_date x, dd_downloads_all_time x))
    <$> flat_map (λ k, diff_row <$> with_lag None (partition_of t k)) ks
  ≡ₚ (λ r, (id r, snapshot_date r, downloads_all_time r))
       <$> concat ((λ k, filter (λ r, id r = k) t) <$> ks).
Proof.
  induction ks as [|k ks IH]; simpl; [done|].
  rewrite !fmap_app, IH. f_equiv; [|done].
  rewrite <- list_fmap_compose.
  change ((λ x, (dd_model_id x, dd_snapshot_date x, dd_downloads_all_time x)) ∘ diff_row)
    with ((λ r, (id r, snapshot_date r, downloads_all_time r))
            ∘ (@fst ModelDownloads (option ModelDownloads))).
  rewrite list_fmap_compose, with_lag_fst. unfold partition_of.
  by rewrite sort_by_Permutation.
Qed.

Lemma daily_diffs_rows t :
  (λ x, (dd_model_id x, dd_snapshot_date x, dd_downloads_all_time x)) <$> daily_diffs t
  ≡ₚ (λ r, (id r, snapshot_date r, downloads_all_time r)) <$> t.
Proof.
  unfold daily_diffs. rewrite diffs_of_partitions.
  by rewrite groups_of_keys_Permutation.
Qed.

(** X12. Every row of [model_downloads] has exactly one row in [daily_diffs],
    with its id, date and counter. *)
Lemma daily_diffs_keeps_every_row t :
  (λ x, (dd_model_id x, dd_snapshot_date x, dd_downloads_all_time x)) <$> daily_diffs t
  ≡ₚ (λ r, (id r, snapshot_date r, downloads_all_time r)) <$> t.
Proof. apply daily_diffs_rows. Qed.

(** The result has one row for each author and date. *)
Lemma query_keys_NoDup collate t :
  NoDup ((λ g, (author g, a_snapshot_date g)) <$> query collate t).
Proof.
  unfold query, query_groups. rewrite sort_by_Permutation, <- list_fmap_compose.
  generalize (NoDup_remove_dups (group_key <$> cleaned_diffs t)).
  generalize (remove_dups (group_key <$> cleaned_diffs t)). intros ks Hks.
  replace (_ <$> ks) with ks; [done|].
  clear Hks. induction ks as [|[a d] ks IH]; [done|].
  rewrite fmap_cons, <- IH. done.
Qed.

Lemma sql_sum_known l : sum_list (non_null [sql_sum l]) = sum_list (non_null l).
Proof. unfold sql_sum. destruct (non_null l) eqn:Hl; simpl; lia. Qed.

(** X13. The known totals of the result add up to the sum of the known values of
    [cleaned_diffs]. *)
Lemma query_conserves collate t :
  sum_list (non_null (total_daily_downloads <$> query collate t))
  = sum_list (non_null (cd_daily_downloads <$> cleaned_diffs t)).
Proof.
  unfold query, query_groups. set (cleaned := cleaned_diffs t).
  rewrite <- (sum_known_over_groups group_key cd_daily_downloads cleaned).
  unfold non_null at 1.
  rewrite (sum_list_Permutation _ _
             (omap_Permutation _ _ _
                (fmap_Permutation _ _ _ (sort_by_Permutation (output_leb collate) _)))).
  rewrite <- list_fmap_compose.
  generalize (remove_dups (group_key <$> cleaned)). intros ks.
  induction ks as [|k ks IH]; [done|].
  rewrite !fmap_cons. cbn [compose total_daily_downloads].
  change (omap (λ x, x) (?a :: ?l)) with (non_null ([a] ++ l)).
  unfold non_null in *. rewrite omap_app, sum_list_app, IH.
  change (sum_list (?a :: ?l)) with (a + sum_list l). f_equal.
  apply sql_sum_known.
Qed.

(** X14. When no counter of the table is negative, no value of [cleaned_diffs]
    and no total of the result is. *)
Lemma query_nonnegative collate t :
  (∀ r n, r ∈ t → downloads_all_time r = Some n → 0 ≤ n) →
  (∀ x d, x ∈ cleaned_diffs t → cd_daily_downloads x = Some d → 0 ≤ d)
  ∧ ∀ g d, g ∈ query collate t → total_daily_downloads g = Some d → 0 ≤ d.
Proof.
  intros Hpos.
  assert (∀ x d, x ∈ cleaned_diffs t → cd_daily_downloads x = Some d → 0 ≤ d) as Hc.
  { intros x d (y & -> & Hy)%list_elem_of_fmap.
    apply PostgresFacts.elem_of_daily_diffs in Hy as (r & prev & Hin & ->).
    destruct (elem_of_lag_part id date_leb t (id r) r prev Hin) as (Hr & _ & _).
    unfold cleaned_row, diff_row. simpl.
    destruct (sub_null (downloads_all_time r) (prev ≫= downloads_all_time)) as [v|].
    - destruct (Z.ltb_spec v 0); intros [= <-]; lia.
    - intros Hd. by eapply Hpos. }
  split; [done|].
  intros g d Hg Hd. unfold query, query_groups in Hg.
  apply elem_of_sort_by, list_elem_of_fmap in Hg as (k & -> & _). simpl in Hd.
  unfold sql_sum in Hd.
  destruct (non_null _) as [|v vs] eqn:Hvs; [done|]. simplify_eq.
  apply sum_list_nonneg, Forall_forall. intros v' Hv'. rewrite <- Hvs in Hv'.
  unfold non_null in Hv'. apply list_elem_of_omap in Hv' as (o & Ho & Hv').
  apply list_elem_of_fmap in Ho as (x & -> & [_ Hx]%list_elem_of_filter).
  by eapply Hc.
Qed.
End PostgresTableFacts.

(** ** File names: what the ingestor writes and what the readers accept *)

Lemma strip_prefix_app p s : strip_prefix p (p +:+ s) = Some s.
Proof. induction p as [|a p IH]; simpl; [by destruct s|]. by rewrite Ascii.eqb_refl. Qed.

Lemma take_class_app cls n s d r0 r :
  take_class cls n s = Some (d, r0) → take_class cls n (s +:+ r) = Some (d, r0 +:+ r).
Proof.
  revert s d. induction n as [|n IH]; intros s d; simpl.
  - by intros [= <- <-].
  - destruct s as [|c s]; [done|]. simpl. destruct (cls c); [|done].
    destruct (take_class cls n s) as [[d' r']|] eqn:Hn; [|done].
    intros [= <- <-]. by rewrite (IH _ _ Hn).
Qed.

Lemma take_class_inv cls n s d r :
  take_class cls (S n) s = Some (d, r) →
  ∃ c d' s', s = String c s' ∧ cls c = true ∧ d = String c d'
             ∧ take_class cls n s' = Some (d', r).
Proof.
  simpl. destruct s as [|c s]; [done|]. destruct (cls c) eqn:Hc; [|done].
  destruct (take_class cls n s) as [[d' r']|] eqn:Hn; [|done].
  intros [= <- <-]. eauto 10.
Qed.

Lemma ends_with_app suffix a b :
  ends_with suffix b = true → ends_with suffix (a +:+ b) = true.
Proof.
  intros Hb. induction a as [|c a IH]; [done|].
  simpl. rewrite IH. by destruct (String.eqb _ _).
Qed.

Lemma last_char_cons c s : s ≠ "" → last_char (String c s) = last_char s.
Proof. by destruct s. Qed.

Lemma last_char_app a b : b ≠ "" → last_char (a +:+ b) = last_char b.
Proof.
  intros Hb. induction a as [|c a IH]; [done|].
  change (last_char (String c (a +:+ b)) = last_char b).
  rewrite last_char_cons; [done|]. by destruct a, b.
Qed.

Lemma ends_with_last_char suffix s :
  suffix ≠ "" → ends_with suffix s = true → last_char s = last_char suffix.
Proof.
  intros Hne. induction s as [|c s IH]; simpl.
  - destruct (String.eqb_spec suffix ""); [by subst|done].
  - destruct (String.eqb_spec suffix (String c s)) as [->|_]; [done|].
    intros Hs. specialize (IH Hs). destruct s as [|c' s]; [|done].
    simpl in IH. by destruct suffix.
Qed.

Lemma span_class_stop cls d r c :
  span_class cls d = (d, "") → cls c = false →
  span_class cls (d +:+ String c r) = (d, String c r).
Proof.
  intros Hd Hc. revert Hd. induction d as [|a d IH]; simpl; [by rewrite Hc|].
  destruct (cls a); [|done].
  destruct (span_class cls d) as [d' r'] eqn:Hs. intros [= -> ->].
  by rewrite IH.
Qed.

Module FileNameFacts.
Import Ingestor.

Lemma output_filename_last_char c fmt :
  fmt ≠ "" → last_char (output_filename c fmt) = last_char fmt.
Proof.
  intros Hf. unfold output_filename.
  rewrite !last_char_app; try done; by destruct fmt, (short_sha c), (created_at c).
Qed.

(** The two names of a commit differ. *)
Lemma output_filename_formats c :
  output_filename c "parquet" ≠ output_filename c "csv".
Proof.
  intros Heq. apply (f_equal last_char) in Heq.
  by rewrite !output_filename_last_char in Heq.
Qed.

(** X15. The parquet file stored for a commit is selected by the glob of the
    engines and carries the commit's date; the csv file is not selected. *)
Lemma stored_parquet_is_read c :
  take_class is_digit 8 (created_at c) = Some (created_at c, "") →
  glob_models_parquet (output_filename c "parquet") = true
  ∧ glob_models_parquet (output_filename c "csv") = false
  ∧ DuckDB.extract_date_from_filename (output_filename c "parquet")
    = Some (iso_of_digits (created_at c)).
Proof.
  intros Hd. unfold glob_models_parquet, output_filename.
  rewrite !strip_prefix_app. split_and!.
  - by do 3 apply ends_with_app.
  - destruct (ends_with _ _) eqn:He; [|done].
    apply ends_with_last_char in He; [|done].
    rewrite !last_char_app in He; try done.
    by destruct (short_sha c).
  - unfold DuckDB.extract_date_from_filename.
    assert (DuckDB.match_models_date
              ("models-" +:+ created_at c +:+ "-" +:+ short_sha c +:+ "." +:+ "parquet")
            = Some (created_at c)) as Hm.
    { unfold DuckDB.match_models_date. rewrite strip_prefix_app.
      cbn [mbind option_bind]. by rewrite (take_class_app _ _ _ _ _ _ Hd). }
    destruct ("models-" +:+ created_at c +:+ "-" +:+ short_sha c +:+ "." +:+ "parquet");
      [done|]. cbn [DuckDB.search_models_date]. by rewrite Hm.
Qed.

(** X16. The cleaner accepts the parquet file stored for a commit whose short
    id is lower-case hexadecimal and whose date is a calendar day, and
    reads the commit's date from its name. *)
Lemma stored_parquet_is_parsed c :
  take_class is_digit 8 (created_at c) = Some (created_at c, "") →
  Clean.strptime_Ymd (created_at c) ≠ None →
  short_sha c ≠ "" →
  span_class is_lower_hex (short_sha c) = (short_sha c, "") →
  Clean.parse_snapshot_date (output_filename c "parquet")
  = inr (iso_of_digits (created_at c)).
Proof.
  intros Hd Hdate Hne Hsha. unfold Clean.parse_snapshot_date, Clean.match_snapshot_name.
  unfold output_filename.
  rewrite strip_prefix_app. cbn [mbind option_bind].
  rewrite (take_class_app _ _ _ _ _ _ Hd). cbn [mbind option_bind].
  change (strip_prefix "-" ("" +:+ "-" +:+ ?r)) with (Some r).
  cbn [mbind option_bind].
  change ("." +:+ "parquet") with (String "." "parquet").
  rewrite (span_class_stop _ _ _ _ Hsha) by done.
  destruct (String.eqb_spec (short_sha c) ""); [done|].
  simpl. by destruct (Clean.strptime_Ymd (created_at c)).
Qed.

Lemma parsers_agree name d :
  Clean.parse_snapshot_date name = inr d →
  DuckDB.extract_date_from_filename name = Some d
  ∧ ∃ date, cast_date d = Some date.
Proof.
  unfold Clean.parse_snapshot_date, Clean.match_snapshot_name.
  destruct (strip_prefix "models-" name) as [r1|] eqn:H1; [|done]. cbn [mbind option_bind].
  destruct (take_class is_digit 8 r1) as [[ds r2]|] eqn:H2; [|done]. cbn [mbind option_bind].
  destruct (strip_prefix "-" r2) as [r3|] eqn:H3; [|done]. cbn [mbind option_bind].
  destruct (span_class is_lower_hex r3) as [sha r4].
  destruct (String.eqb sha ""); [done|].
  destruct (strip_prefix ".parquet" r4); [|done]. cbn [mbind option_bind].
  destruct (Clean.strptime_Ymd ds) as [ymd|] eqn:Hymd; [|done].
  intros [= <-]. split.
  - unfold DuckDB.extract_date_from_filename.
    assert (DuckDB.match_models_date name = Some ds) as Hm.
    { unfold DuckDB.match_models_date. rewrite H1. cbn [mbind option_bind].
      rewrite H2. cbn [mbind option_bind]. by rewrite H3. }
    destruct name; [done|]. cbn [DuckDB.search_models_date]. by rewrite Hm.
  - do 8 (apply take_class_inv in H2 as (? & ? & ? & -> & ? & -> & H2)).
    simpl in H2. injection H2 as <- <-.
    unfold Clean.strptime_Ymd in Hymd. simpl in Hymd.
    unfold cast_date, iso_of_digits. simpl.
    do 3 (repeat match goal with
                 | H : is_digit ?c = true |- context [is_digit ?c] => rewrite H
                 end; simpl).
    destruct (valid_ymd _ _ _); [eauto|].
    by rewrite andb_false_r in Hymd.
Qed.

(** X17. A name the cleaner accepts is read by the DuckDB engine with the same
    date, and the cast of that date to [DATE] succeeds. *)
Lemma cleaner_and_duckdb_read_the_same_date name d :
  Clean.parse_snapshot_date name = inr d →
  DuckDB.extract_date_from_filename name = Some d
  ∧ ∃ date, cast_date d = Some date.
Proof. apply parsers_agree. Qed.
End FileNameFacts.

(** ** The DuckDB engine: a run as a whole *)

Module DuckDBRunFacts.
Import DuckDB.

Lemma elem_of_union_queries fs d f :
  (d, f) ∈ union_queries fs ↔ f ∈ fs ∧ extract_date_from_filename (file_name f) = Some d.
Proof.
  unfold union_queries. rewrite list_elem_of_omap. split.
  - intros (g & Hg & Hd).
    destruct (extract_date_from_filename (file_name g)) eqn:He; simplify_eq/=. done.
  - intros [Hf Hd]. exists f. by rewrite Hd.
Qed.

Lemma all_snapshots_inr qs :
  (∃ t, all_snapshots qs = inr t) ↔ ∀ d f, (d, f) ∈ qs → is_Some (cast_date d).
Proof.
  induction qs as [|[d f] qs IH]; simpl.
  - split; [intros _ ?? Hin; by inv Hin|eauto].
  - split.
    + intros [t Ht] d' f' Hin.
      destruct (cast_date d) as [date|] eqn:Hd; [|done].
      destruct (all_snapshots qs) as [e|rows]; [done|].
      apply elem_of_cons in Hin as [[= -> ->]|Hin]; [by rewrite Hd|].
      apply (proj1 IH (ex_intro _ rows eq_refl) _ _ Hin).
    + intros Hall.
      destruct (Hall d f) as [date ->]; [left|].
      destruct (proj2 IH) as [rows ->]; [|eauto].
      intros d' f' Hin. apply (Hall d' f'). by right.
Qed.

Lemma elem_of_all_snapshots_inv qs t x :
  all_snapshots qs = inr t → x ∈ t →
  ∃ d f date, (d, f) ∈ qs ∧ cast_date d = Some date ∧ x ∈ load_file date f.
Proof.
  revert t. induction qs as [|[d f] qs IH]; intros t Ht Hx; simpl in Ht.
  - simplify_eq. by inv Hx.
  - destruct (cast_date d) as [date|] eqn:Hd; [|done].
    destruct (all_snapshots qs) as [e|rows] eqn:Hrows; [done|]. simplify_eq.
    apply elem_of_app in Hx as [Hx|Hx].
    + exists d, f, date. split_and!; [left|done..].
    + destruct (IH rows eq_refl Hx) as (d' & f' & date' & ? & ? & ?).
      exists d', f', date'. split_and!; [by right|done..].
Qed.

Lemma select_snapshot_Some date r x :
  select_snapshot date r = Some x ↔
  r = {| pq_id := Some (id x); pq_downloadsAllTime := Some (downloadsAllTime x) |}
  ∧ snapshot_date x = date ∧ author x = split_part_1 (id x) ∧ author x ≠ "".
Proof.
  unfold select_snapshot. destruct r as [[i|] [n|]]; simpl;
    try (split; [done|by intros [[=] _]]).
  destruct (String.eqb_spec (split_part_1 i) "") as [He|Hne].
  - split; [done|]. intros (Hr & _ & Ha & Hne). injection Hr as -> ->. congruence.
  - split.
    + intros [= <-]. done.
    + intros (Hr & <- & Ha & _). injection Hr as -> ->.
      destruct x as [sd i' a n']. simpl in *. by rewrite Ha.
Qed.

Lemma bind_file_inr f tb :
  bind_file f = inr tb ↔
  file_table f = Some tb ∧ has_id tb = true ∧ has_downloadsAllTime tb = true.
Proof.
  unfold bind_file. destruct (file_table f) as [tb'|].
  - destruct (has_id tb') eqn:Hid, (has_downloadsAllTime tb') eqn:Hdl; simpl;
      split; try done; try (intros [[= <-] [? ?]]; congruence).
    by intros [= <-].
  - split; [done|]. by intros [? _].
Qed.

Lemma bind_file_raises f e :
  bind_file f = inl e → (∃ msg, e = IOException msg) ∨ (∃ msg, e = BinderException msg).
Proof.
  unfold bind_file. destruct (file_table f) as [tb|]; [|intros [= <-]; eauto].
  destruct (has_id tb); simpl; [|intros [= <-]; eauto].
  destruct (has_downloadsAllTime tb); simpl; [done|intros [= <-]; eauto].
Qed.

Lemma bind_queries_inr qs u d f :
  bind_queries qs = inr u → (d, f) ∈ qs → ∃ tb, bind_file f = inr tb.
Proof.
  induction qs as [|[d' f'] qs IH]; simpl; intros Hqs Hin; [by inv Hin|].
  destruct (bind_file f') as [e|tb] eqn:Hb; [done|].
  apply elem_of_cons in Hin as [[= -> ->]|Hin]; eauto.
Qed.

Lemma bind_queries_raises qs e :
  bind_queries qs = inl e → (∃ msg, e = IOException msg) ∨ (∃ msg, e = BinderException msg).
Proof.
  induction qs as [|[d f] qs IH]; simpl; [done|].
  destruct (bind_file f) as [e'|tb] eqn:Hb; [|done].
  intros [= <-]. by eapply bind_file_raises.
Qed.

Lemma all_snapshots_raises qs e :
  all_snapshots qs = inl e → ∃ d f, (d, f) ∈ qs ∧ cast_date d = None.
Proof.
  revert e. induction qs as [|[d f] qs IH]; intros e; simpl; [done|].
  destruct (cast_date d) as [date|] eqn:Hd.
  - destruct (all_snapshots qs) as [e'|rows]; [|done].
    intros _. destruct (IH e' eq_refl) as (d' & f' & Hin & Hd').
    exists d', f'. split; [by right|done].
  - intros _. exists d, f. split; [left|done].
Qed.

(** What a run that returns has gone through. *)
Lemma process_returns data_dir listing tables :
  process_historical_data data_dir listing = inr tables →
  union_queries (glob_sorted file_name listing) ≠ []
  ∧ bind_queries (union_queries (glob_sorted file_name listing)) = inr ()
  ∧ all_snapshots (union_queries (glob_sorted file_name listing))
    = inr (t_all_snapshots tables)
  ∧ forallb delta_in_range (daily_model_downloads (t_all_snapshots tables)) = true
  ∧ tables = run_queries (t_all_snapshots tables).
Proof.
  unfold process_historical_data.
  set (files := glob_sorted file_name listing).
  destruct (length files =? 0)%nat; [done|].
  destruct (union_queries files) as [|q qs] eqn:Hqs; [done|].
  destruct (bind_queries (q :: qs)) as [e|[]] eqn:Hbind; [done|].
  destruct (all_snapshots (q :: qs)) as [e|t] eqn:Hall; [done|].
  destruct (forallb delta_in_range (daily_model_downloads t)) eqn:Hrange; [|done].
  intros [= <-]. done.
Qed.

Lemma elem_of_selected_queries listing d f :
  (d, f) ∈ union_queries (glob_sorted file_name listing) ↔
  f ∈ listing ∧ glob_models_parquet (file_name f) = true
  ∧ extract_date_from_filename (file_name f) = Some d.
Proof. rewrite elem_of_union_queries, elem_of_glob_sorted. naive_solver. Qed.

(** X18. A run returns its tables only when some selected file carries a
    date, every selected file that carries a date can be read, has the
    columns [id] and [downloadsAllTime] and is named after a calendar day,
    and every difference of [daily_model_downloads] fits a [BIGINT]. *)
Lemma process_returns_only_when data_dir listing tables :
  process_historical_data data_dir listing = inr tables →
  (∃ f, f ∈ listing ∧ glob_models_parquet (file_name f) = true
        ∧ is_Some (extract_date_from_filename (file_name f)))
  ∧ (∀ f d, f ∈ listing → glob_models_parquet (file_name f) = true →
            extract_date_from_filename (file_name f) = Some d →
            is_Some (cast_date d)
            ∧ ∃ tb, file_table f = Some tb ∧ has_id tb = true
                    ∧ has_downloadsAllTime tb = true)
  ∧ ∀ r d, r ∈ t_daily_model_downloads tables → daily_downloads r = Some d →
           - 2 ^ 63 ≤ d < 2 ^ 63.
Proof.
  intros (Hne & Hbind & Hall & Hrange & ->)%process_returns. split_and!.
  - destruct (union_queries (glob_sorted file_name listing)) as [|[d f] qs] eqn:Hqs;
      [done|].
    assert ((d, f) ∈ union_queries (glob_sorted file_name listing)) as Hin
      by (rewrite Hqs; left).
    apply elem_of_selected_queries in Hin as (? & ? & Hd).
    exists f. by rewrite Hd.
  - intros f d Hf Hg Hd.
    assert ((d, f) ∈ union_queries (glob_sorted file_name listing)) as Hin
      by by apply elem_of_selected_queries.
    split.
    + by eapply (proj1 (all_snapshots_inr _) (ex_intro _ _ Hall) d f).
    + destruct (bind_queries_inr _ _ _ _ Hbind Hin) as [tb Htb].
      exists tb. by apply bind_file_inr.
  - intros r d Hr Hd. simpl in Hr.
    rewrite forallb_forall in Hrange.
    assert (delta_in_range r = true) as Hin.
    { apply Hrange. by apply list_elem_of_In. }
    unfold delta_in_range, in_bigint in Hin. rewrite Hd in Hin.
    apply andb_true_iff in Hin as [?%Z.leb_le ?%Z.ltb_lt]. done.
Qed.

(** X19. The rows of [all_snapshots]: the rows of the selected files with an id
    and a counter, dated by the file name, whose author is not empty. *)
Lemma all_snapshots_rows data_dir listing tables x :
  process_historical_data data_dir listing = inr tables →
  x ∈ t_all_snapshots tables ↔
  ∃ f d, f ∈ listing ∧ glob_models_parquet (file_name f) = true
         ∧ extract_date_from_filename (file_name f) = Some d
         ∧ cast_date d = Some (snapshot_date x)
         ∧ {| pq_id := Some (id x); pq_downloadsAllTime := Some (downloadsAllTime x) |}
             ∈ file_rows f
         ∧ author x = split_part_1 (id x) ∧ author x ≠ "".
Proof.
  intros (_ & _ & Hall & _ & _)%process_returns. split.
  - intros Hx.
    destruct (elem_of_all_snapshots_inv _ _ _ Hall Hx) as (d & f & date & Hin & Hd & Hl).
    apply elem_of_union_queries in Hin as [[Hf Hg]%elem_of_glob_sorted He].
    unfold load_file in Hl. apply list_elem_of_omap in Hl as (r & Hr & Hs).
    apply select_snapshot_Some in Hs as (-> & <- & ? & ?).
    exists f, d. done.
  - intros (f & d & Hf & Hg & He & Hd & Hr & Ha & Hne).
    eapply (DuckDBLoadFacts.elem_of_all_snapshots _ _ d f); [done| |done|].
    + apply elem_of_union_queries. split; [|done]. by apply elem_of_glob_sorted.
    + unfold load_file. apply list_elem_of_omap. eexists. split; [done|].
      by apply select_snapshot_Some.
Qed.

(** X20. On a directory whose selected files all pass the cleaner's reading
    of their names, the DuckDB engine raises neither of its [ValueError]s
    and no conversion error for a date: a selected file carries a date and
    every such date is a calendar day. *)
Lemma cleaned_directory_has_usable_dates data_dir listing f0 :
  f0 ∈ listing → glob_models_parquet (file_name f0) = true →
  (∀ f, f ∈ listing → glob_models_parquet (file_name f) = true →
        ∃ d, Clean.parse_snapshot_date (file_name f) = inr d) →
  (∀ msg, process_historical_data data_dir listing ≠ inl (ValueError msg))
  ∧ (∀ d, process_historical_data data_dir listing ≠ inl (ConversionException d)).
Proof.
  intros Hf0 Hg0 Hclean.
  assert (∀ e, process_historical_data data_dir listing = inl e →
               (∃ msg, e = IOException msg) ∨ (∃ msg, e = BinderException msg)
               ∨ (∃ msg, e = OutOfRangeException msg)) as Hkind.
  { intros e. unfold process_historical_data.
    pose proof (elem_of_selected_queries listing) as Hq.
    set (files := glob_sorted file_name listing) in *.
    destruct (Hclean f0 Hf0 Hg0) as [d0 Hd0].
    apply FileNameFacts.parsers_agree in Hd0 as [Hd0 _].
    assert ((d0, f0) ∈ union_queries files) as Hin0 by by apply Hq.
    destruct (length files =? 0)%nat eqn:Hlen.
    { apply Nat.eqb_eq, nil_length_inv in Hlen. rewrite Hlen in Hin0. by inv Hin0. }
    destruct (union_queries files) as [|q qs] eqn:Hqs; [by inv Hin0|].
    destruct (bind_queries (q :: qs)) as [e'|[]] eqn:Hbind.
    { intros [= <-]. apply bind_queries_raises in Hbind. naive_solver. }
    destruct (all_snapshots (q :: qs)) as [e'|t] eqn:Hall.
    { apply all_snapshots_raises in Hall as (d & f & (Hf & Hg & He)%Hq & Hd).
      destruct (Hclean f Hf Hg) as [d' Hd'].
      apply FileNameFacts.parsers_agree in Hd' as [He' [date Hdate]].
      rewrite He in He'. simplify_eq. }
    destruct (forallb delta_in_range (daily_model_downloads t)); [done|].
    intros [= <-]. eauto. }
  split; intros x Hx; destruct (Hkind _ Hx) as [[? ?]|[[? ?]|[? ?]]]; done.
Qed.
End DuckDBRunFacts.

(** ** The ingestor: a run as a whole *)

Section IngestorRunFacts.
Import Ingestor.
Context {Content : Type} (sha256 : Content → string).
Context (hf_hub_download : string → string → option Content).

Local Abbreviation step := (process_commit sha256 hf_hub_download).
Local Abbreviation run := (foldl (process_commit sha256 hf_hub_download)).
Local Abbreviation try := (try_format sha256 hf_hub_download).
Local Abbreviation handled st :=
  (successful_downloads st + skipped_existing st + skipped_no_change st
   + skipped_no_file st)%nat.

(** What one commit does to the directory: nothing, or one new file that
    holds the remote file of the commit. *)
Local Abbreviation stores st c st' fmt x :=
  (historical_dir st !! output_filename c fmt = None
   ∧ hf_hub_download (commit_id c) (source_filename fmt) = Some x
   ∧ historical_dir st' = <[output_filename c fmt := x]> (historical_dir st)
   ∧ downloaded_files st' = downloaded_files st ++ [output_filename c fmt]
   ∧ successful_downloads st' = S (successful_downloads st)).

Local Abbreviation unchanged st st' :=
  (historical_dir st' = historical_dir st
   ∧ downloaded_files st' = downloaded_files st
   ∧ successful_downloads st' = successful_downloads st).

Lemma try_format_cases (st : State) c fmt :
  if (try c fmt st).2
  then handled (try c fmt st).1 = S (handled st)
       ∧ (unchanged st (try c fmt st).1 ∨ ∃ x, stores st c (try c fmt st).1 fmt x)
  else handled (try c fmt st).1 = handled st
       ∧ unchanged st (try c fmt st).1
       ∧ hf_hub_download (commit_id c) (source_filename fmt) = None.
Proof.
  unfold try_format.
  destruct (historical_dir st !! output_filename c fmt) as [existing|] eqn:Hdir; simpl.
  { split; [lia|]. by left. }
  destruct (hf_hub_download (commit_id c) (source_filename fmt)) as [cached|] eqn:Hhub;
    simpl; [|done].
  destruct (decide (sha256 cached ∈ seen_hashes st)); simpl.
  - split; [lia|]. by left.
  - split; [lia|]. right. by exists cached.
Qed.

Lemma step_cases (st : State) c :
  handled (step st c) = S (handled st)
  ∧ (unchanged st (step st c)
     ∨ ∃ fmt x, fmt ∈ ["parquet"; "csv"]
                ∧ (fmt = "csv" →
                   hf_hub_download (commit_id c) (source_filename "parquet") = None)
                ∧ stores st c (step st c) fmt x).
Proof.
  rewrite process_commit_unfold. cbv zeta.
  pose proof (try_format_cases st c "parquet") as Hp.
  destruct (try c "parquet" st) as [st1 [|]]; simpl in *.
  { destruct Hp as [Hh [Hu|[x Hx]]]; (split; [done|]); [by left|].
    right. exists "parquet", x. destruct Hx as (? & ? & ? & ? & ?).
    split_and!; [set_solver|done..]. }
  destruct Hp as (Hh1 & (Hd1 & Hf1 & Hs1) & Hnone).
  pose proof (try_format_cases st1 c "csv") as Hc.
  destruct (try c "csv" st1) as [st2 [|]]; simpl in *.
  - destruct Hc as [Hh [(? & ? & ?)|[x (? & ? & ? & ? & ?)]]]; (split; [lia|]).
    + left. split_and!; congruence.
    + right. exists "csv", x. split_and!; [set_solver|done|congruence..].
  - destruct Hc as (Hh2 & (? & ? & ?) & _). split; [lia|].
    left. split_and!; congruence.
Qed.

Lemma run_handled cs (st : State) :
  handled (run st cs) = (handled st + length cs)%nat.
Proof.
  revert st. induction cs as [|c cs IH]; intros st; simpl; [lia|].
  rewrite IH. destruct (step_cases st c) as [-> _]. lia.
Qed.

(** The files of this run: new names only, each stored once. *)
Lemma run_downloaded_files cs (st : State) (dir : gmap string Content) :
  dir ⊆ historical_dir st →
  NoDup (downloaded_files st) →
  successful_downloads st = length (downloaded_files st) →
  (∀ n, n ∈ downloaded_files st ↔ dir !! n = None ∧ is_Some (historical_dir st !! n)) →
  NoDup (downloaded_files (run st cs))
  ∧ successful_downloads (run st cs) = length (downloaded_files (run st cs))
  ∧ ∀ n, n ∈ downloaded_files (run st cs)
         ↔ dir !! n = None ∧ is_Some (historical_dir (run st cs) !! n).
Proof.
  revert st. induction cs as [|c cs IH]; intros st Hsub Hnd Hlen Hnew; simpl; [done|].
  destruct (step_cases st c) as [_ [(Hd & Hf & Hs)|(fmt & x & _ & _ & Hnone & _ & Hd & Hf & Hs)]].
  - apply IH; rewrite ?Hd, ?Hf, ?Hs; done.
  - assert (dir !! output_filename c fmt = None) as Hdir.
    { destruct (dir !! output_filename c fmt) as [y|] eqn:Hy; [|done].
      eapply lookup_weaken in Hy; [|done]. congruence. }
    apply IH; rewrite ?Hd, ?Hf, ?Hs.
    + etrans; [done|]. by apply insert_subseteq.
    + apply NoDup_app. split_and!; [done| |apply NoDup_singleton].
      intros n Hn Heq%list_elem_of_singleton. subst n.
      apply Hnew in Hn as [_ [? ?]]. congruence.
    + rewrite length_app. simpl. lia.
    + intros n. rewrite elem_of_app, list_elem_of_singleton, Hnew.
      destruct (decide (n = output_filename c fmt)) as [->|Hne].
      * rewrite lookup_insert_eq. naive_solver.
      * rewrite lookup_insert_ne by done. naive_solver.
Qed.

Lemma run_initial_downloaded_files cs (dir : gmap string Content) :
  NoDup (downloaded_files (run (initial dir) cs))
  ∧ successful_downloads (run (initial dir) cs)
    = length (downloaded_files (run (initial dir) cs))
  ∧ ∀ n, n ∈ downloaded_files (run (initial dir) cs)
         ↔ dir !! n = None ∧ is_Some (historical_dir (run (initial dir) cs) !! n).
Proof.
  apply run_downloaded_files; simpl; [done|apply NoDup_nil_2|done|].
  intros n. split; [by intros ?%elem_of_nil|].
  intros [Hn [x Hx]]. congruence.
Qed.

(** Where a stored file comes from. *)
Lemma run_provenance cs (st : State) n x :
  historical_dir (run st cs) !! n = Some x →
  historical_dir st !! n = Some x
  ∨ ∃ c fmt, c ∈ cs ∧ fmt ∈ ["parquet"; "csv"] ∧ n = output_filename c fmt
             ∧ hf_hub_download (commit_id c) (source_filename fmt) = Some x.
Proof.
  revert st. induction cs as [|c cs IH]; intros st Hn; simpl in *; [by left|].
  destruct (IH _ Hn) as [Hst|(c' & fmt & ? & ? & ? & ?)].
  - destruct (step_cases st c) as [_ [(Hd & _)|(fmt & y & Hfmt & _ & _ & Hhub & Hd & _)]].
    + left. by rewrite <- Hd.
    + rewrite Hd in Hst.
      destruct (decide (n = output_filename c fmt)) as [->|Hne].
      * rewrite lookup_insert_eq in Hst. simplify_eq.
        right. exists c, fmt. split_and!; [left|done..].
      * rewrite lookup_insert_ne in Hst by done. by left.
  - right. exists c', fmt. split_and!; [by right|done..].
Qed.

(** With the parquet file of every commit on the hub, no csv is stored. *)
Lemma run_prefers_parquet cs (st : State) n :
  (∀ c, c ∈ cs → is_Some (hf_hub_download (commit_id c) (source_filename "parquet"))) →
  n ∈ downloaded_files (run st cs) →
  n ∈ downloaded_files st ∨ ∃ c, c ∈ cs ∧ n = output_filename c "parquet".
Proof.
  revert st. induction cs as [|c cs IH]; intros st Hhub Hn; simpl in *; [by left|].
  destruct (IH (step st c)) as [Hst|(c' & ? & ?)]; [set_solver|done| |].
  - destruct (step_cases st c) as [_ [(_ & Hf & _)|(fmt & y & Hfmt & Hcsv & _ & _ & _ & Hf & _)]].
    + left. by rewrite <- Hf.
    + rewrite Hf in Hst. apply elem_of_app in Hst as [?|Heq%list_elem_of_singleton]; [by left|].
      subst n.
      right. exists c. split; [left|].
      apply elem_of_cons in Hfmt as [->|Hfmt]; [done|].
      apply list_elem_of_singleton in Hfmt as ->.
      destruct (Hhub c) as [z Hz]; [left|]. rewrite Hcsv in Hz; done.
  - right. exists c'. split; [by right|done].
Qed.

(** X21. Every relevant commit is counted once, and the count of downloads is
    the number of files returned. *)
Lemma download_accounts_for_every_commit commits dir :
  let st := download_historical_models_data sha256 hf_hub_download commits dir in
  (successful_downloads st + skipped_existing st + skipped_no_change st
   + skipped_no_file st)%nat = length (List.filter relevant commits)
  ∧ successful_downloads st = length (downloaded_files st).
Proof.
  unfold download_historical_models_data. split.
  - by rewrite run_handled.
  - apply run_initial_downloaded_files.
Qed.

(** X22. The files returned are exactly the names that are new in the directory,
    each listed once; every file found in the directory is still there with
    its content. *)
Lemma download_returns_the_new_files commits dir :
  let st := download_historical_models_data sha256 hf_hub_download commits dir in
  dir ⊆ historical_dir st
  ∧ NoDup (downloaded_files st)
  ∧ ∀ n, n ∈ downloaded_files st ↔ dir !! n = None ∧ is_Some (historical_dir st !! n).
Proof.
  unfold download_historical_models_data. split.
  - apply map_subseteq_spec. intros n x Hn. by apply run_keeps_files.
  - destruct (run_initial_downloaded_files (List.filter relevant commits) dir)
      as (? & _ & ?). done.
Qed.

(** X23. A file stored by the run holds what the hub serves for a relevant
    commit, under one of the two names of that commit. *)
Lemma download_stores_remote_content commits dir n x :
  let st := download_historical_models_data sha256 hf_hub_download commits dir in
  historical_dir st !! n = Some x → dir !! n = None →
  ∃ c fmt, c ∈ commits ∧ relevant c = true ∧ fmt ∈ ["parquet"; "csv"]
           ∧ n = output_filename c fmt
           ∧ hf_hub_download (commit_id c) (source_filename fmt) = Some x.
Proof.
  unfold download_historical_models_data. intros Hn Hdir.
  apply run_provenance in Hn as [Hn|(c & fmt & Hc & ? & ? & ?)]; simpl in *; [congruence|].
  apply list_elem_of_In, List.filter_In in Hc as [Hc%list_elem_of_In Hr].
  exists c, fmt. done.
Qed.

(** X24. When the hub serves [models.parquet] at every relevant commit, every
    file returned is the parquet file of a relevant commit. *)
Lemma download_prefers_parquet commits dir n :
  let st := download_historical_models_data sha256 hf_hub_download commits dir in
  (∀ c, c ∈ commits → relevant c = true →
        is_Some (hf_hub_download (commit_id c) "models.parquet")) →
  n ∈ downloaded_files st →
  ∃ c, c ∈ commits ∧ relevant c = true ∧ n = output_filename c "parquet".
Proof.
  unfold download_historical_models_data. intros Hhub Hn.
  apply run_prefers_parquet in Hn as [Hn|(c & Hc & ->)]; simpl in *.
  - by inv Hn.
  - apply list_elem_of_In, List.filter_In in Hc as [Hc%list_elem_of_In Hr]. eauto.
  - intros c Hc. apply list_elem_of_In, List.filter_In in Hc as [Hc%list_elem_of_In Hr].
    by apply Hhub.
Qed.

(** X25. A run that starts from an empty directory stores no content under two
    names. *)
Lemma empty_store_no_duplicate_content commits n1 n2 x1 x2 :
  let st := download_historical_models_data sha256 hf_hub_download commits ∅ in
  historical_dir st !! n1 = Some x1 → historical_dir st !! n2 = Some x2 →
  sha256 x1 = sha256 x2 → n1 = n2.
Proof.
  intros st H1 H2 Hh.
  destruct (empty_store_run_distinct_hashes sha256 hf_hub_download commits) as [_ Hd].
  by eapply Hd.
Qed.
End IngestorRunFacts.

(** ** The cleaner: a run as a whole *)

Module CleanRunFacts.
Import Clean.

Lemma process_snapshot_file_inr f d rows :
  process_snapshot_file f d = inr rows ↔
  ∃ df, file_frame f = Some df ∧ has_id df = true
        ∧ rows = (λ r, {| csv_id := fr_id r;
                          csv_likes := column (has_likes df) (fr_likes r);
                          csv_downloads := column (has_downloads df) (fr_downloads r);
                          csv_downloadsAllTime :=
                            column (has_downloadsAllTime df) (fr_downloadsAllTime r);
                          csv_snapshot_date := d |}) <$> frame_rows df.
Proof.
  unfold process_snapshot_file.
  destruct (file_frame f) as [df|]; [|split; [done|by intros (? & [=] & _)]].
  destruct (has_id df) eqn:Hid; simpl.
  - split.
    + intros [= <-]. by exists df.
    + intros (df' & [= <-] & _ & ->). done.
  - split; [done|]. intros (df' & [= <-] & ? & _). congruence.
Qed.

Lemma process_all_rows fs all_data r :
  process_all fs = inr all_data →
  r ∈ concat all_data ↔
  ∃ f d rows, f ∈ fs ∧ parse_snapshot_date (file_name f) = inr d
              ∧ process_snapshot_file f d = inr rows ∧ r ∈ rows.
Proof.
  revert all_data. induction fs as [|g fs IH]; intros all_data Hok; simpl in Hok.
  - simplify_eq. simpl. split; [by intros ?%elem_of_nil|].
    intros (f & ? & ? & Hf & _). by inv Hf.
  - destruct (parse_snapshot_date (file_name g)) as [e|d] eqn:Hd; [done|].
    destruct (process_snapshot_file g d) as [e|df] eqn:Hg; [done|].
    destruct (process_all fs) as [e|rest] eqn:Hrest; [done|]. simplify_eq.
    simpl. rewrite elem_of_app, (IH rest eq_refl). split.
    + intros [Hr|(f & d' & rows & ? & ? & ? & ?)].
      * exists g, d, df. split_and!; [left|done..].
      * exists f, d', rows. split_and!; [by right|done..].
    + intros (f & d' & rows & Hf & Hd' & Hrows & Hr).
      apply elem_of_cons in Hf as [->|Hf]; [left; congruence|].
      right. eauto 10.
Qed.

Lemma process_all_inl fs f :
  f ∈ fs →
  (∀ d, parse_snapshot_date (file_name f) = inr d → raised (process_snapshot_file f d)) →
  raised (process_all fs).
Proof.
  intros Hf Hbad. induction fs as [|g fs IH]; [by inv Hf|]. simpl.
  destruct (parse_snapshot_date (file_name g)) as [e|d] eqn:Hd; [done|].
  destruct (process_snapshot_file g d) as [e|df] eqn:Hg; [done|].
  destruct (process_all fs) as [e|rest] eqn:Hrest; [done|].
  apply elem_of_cons in Hf as [->|Hf]; [|by apply IH].
  specialize (Hbad d Hd). by rewrite Hg in Hbad.
Qed.

(** X26. A selected file that cannot be read, or has no [id] column, aborts the
    run. *)
Lemma clean_rejects_unusable_file input_dir files f :
  f ∈ files → glob_models_parquet (file_name f) = true →
  (file_frame f = None ∨ ∃ df, file_frame f = Some df ∧ has_id df = false) →
  raised (clean_historical_data input_dir (Some files)).
Proof.
  intros Hf Hg Hbad. unfold clean_historical_data.
  assert (f ∈ glob_sorted file_name files) as Hin by by apply elem_of_glob_sorted.
  destruct (glob_sorted file_name files) as [|g gs] eqn:Hgs; [done|].
  assert (raised (process_all (g :: gs))) as Hr.
  { apply (process_all_inl _ f Hin). intros d _. unfold process_snapshot_file.
    destruct Hbad as [->|(df & -> & ->)]; done. }
  by destruct (process_all (g :: gs)).
Qed.

Lemma clean_rows input_dir files rows r :
  clean_historical_data input_dir (Some files) = inr rows →
  r ∈ rows ↔
  ∃ f df fr d, f ∈ files ∧ glob_models_parquet (file_name f) = true
               ∧ file_frame f = Some df ∧ fr ∈ frame_rows df
               ∧ parse_snapshot_date (file_name f) = inr d
               ∧ r = {| csv_id := fr_id fr;
                        csv_likes := column (has_likes df) (fr_likes fr);
                        csv_downloads := column (has_downloads df) (fr_downloads fr);
                        csv_downloadsAllTime :=
                          column (has_downloadsAllTime df) (fr_downloadsAllTime fr);
                        csv_snapshot_date := d |}.
Proof.
  unfold clean_historical_data.
  destruct (glob_sorted file_name files) as [|g gs] eqn:Hgs; [done|].
  rewrite <- Hgs.
  destruct (process_all (glob_sorted file_name files)) as [e|all_data] eqn:Hall; [done|].
  intros [= <-]. rewrite (process_all_rows _ _ _ Hall). split.
  - intros (f & d & frows & [Hf Hg]%elem_of_glob_sorted & Hd & Hrows & Hr).
    apply process_snapshot_file_inr in Hrows as (df & Hdf & Hid & ->).
    apply list_elem_of_fmap in Hr as (fr & -> & Hfr).
    exists f, df, fr, d. done.
  - intros (f & df & fr & d & Hf & Hg & Hdf & Hfr & Hd & ->).
    assert (f ∈ glob_sorted file_name files) as Hin by by apply elem_of_glob_sorted.
    assert (has_id df = true) as Hid.
    { destruct (has_id df) eqn:Hid; [done|].
      assert (raised (process_all (glob_sorted file_name files))) as Hr.
      { apply (process_all_inl _ f Hin). intros d' _. unfold process_snapshot_file.
        by rewrite Hdf, Hid. }
      by rewrite Hall in Hr. }
    exists f, d, ((λ r, {| csv_id := fr_id r;
                          csv_likes := column (has_likes df) (fr_likes r);
                          csv_downloads := column (has_downloads df) (fr_downloads r);
                          csv_downloadsAllTime :=
                            column (has_downloadsAllTime df) (fr_downloadsAllTime r);
                          csv_snapshot_date := d |}) <$> frame_rows df).
    split_and!; [done|done| |].
    + apply process_snapshot_file_inr. eauto.
    + apply list_elem_of_fmap. eauto.
Qed.

(** X27. The rows of the cleaned table: the rows of the selected files, each
    with the date read from the name of its file; a column the file does
    not have is empty. *)
Lemma clean_rows_come_from_files input_dir files rows r :
  clean_historical_data input_dir (Some files) = inr rows →
  r ∈ rows ↔
  ∃ f df fr d, f ∈ files ∧ glob_models_parquet (file_name f) = true
               ∧ file_frame f = Some df ∧ fr ∈ frame_rows df
               ∧ parse_snapshot_date (file_name f) = inr d
               ∧ r = {| csv_id := fr_id fr;
                        csv_likes := column (has_likes df) (fr_likes fr);
                        csv_downloads := column (has_downloads df) (fr_downloads fr);
                        csv_downloadsAllTime :=
                          column (has_downloadsAllTime df) (fr_downloadsAllTime fr);
                        csv_snapshot_date := d |}.
Proof. apply clean_rows. Qed.

(** X28. Every date of the cleaned table is a calendar day written
    [YYYY-MM-DD]: the cast to [DATE] accepts it. *)
Lemma clean_dates_are_valid input_dir files rows r :
  clean_historical_data input_dir (Some files) = inr rows → r ∈ rows →
  is_Some (cast_date (csv_snapshot_date r)).
Proof.
  intros Hok Hr. apply (clean_rows _ _ _ r Hok) in Hr
    as (f & df & fr & d & _ & _ & _ & _ & Hd & ->). simpl.
  apply FileNameFacts.parsers_agree in Hd as [_ [date ->]]. done.
Qed.
End CleanRunFacts.

(** ** The ingestor: the filter on the commit message *)

Section RelevantFacts.
Import Ingestor.

Lemma lower_app a b : lower (a +:+ b) = lower a +:+ lower b.
Proof. induction a as [|c a IH]; [done|]. simpl. by rewrite IH. Qed.

Lemma prefix_nil a : String.prefix "" a = true.
Proof. by destruct a. Qed.

Lemma prefix_app n a b : String.prefix n a = true → String.prefix n (a +:+ b) = true.
Proof.
  revert a. induction n as [|y n IH]; intros a; [by rewrite !prefix_nil|].
  destruct a as [|x a]; simpl; [done|]. destruct (ascii_dec y x); [apply IH|done].
Qed.

Lemma contains_cons n x s :
  contains n (String x s) = if String.prefix n (String x s) then true else contains n s.
Proof. done. Qed.

Lemma contains_app_l n a b : contains n a = true → contains n (a +:+ b) = true.
Proof.
  induction a as [|x a IH].
  - intros Hn. destruct n; [|by simpl in Hn]. by destruct b.
  - change (String x a +:+ b) with (String x (a +:+ b)). rewrite !contains_cons.
    destruct (String.prefix n (String x a)) eqn:Hp.
    + intros _. change (String x (a +:+ b)) with (String x a +:+ b).
      by rewrite (prefix_app _ _ _ Hp).
    + intros Ha. rewrite (IH Ha). by case_match.
Qed.

Lemma contains_app_r n a b : contains n b = true → contains n (a +:+ b) = true.
Proof.
  intros Hb. induction a as [|x a IH]; [done|].
  change (String x a +:+ b) with (String x (a +:+ b)).
  rewrite contains_cons, IH. by case_match.
Qed.

Lemma prefix_before n c a b :
  Forall (λ y, y ≠ c) (String.list_ascii_of_string n) →
  String.prefix n (a +:+ String c b) = true → String.prefix n a = true.
Proof.
  revert a. induction n as [|y n IH]; intros a Hn; [by rewrite !prefix_nil|].
  simpl in Hn. apply Forall_cons in Hn as [Hy Hn].
  destruct a as [|x a]; simpl.
  - destruct (ascii_dec y c); [done|done].
  - destruct (ascii_dec y x); [by apply IH|done].
Qed.

Lemma contains_around n c a b :
  Forall (λ y, y ≠ c) (String.list_ascii_of_string n) →
  contains n (a +:+ String c b) = true → contains n a = true ∨ contains n b = true.
Proof.
  intros Hn. induction a as [|x a IH].
  - change ("" +:+ String c b) with (String c b). rewrite contains_cons.
    destruct (String.prefix n (String c b)) eqn:Hp.
    + intros _. left. apply (prefix_before n c "" b Hn) in Hp.
      destruct n; [done|done].
    + by right.
  - change (String x a +:+ String c b) with (String x (a +:+ String c b)).
    rewrite !contains_cons.
    destruct (String.prefix n (String x (a +:+ String c b))) eqn:Hp.
    + intros _. left. apply (prefix_before n c (String x a) b Hn) in Hp. by rewrite Hp.
    + intros [Ha|Hb]%IH; [left|by right]. rewrite Ha. by case_match.
Qed.

(** X29. A commit is kept exactly when its title or its message, in lower case,
    holds one of the two file names: the names hold no space, so none is
    found across the space that joins title and message. *)
Lemma relevant_iff c :
  relevant c = true ↔
  ∃ needle, needle ∈ ["models.parquet"; "models.csv"]
            ∧ (contains needle (lower (title c)) = true
               ∨ contains needle (lower (message c)) = true).
Proof.
  unfold relevant. cbv zeta. rewrite orb_true_iff, !lower_app.
  change (lower " " +:+ lower (message c)) with (String " " (lower (message c))).
  split.
  - intros [H|H]; [exists "models.parquet"|exists "models.csv"];
      (split; [set_solver|]);
      (apply (contains_around _ " ") in H; [done|]);
      simpl; repeat constructor; discriminate.
  - intros (needle & Hn & H).
    assert (contains needle (lower (title c) +:+ String " " (lower (message c))) = true) as Hc.
    { destruct H as [H|H]; [by apply contains_app_l|].
      apply contains_app_r. rewrite contains_cons, H. by case_match. }
    apply elem_of_cons in Hn as [->|Hn]; [by left|].
    apply list_elem_of_singleton in Hn as ->. by right.
Qed.
End RelevantFacts.

(** ** The properties above on the corpus *)

Lemma delta_against_earlier_row_witness :
  ∃ p, p ∈ Corpus.table ∧ DuckDB.id p = Corpus.model_a
       ∧ DuckDB.snapshot_date p ≤ 20250102
       ∧ 50 = 150 - DuckDB.downloadsAllTime p.
Proof.
  apply (DuckDBTableFacts.delta_against_earlier_row Corpus.table
           {| DuckDB.row := Corpus.snap 20250102 Corpus.model_a "acme" 150;
              DuckDB.daily_downloads := Some 50 |} 50).
  - vm_compute. in_list.
  - reflexivity.
Defined.

Lemma author_daily_downloads_row_bounds_witness :
  0 ≤ DuckDB.total_daily_downloads
        {| DuckDB.a_snapshot_date := 20250103; DuckDB.a_author := "acme";
           DuckDB.n_models := 1; DuckDB.total_daily_downloads := 4;
           DuckDB.avg_daily_downloads_per_model := 4;
           DuckDB.total_cumulative_downloads := 7 |}
  ∧ (1 ≤ DuckDB.n_models
           {| DuckDB.a_snapshot_date := 20250103; DuckDB.a_author := "acme";
              DuckDB.n_models := 1; DuckDB.total_daily_downloads := 4;
              DuckDB.avg_daily_downloads_per_model := 4;
              DuckDB.total_cumulative_downloads := 7 |})%nat.
Proof.
  apply (DuckDBTableFacts.author_daily_downloads_row_bounds
           (DuckDB.daily_model_downloads Corpus.table)).
  vm_compute. in_list.
Defined.

Lemma process_no_dated_files_witness :
  DuckDB.process_historical_data "data" [Corpus.undated]
  = inl (ValueError "No valid dates extracted from filenames").
Proof.
  apply (DuckDBTableFacts.process_no_dated_files "data" [Corpus.undated]).
  - intros H. vm_compute in H. discriminate H.
  - intros f Hf _. each_of Hf. reflexivity.
Defined.

Lemma author_daily_nonnegative_witness :
  0 ≤ Pandas.total_daily_downloads
        {| Pandas.a_author := "acme"; Pandas.a_snapshot_date := "2025-01-03";
           Pandas.total_daily_downloads := 0 |}.
Proof.
  apply (PandasTableFacts.author_daily_nonnegative Corpus.frame_model_a).
  vm_compute. in_list.
Defined.

Lemma query_nonnegative_witness :
  (∀ x d, x ∈ Postgres.cleaned_diffs Corpus.pg_table →
          Postgres.cd_daily_downloads x = Some d → 0 ≤ d)
  ∧ ∀ g d, g ∈ Postgres.query String.leb Corpus.pg_table →
           Postgres.total_daily_downloads g = Some d → 0 ≤ d.
Proof.
  apply (PostgresTableFacts.query_nonnegative String.leb Corpus.pg_table).
  intros r n Hr Hn. each_of Hr; simpl in Hn; injection Hn as <-; lia.
Defined.

Lemma stored_parquet_is_read_witness :
  glob_models_parquet (Ingestor.output_filename Corpus.commit_new "parquet") = true
  ∧ glob_models_parquet (Ingestor.output_filename Corpus.commit_new "csv") = false
  ∧ DuckDB.extract_date_from_filename (Ingestor.output_filename Corpus.commit_new "parquet")
    = Some (iso_of_digits (Ingestor.created_at Corpus.commit_new)).
Proof.
  apply (FileNameFacts.stored_parquet_is_read Corpus.commit_new). reflexivity.
Defined.

Lemma stored_parquet_is_parsed_witness :
  Clean.parse_snapshot_date (Ingestor.output_filename Corpus.commit_new "parquet")
  = inr (iso_of_digits (Ingestor.created_at Corpus.commit_new)).
Proof.
  apply (FileNameFacts.stored_parquet_is_parsed Corpus.commit_new).
  - reflexivity.
  - intros H. vm_compute in H. discriminate H.
  - intros H. vm_compute in H. discriminate H.
  - reflexivity.
Defined.

Lemma cleaner_and_duckdb_read_the_same_date_witness :
  DuckDB.extract_date_from_filename "models-20250101-abcdef1.parquet" = Some "2025-01-01"
  ∧ ∃ date, cast_date "2025-01-01" = Some date.
Proof.
  apply (FileNameFacts.cleaner_and_duckdb_read_the_same_date
           "models-20250101-abcdef1.parquet" "2025-01-01").
  reflexivity.
Defined.

Lemma all_snapshots_rows_witness :
  Corpus.snap 20250102 Corpus.model_b "acme" 3
    ∈ DuckDB.t_all_snapshots (DuckDB.run_queries Corpus.table)
  ↔ ∃ f d, f ∈ [Corpus.day1; Corpus.day2; Corpus.day3]
           ∧ glob_models_parquet (DuckDB.file_name f) = true
           ∧ DuckDB.extract_date_from_filename (DuckDB.file_name f) = Some d
           ∧ cast_date d = Some 20250102
           ∧ Corpus.pq Corpus.model_b 3 ∈ DuckDB.file_rows f
           ∧ "acme" = split_part_1 Corpus.model_b ∧ "acme" ≠ "".
Proof.
  apply (DuckDBRunFacts.all_snapshots_rows "data" [Corpus.day1; Corpus.day2; Corpus.day3]
           (DuckDB.run_queries Corpus.table)
           (Corpus.snap 20250102 Corpus.model_b "acme" 3)).
  vm_compute. reflexivity.
Defined.

Lemma process_returns_only_when_witness :
  (∃ f, f ∈ [Corpus.day1; Corpus.day2; Corpus.day3]
        ∧ glob_models_parquet (DuckDB.file_name f) = true
        ∧ is_Some (DuckDB.extract_date_from_filename (DuckDB.file_name f)))
  ∧ (∀ f d, f ∈ [Corpus.day1; Corpus.day2; Corpus.day3] →
            glob_models_parquet (DuckDB.file_name f) = true →
            DuckDB.extract_date_from_filename (DuckDB.file_name f) = Some d →
            is_Some (cast_date d)
            ∧ ∃ tb, DuckDB.file_table f = Some tb ∧ DuckDB.has_id tb = true
                    ∧ DuckDB.has_downloadsAllTime tb = true)
  ∧ ∀ r d, r ∈ DuckDB.t_daily_model_downloads (DuckDB.run_queries Corpus.table) →
           DuckDB.daily_downloads r = Some d → - 2 ^ 63 ≤ d < 2 ^ 63.
Proof.
  apply (DuckDBRunFacts.process_returns_only_when "data"
           [Corpus.day1; Corpus.day2; Corpus.day3] (DuckDB.run_queries Corpus.table)).
  vm_compute. reflexivity.
Defined.

Lemma cleaned_directory_has_usable_dates_witness :
  (∀ msg, DuckDB.process_historical_data "data" [Corpus.day1; Corpus.day2; Corpus.day3]
          ≠ inl (ValueError msg))
  ∧ (∀ d, DuckDB.process_historical_data "data" [Corpus.day1; Corpus.day2; Corpus.day3]
          ≠ inl (ConversionException d)).
Proof.
  apply (DuckDBRunFacts.cleaned_directory_has_usable_dates "data"
           [Corpus.day1; Corpus.day2; Corpus.day3] Corpus.day1).
  - in_list.
  - reflexivity.
  - intros f Hf _. each_of Hf; eexists; vm_compute; reflexivity.
Defined.

Lemma download_stores_remote_content_witness :
  ∃ c fmt, c ∈ [Corpus.commit_new; Corpus.commit_old] ∧ Ingestor.relevant c = true
           ∧ fmt ∈ ["parquet"; "csv"]
           ∧ "models-20250103-aaaaaaa.parquet" = Ingestor.output_filename c fmt
           ∧ Corpus.hub (Ingestor.commit_id c) (Ingestor.source_filename fmt)
             = Some Corpus.content_x.
Proof.
  apply (download_stores_remote_content Corpus.digest Corpus.hub
           [Corpus.commit_new; Corpus.commit_old] ∅
           "models-20250103-aaaaaaa.parquet" Corpus.content_x).
  - vm_compute. reflexivity.
  - reflexivity.
Defined.

Lemma download_prefers_parquet_witness :
  ∃ c, c ∈ [Corpus.commit_new; Corpus.commit_old] ∧ Ingestor.relevant c = true
       ∧ "models-20250103-aaaaaaa.parquet" = Ingestor.output_filename c "parquet".
Proof.
  apply (download_prefers_parquet Corpus.digest Corpus.hub
           [Corpus.commit_new; Corpus.commit_old] ∅ "models-20250103-aaaaaaa.parquet").
  - intros c Hc _. each_of Hc; vm_compute; eexists; reflexivity.
  - vm_compute. in_list.
Defined.

Lemma empty_store_no_duplicate_content_witness :
  "models-20250103-aaaaaaa.parquet" = "models-20250103-aaaaaaa.parquet".
Proof.
  apply (empty_store_no_duplicate_content Corpus.digest Corpus.hub
           [Corpus.commit_new; Corpus.commit_old]
           "models-20250103-aaaaaaa.parquet" "models-20250103-aaaaaaa.parquet"
           Corpus.content_x Corpus.content_x).
  - vm_compute. reflexivity.
  - vm_compute. reflexivity.
  - reflexivity.
Defined.

Lemma clean_rejects_unusable_file_witness :
  raised (Clean.clean_historical_data "data"
            (Some [ Corpus.clean_file "models-20250101-abcdef1.parquet";
                    {| Clean.file_name := "models-20250102-abcdef2.parquet";
                       Clean.file_frame := None |} ])).
Proof.
  apply (CleanRunFacts.clean_rejects_unusable_file "data" _
           {| Clean.file_name := "models-20250102-abcdef2.parquet";
              Clean.file_frame := None |}).
  - in_list.
  - reflexivity.
  - by left.
Defined.

Lemma clean_rows_come_from_files_witness :
  Corpus.csv Corpus.model_a 100 "2025-01-01" ∈ [Corpus.csv Corpus.model_a 100 "2025-01-01"]
  ↔ ∃ f df fr d,
      f ∈ [ {| Clean.file_name := "models-20250101-abcdef1.parquet";
               Clean.file_frame :=
                 Some {| Clean.has_id := true; Clean.has_likes := false;
                         Clean.has_downloads := false;
                         Clean.has_downloadsAllTime := true;
                         Clean.frame_rows :=
                           [ {| Clean.fr_id := Some Corpus.model_a;
                                Clean.fr_likes := Some 7;
                                Clean.fr_downloads := None;
                                Clean.fr_downloadsAllTime := Some 100 |} ] |} |} ]
      ∧ glob_models_parquet (Clean.file_name f) = true
      ∧ Clean.file_frame f = Some df ∧ fr ∈ Clean.frame_rows df
      ∧ Clean.parse_snapshot_date (Clean.file_name f) = inr d
      ∧ Corpus.csv Corpus.model_a 100 "2025-01-01"
        = {| csv_id := Clean.fr_id fr;
             csv_likes := Clean.column (Clean.has_likes df) (Clean.fr_likes fr);
             csv_downloads := Clean.column (Clean.has_downloads df) (Clean.fr_downloads fr);
             csv_downloadsAllTime :=
               Clean.column (Clean.has_downloadsAllTime df) (Clean.fr_downloadsAllTime fr);
             csv_snapshot_date := d |}.
Proof.
  apply (CleanRunFacts.clean_rows_come_from_files "data"). reflexivity.
Defined.

Lemma clean_dates_are_valid_witness :
  is_Some (cast_date (csv_snapshot_date (Corpus.csv Corpus.model_a 100 "2025-01-01"))).
Proof.
  apply (CleanRunFacts.clean_dates_are_valid "data"
           [ {| Clean.file_name := "models-20250101-abcdef1.parquet";
                Clean.file_frame :=
                  Some {| Clean.has_id := true; Clean.has_likes := false;
                          Clean.has_downloads := false;
                          Clean.has_downloadsAllTime := true;
                          Clean.frame_rows :=
                            [ {| Clean.fr_id := Some Corpus.model_a;
                                 Clean.fr_likes := Some 7;
                                 Clean.fr_downloads := None;
                                 Clean.fr_downloadsAllTime := Some 100 |} ] |} |} ]
           [Corpus.csv Corpus.model_a 100 "2025-01-01"]).
  - reflexivity.
  - in_list.
Defined.

(** ** Dates as strings and as days: the same order *)

Lemma is_digit_val c : is_digit c = true → 0 ≤ digit_val c ≤ 9.
Proof.
  unfold is_digit, digit_val. cbv zeta. intros [H1 H2]%andb_true_iff.
  apply N.leb_le in H1, H2. lia.
Qed.

Lemma digit_compare c1 c2 :
  Ascii.compare c1 c2 = (digit_val c1 ?= digit_val c2).
Proof.
  unfold Ascii.compare, digit_val. rewrite <- N2Z.inj_compare.
  destruct (Z.compare_spec (Z.of_N (N_of_ascii c1)) (Z.of_N (N_of_ascii c2)));
    symmetry; [apply Z.compare_eq_iff|apply Z.compare_lt_iff|apply Z.compare_gt_iff]; lia.
Qed.

Lemma strip_prefix_char c r1 r2 :
  strip_prefix (String c "") r1 = Some r2 → r1 = String c r2.
Proof.
  destruct r1 as [|b r1]; simpl; [done|].
  destruct (Ascii.eqb_spec c b) as [->|]; [|done]. destruct r1; by intros [= <-].
Qed.

(** A string the cast accepts is [YYYY-MM-DD] in digits. *)
Lemma cast_date_inv s x :
  cast_date s = Some x →
  ∃ c1 c2 c3 c4 c5 c6 c7 c8,
    s = String c1 (String c2 (String c3 (String c4 (String "-"
          (String c5 (String c6 (String "-" (String c7 (String c8 "")))))))))
    ∧ Forall (λ c, is_digit c = true) [c1; c2; c3; c4; c5; c6; c7; c8]
    ∧ x = date_ordinal (digits_val (String c1 (String c2 (String c3 (String c4 "")))))
                       (digits_val (String c5 (String c6 "")))
                       (digits_val (String c7 (String c8 ""))).
Proof.
  unfold cast_date.
  destruct (take_class is_digit 4 s) as [[y r1]|] eqn:H1; [|done]. cbn [mbind option_bind].
  destruct (strip_prefix "-" r1) as [r2|] eqn:H2; [|done]. cbn [mbind option_bind].
  destruct (take_class is_digit 2 r2) as [[m r3]|] eqn:H3; [|done]. cbn [mbind option_bind].
  destruct (strip_prefix "-" r3) as [r4|] eqn:H4; [|done]. cbn [mbind option_bind].
  destruct (take_class is_digit 2 r4) as [[d r5]|] eqn:H5; [|done]. cbn [mbind option_bind].
  destruct (String.eqb_spec r5 "") as [->|]; [|done]. simpl.
  destruct (valid_ymd _ _ _); [|done]. intros [= <-].
  apply strip_prefix_char in H2 as ->. apply strip_prefix_char in H4 as ->.
  do 2 (apply take_class_inv in H5 as (? & ? & ? & -> & ? & -> & H5)).
  simpl in H5. injection H5 as <- ->.
  do 2 (apply take_class_inv in H3 as (? & ? & ? & -> & ? & -> & H3)).
  simpl in H3. injection H3 as <- ->.
  do 4 (apply take_class_inv in H1 as (? & ? & ? & -> & ? & -> & H1)).
  simpl in H1. injection H1 as <- ->.
  do 8 eexists. split_and!; [done| |done].
  repeat constructor; done.
Qed.

(** On dates the cast accepts, the order of the strings is the order of
    the days. *)
Lemma cast_date_leb s1 s2 x1 x2 :
  cast_date s1 = Some x1 → cast_date s2 = Some x2 →
  String.leb s1 s2 = (x1 <=? x2).
Proof.
  intros (a1 & a2 & a3 & a4 & a5 & a6 & a7 & a8 & -> & Ha & ->)%cast_date_inv
         (b1 & b2 & b3 & b4 & b5 & b6 & b7 & b8 & -> & Hb & ->)%cast_date_inv.
  repeat match goal with
         | H : Forall _ (_ :: _) |- _ => apply Forall_cons in H as [?%is_digit_val H]
         end.
  unfold String.leb. cbn [String.compare]. rewrite !digit_compare.
  unfold date_ordinal, digits_val. cbn [digits_val_acc].
  change (digit_val "-") with (-3).
  repeat (match goal with
          | |- context [?x ?= ?y] => destruct (Z.compare_spec x y)
          end; cbv iota);
    symmetry; first [apply Z.leb_le; lia | apply Z.leb_gt; lia].
Qed.

Lemma cast_date_inj s1 s2 x :
  cast_date s1 = Some x → cast_date s2 = Some x → s1 = s2.
Proof.
  intros H1 H2. apply String.leb_antisym.
  - rewrite (cast_date_leb _ _ _ _ H1 H2). apply Z.leb_refl.
  - rewrite (cast_date_leb _ _ _ _ H2 H1). apply Z.leb_refl.
Qed.

(** ** The pandas and the PostgreSQL engines on the same rows *)

Section LagInverse.
Context {A : Type} (lt : A → A → Prop) `{!Irreflexive lt, !Transitive lt}.

(** What [LAG] returns in a strictly increasing list: nothing for the first
    row, the closest predecessor for the others. *)
Lemma lag_closest l r prev :
  StronglySorted lt l → (r, prev) ∈ with_lag None l →
  match prev with
  | None => ∀ q, q ∈ l → ¬ lt q r
  | Some p => p ∈ l ∧ lt p r ∧ ∀ q, q ∈ l → lt p q → lt q r → False
  end.
Proof.
  intros Hs [i Hi]%list_elem_of_lookup. rewrite with_lag_lookup in Hi.
  destruct (l !! i) as [r'|] eqn:Hr; simplify_eq/=.
  assert (∀ a b, lt a b → lt b a → False) as Hasym.
  { intros a b Hab Hba. by apply (irreflexivity lt a); trans b. }
  destruct i as [|j].
  - intros q [k Hk]%list_elem_of_lookup Hq.
    destruct k as [|k]; [simplify_eq; by apply (irreflexivity lt r)|].
    apply (Hasym q r); [done|].
    eapply (StronglySorted_lookup_lt lt l 0 (S k)); [done..|lia].
  - destruct (l !! j) as [p|] eqn:Hp.
    2:{ apply lookup_ge_None in Hp. apply lookup_lt_Some in Hr. lia. }
    split_and!.
    + by eapply list_elem_of_lookup_2.
    + eapply (StronglySorted_lookup_lt lt l j (S j)); [done..|lia].
    + intros q [k Hk]%list_elem_of_lookup Hpq Hqr.
      destruct (decide (k < j)%nat).
      { apply (Hasym p q); [done|].
        by eapply (StronglySorted_lookup_lt lt l k j). }
      destruct (decide (k = j)) as [->|]; [simplify_eq; by apply (irreflexivity lt p)|].
      destruct (decide (k = S j)) as [->|]; [simplify_eq; by apply (irreflexivity lt r)|].
      apply (Hasym q r); [done|].
      eapply (StronglySorted_lookup_lt lt l (S j) k); [done..|lia].
Qed.
End LagInverse.

Lemma filter_fmap_in {A B : Type} (f : A → B) (P : B → Prop) (Q : A → Prop)
    `{!∀ y, Decision (P y), !∀ x, Decision (Q x)} (l : list A) :
  (∀ x, x ∈ l → P (f x) ↔ Q x) → filter P (f <$> l) = f <$> filter Q l.
Proof.
  induction l as [|x l IH]; intros HPQ; [done|].
  rewrite fmap_cons, !filter_cons, IH by (intros y Hy; apply HPQ; by right).
  destruct (decide (P (f x))) as [HP|HP], (decide (Q x)) as [HQ|HQ]; try done.
  - destruct HQ. apply HPQ; [left|done].
  - destruct HP. apply HPQ; [left|done].
Qed.

Lemma StronglySorted_fmap_in {A B : Type} (f : A → B) (R1 : relation A)
    (R2 : relation B) (l : list A) :
  (∀ x y, x ∈ l → y ∈ l → R1 x y → R2 (f x) (f y)) →
  StronglySorted R1 l → StronglySorted R2 (f <$> l).
Proof.
  intros HR Hs. induction Hs as [|x l Hs IH Hx]; [constructor|].
  rewrite fmap_cons. constructor.
  - apply IH. intros y z Hy Hz. apply HR; by right.
  - apply Forall_fmap, Forall_forall. intros y Hy. simpl.
    apply HR; [left|by right|]. rewrite Forall_forall in Hx. by apply Hx.
Qed.

Lemma insert_by_ext {A : Type} (leb1 leb2 : A → A → bool) x l :
  (∀ a b, leb1 a b = leb2 a b) → insert_by leb1 x l = insert_by leb2 x l.
Proof. intros Hext. induction l as [|y l IH]; simpl; [done|]. by rewrite Hext, IH. Qed.

Lemma sort_by_ext {A : Type} (leb1 leb2 : A → A → bool) l :
  (∀ a b, leb1 a b = leb2 a b) → sort_by leb1 l = sort_by leb2 l.
Proof.
  intros Hext. induction l as [|x l IH]; simpl; [done|].
  rewrite IH. by apply insert_by_ext.
Qed.

Lemma pg_output_leb_ext collate1 collate2 a b :
  (∀ x y, collate1 x y = collate2 x y) →
  Postgres.output_leb collate1 a b = Postgres.output_leb collate2 a b.
Proof.
  intros Hext. unfold Postgres.output_leb.
  assert (∀ x y, Postgres.nulls_last_leb collate1 x y = Postgres.nulls_last_leb collate2 x y)
    as Hnulls by (intros [?|] [?|]; simpl; by rewrite ?Hext).
  by rewrite !Hnulls.
Qed.

Section Agreement.
Context {I : Type} (rows : list I).
Context (frame_row : I → Pandas.Row) (table_row : I → Postgres.ModelDownloads).

Local Abbreviation df := (frame_row <$> rows).
Local Abbreviation t := (table_row <$> rows).

(** The two engines hold the same ids, counters and dates. *)
Hypothesis same_id : ∀ c, Postgres.id (table_row c) = Some (Pandas.id (frame_row c)).
Hypothesis same_counter :
  ∀ c, Postgres.downloads_all_time (table_row c) = Pandas.downloadsAllTime (frame_row c).
Hypothesis same_date :
  ∀ c, Postgres.snapshot_date (table_row c) = cast_date (Pandas.snapshot_date (frame_row c)).
Hypothesis author_of_id :
  ∀ c, Pandas.author (frame_row c) = Pandas.extract_author (Pandas.id (frame_row c)).
Hypothesis valid_dates :
  ∀ c, c ∈ rows → is_Some (cast_date (Pandas.snapshot_date (frame_row c))).
Hypothesis observations : NoDup (Pandas.obs_key <$> df).

Local Abbreviation sorted := (sort_by Pandas.id_date_leb df).

Lemma table_date_leb c1 c2 :
  c1 ∈ rows → c2 ∈ rows →
  Postgres.date_leb (table_row c1) (table_row c2)
  = String.leb (Pandas.snapshot_date (frame_row c1)) (Pandas.snapshot_date (frame_row c2)).
Proof.
  intros [x1 H1]%valid_dates [x2 H2]%valid_dates.
  unfold Postgres.date_leb. rewrite !same_date, H1, H2. simpl.
  symmetry. by apply cast_date_leb.
Qed.

Lemma table_keys :
  Postgres.obs_key <$> t
  = (λ k, (Some k.1, cast_date k.2)) <$> (Pandas.obs_key <$> df).
Proof.
  rewrite <- !list_fmap_compose. apply list_fmap_ext. intros i c _. simpl.
  unfold Postgres.obs_key. by rewrite same_id, same_date.
Qed.

Lemma valid_key_inj (k1 k2 : string * string) :
  k1 ∈ Pandas.obs_key <$> df → k2 ∈ Pandas.obs_key <$> df →
  (Some k1.1, cast_date k1.2) = (Some k2.1, cast_date k2.2) → k1 = k2.
Proof.
  intros (r1 & -> & (c1 & -> & Hc1)%list_elem_of_fmap)%list_elem_of_fmap
         (r2 & -> & (c2 & -> & Hc2)%list_elem_of_fmap)%list_elem_of_fmap.
  simpl. intros [= Hid Hd]. unfold Pandas.obs_key. f_equal; [done|].
  destruct (valid_dates c1 Hc1) as [x Hx]. eapply cast_date_inj; [done|]. congruence.
Qed.

Lemma table_observations : NoDup (Postgres.obs_key <$> t).
Proof.
  rewrite table_keys. apply NoDup_fmap_2_strong; [|done].
  intros k1 k2. apply valid_key_inj.
Qed.

(** The row [LAG] returns in PostgreSQL holds the value [diff] subtracts
    in pandas. *)
Lemma same_previous i c prev :
  c ∈ rows → sorted !! i = Some (frame_row c) →
  (table_row c, prev)
    ∈ with_lag None (part Postgres.id Postgres.date_leb t (Postgres.id (table_row c))) →
  Pandas.previous_of (reverse (take i sorted)) (frame_row c) ≫= Pandas.downloadsAllTime
  = prev ≫= Postgres.downloads_all_time.
Proof.
  intros Hc Hi Hlag.
  assert (Irreflexive (before Postgres.date_leb)) as Hirr.
  { apply before_irreflexive, PostgresFacts.pg_date_leb_total. }
  assert (Transitive (before Postgres.date_leb)) as Htr.
  { apply (before_transitive Postgres.date_leb PostgresFacts.pg_date_leb_total
             PostgresFacts.pg_date_leb_trans). }
  pose proof (part_strictly_sorted Postgres.id Postgres.snapshot_date Postgres.date_leb
                PostgresFacts.pg_date_leb_total PostgresFacts.pg_date_leb_trans
                PostgresFacts.pg_date_leb_antisym t (Postgres.id (table_row c))
                table_observations) as Hs.
  pose proof (lag_closest _ _ _ _ Hs Hlag) as Hprev.
  destruct prev as [p'|]; simpl.
  - destruct Hprev as (Hp & Hlt & Hbetween).
    apply elem_of_part in Hp as [(p & -> & Hp)%list_elem_of_fmap Hid].
    rewrite !same_id in Hid. injection Hid as Hid.
    unfold before in Hlt. rewrite table_date_leb in Hlt by done.
    rewrite (PandasFacts.previous_of_pred df i (frame_row c) (frame_row p)).
    + simpl. by rewrite same_counter.
    + done.
    + done.
    + apply list_elem_of_fmap. eauto.
    + done.
    + by rewrite string_ltb_leb, Hlt.
    + intros q (cq & -> & Hq)%list_elem_of_fmap Hidq [Hpq Hqr].
      apply (Hbetween (table_row cq)).
      * apply elem_of_part. split; [apply list_elem_of_fmap; eauto|].
        by rewrite !same_id, Hidq.
      * unfold before. rewrite table_date_leb by done.
        rewrite string_ltb_leb in Hpq. by apply negb_true_iff in Hpq.
      * unfold before. rewrite table_date_leb by done.
        rewrite string_ltb_leb in Hqr. by apply negb_true_iff in Hqr.
  - rewrite (PandasFacts.previous_of_first df i (frame_row c)); [done..|].
    intros q (cq & -> & Hq)%list_elem_of_fmap Hidq.
    rewrite <- table_date_leb by done.
    destruct (Postgres.date_leb (table_row c) (table_row cq)) eqn:Hle; [done|].
    destruct (Hprev (table_row cq)); [|done].
    apply elem_of_part. split; [apply list_elem_of_fmap; eauto|].
    by rewrite !same_id, Hidq.
Qed.

Local Abbreviation diff_of :=
  (λ y : Pandas.Daily,
     {| Postgres.dd_author := Some (split_part_1 (Pandas.id (Pandas.row y)));
        Postgres.dd_model_id := Some (Pandas.id (Pandas.row y));
        Postgres.dd_snapshot_date := cast_date (Pandas.snapshot_date (Pandas.row y));
        Postgres.dd_downloads_all_time := Pandas.downloadsAllTime (Pandas.row y);
        Postgres.dd_daily_downloads := Pandas.daily_downloads y |}).

Local Abbreviation cleaned_of :=
  (λ x : Pandas.Daily,
     {| Postgres.cd_author := Some (Pandas.author (Pandas.row x));
        Postgres.cd_snapshot_date := cast_date (Pandas.snapshot_date (Pandas.row x));
        Postgres.cd_daily_downloads := Pandas.daily_downloads x |}).

Lemma diff_in_table y :
  y ∈ Pandas.groupby_diff [] sorted → diff_of y ∈ Postgres.daily_diffs t.
Proof.
  intros (i & r & Hi & ->)%PandasFacts.elem_of_groupby_diff.
  assert (r ∈ df) as (c & -> & Hc)%list_elem_of_fmap.
  { eapply elem_of_sort_by, list_elem_of_lookup_2, Hi. }
  destruct (lag_part_total Postgres.id Postgres.date_leb t (table_row c)) as [prev Hprev].
  { apply list_elem_of_fmap. eauto. }
  apply PostgresFacts.elem_of_daily_diffs. exists (table_row c), prev. split; [done|].
  unfold Postgres.diff_row. simpl.
  rewrite same_id, same_counter, same_date. simpl.
  by rewrite (same_previous i c prev).
Qed.

Lemma diffs_agree :
  Postgres.daily_diffs t ≡ₚ diff_of <$> Pandas.groupby_diff [] sorted.
Proof.
  symmetry. apply submseteq_length_Permutation.
  - apply NoDup_submseteq.
    + apply (NoDup_fmap_1 (λ x, (Postgres.dd_model_id x, Postgres.dd_snapshot_date x))).
      rewrite <- list_fmap_compose.
      replace (_ <$> Pandas.groupby_diff [] sorted)
        with ((λ k : string * string, (Some k.1, cast_date k.2))
                <$> (Pandas.obs_key <$> (Pandas.row <$> Pandas.groupby_diff [] sorted)))
        by (by rewrite <- !list_fmap_compose).
      rewrite PandasTableFacts.groupby_diff_rows, sort_by_Permutation.
      apply NoDup_fmap_2_strong; [|done]. intros k1 k2. apply valid_key_inj.
    + intros x (y & -> & Hy)%list_elem_of_fmap. by apply diff_in_table.
  - rewrite length_fmap.
    rewrite <- (length_fmap Pandas.row), PandasTableFacts.groupby_diff_rows.
    rewrite sort_by_length.
    rewrite <- (length_fmap (λ x, (Postgres.dd_model_id x, Postgres.dd_snapshot_date x,
                                   Postgres.dd_downloads_all_time x))).
    rewrite PostgresTableFacts.daily_diffs_rows. by rewrite !length_fmap.
Qed.

Hypothesis counters_nonnegative :
  ∀ c n, c ∈ rows → Pandas.downloadsAllTime (frame_row c) = Some n → 0 ≤ n.

Lemma cleaned_agree :
  Postgres.cleaned_diffs t ≡ₚ cleaned_of <$> Pandas.df_subset df.
Proof.
  unfold Postgres.cleaned_diffs, Pandas.df_subset.
  rewrite diffs_agree, <- !list_fmap_compose.
  apply reflexive_eq, list_fmap_ext. intros i y Hy. simpl.
  assert (Pandas.row y ∈ df) as (c & Hrow & Hc)%list_elem_of_fmap.
  { apply (elem_of_sort_by Pandas.id_date_leb).
    rewrite <- (PandasTableFacts.groupby_diff_rows [] sorted).
    apply list_elem_of_fmap. exists y. split; [done|]. by eapply list_elem_of_lookup_2. }
  unfold Postgres.cleaned_row, Pandas.clamp_negative, Pandas.fillna. simpl.
  destruct y as [r [d|]]; simpl in *; subst r.
  - destruct (d <? 0); simpl;
      by rewrite author_of_id, PandasTableFacts.extract_author_split_part.
  - destruct (Pandas.downloadsAllTime (frame_row c)) as [n|] eqn:Hn; simpl.
    + pose proof (counters_nonnegative c n Hc Hn).
      destruct (Z.ltb_spec n 0); [lia|]. simpl.
      by rewrite author_of_id, PandasTableFacts.extract_author_split_part.
    + by rewrite author_of_id, PandasTableFacts.extract_author_split_part.
Qed.

Hypothesis counters_known :
  ∀ c, c ∈ rows → is_Some (Pandas.downloadsAllTime (frame_row c)).

Local Abbreviation sub := (Pandas.df_subset df).
Local Abbreviation key_of := (λ k : string * string, (Some k.1, cast_date k.2)).
Local Abbreviation out_of :=
  (λ g : Pandas.AuthorDaily,
     {| Postgres.author := Some (Pandas.a_author g);
        Postgres.a_snapshot_date := cast_date (Pandas.a_snapshot_date g);
        Postgres.total_daily_downloads := Some (Pandas.total_daily_downloads g) |}).

Lemma sub_row x : x ∈ sub → ∃ c, c ∈ rows ∧ Pandas.row x = frame_row c.
Proof.
  intros Hx.
  assert (Pandas.row x ∈ df) as (c & ? & ?)%list_elem_of_fmap; [|eauto].
  rewrite <- (PandasTableFacts.df_subset_rows df). by apply list_elem_of_fmap_2.
Qed.

Lemma sub_known x : x ∈ sub → is_Some (Pandas.daily_downloads x).
Proof.
  intros Hx. destruct (sub_row x Hx) as (c & Hc & Hrow).
  apply PandasDeltaFacts.elem_of_df_subset in Hx as (y & Hy & ->).
  rewrite PandasDeltaFacts.clamp_fillna_value.
  rewrite PandasDeltaFacts.clamp_fillna_row in Hrow.
  destruct (Pandas.daily_downloads y); [done|]. rewrite Hrow.
  destruct (counters_known c Hc) as [n ->]. done.
Qed.

Lemma group_key_inj k1 k2 :
  k1 ∈ Pandas.group_key <$> sub → k2 ∈ Pandas.group_key <$> sub →
  key_of k1 = key_of k2 → k1 = k2.
Proof.
  intros (x1 & -> & H1)%list_elem_of_fmap (x2 & -> & H2)%list_elem_of_fmap.
  destruct (sub_row x1 H1) as (c1 & Hc1 & Hr1), (sub_row x2 H2) as (c2 & Hc2 & Hr2).
  unfold Pandas.group_key. simpl. intros [= Ha Hd]. f_equal; [done|].
  rewrite Hr1, Hr2 in *. destruct (valid_dates c1 Hc1) as [z Hz].
  eapply cast_date_inj; [done|]. congruence.
Qed.

Lemma keys_agree :
  remove_dups (Postgres.group_key <$> Postgres.cleaned_diffs t)
  ≡ₚ key_of <$> remove_dups (Pandas.group_key <$> sub).
Proof.
  apply NoDup_Permutation.
  - apply NoDup_remove_dups.
  - apply NoDup_fmap_2_strong; [|apply NoDup_remove_dups].
    intros k1 k2 H1 H2. rewrite elem_of_remove_dups in H1, H2. by apply group_key_inj.
  - intros k. rewrite elem_of_remove_dups, cleaned_agree, <- list_fmap_compose.
    rewrite !list_elem_of_fmap. split.
    + intros (x & -> & Hx). exists (Pandas.group_key x). split; [done|].
      apply elem_of_remove_dups. by apply list_elem_of_fmap_2.
    + intros (k' & -> & Hk'). rewrite elem_of_remove_dups in Hk'.
      apply list_elem_of_fmap in Hk' as (x & -> & Hx). by exists x.
Qed.

Lemma totals_agree k :
  k ∈ remove_dups (Pandas.group_key <$> sub) →
  Postgres.sql_sum
    (Postgres.cd_daily_downloads
       <$> filter (λ r, Postgres.group_key r = key_of k) (Postgres.cleaned_diffs t))
  = Some (sum_list (non_null (Pandas.daily_downloads
                                <$> filter (λ r, Pandas.group_key r = k) sub))).
Proof.
  intros Hk. rewrite elem_of_remove_dups in Hk.
  assert (Postgres.cd_daily_downloads
            <$> filter (λ r, Postgres.group_key r = key_of k) (Postgres.cleaned_diffs t)
          ≡ₚ Pandas.daily_downloads <$> filter (λ r, Pandas.group_key r = k) sub) as Hperm.
  { rewrite cleaned_agree.
    rewrite (filter_fmap_in _ _ (λ r, Pandas.group_key r = k)).
    - by rewrite <- list_fmap_compose.
    - intros x Hx. split; [|by intros <-].
      intros Heq. apply group_key_inj; [by apply list_elem_of_fmap_2|done|done]. }
  apply (omap_Permutation (λ x : option Z, x)) in Hperm.
  unfold Postgres.sql_sum, non_null in *.
  destruct (omap _ (Postgres.cd_daily_downloads <$> _)) as [|v vs] eqn:Hvs.
  - apply list_elem_of_fmap in Hk as (x & -> & Hx).
    destruct (sub_known x Hx) as [v Hv].
    assert (v ∈ omap (λ x : option Z, x)
                  (Pandas.daily_downloads
                     <$> filter (λ r, Pandas.group_key r = Pandas.group_key x) sub))
      as Hin.
    { apply list_elem_of_omap. exists (Some v). split; [|done].
      rewrite <- Hv. apply list_elem_of_fmap_2. by apply list_elem_of_filter. }
    rewrite <- Hperm in Hin. by apply elem_of_nil in Hin.
  - f_equal. by apply sum_list_Permutation.
Qed.

Lemma perm_agrees collate :
  Postgres.query collate t ≡ₚ out_of <$> Pandas.author_daily sub.
Proof.
  unfold Postgres.query, Postgres.query_groups, Pandas.author_daily. cbv zeta.
  rewrite !sort_by_Permutation, keys_agree, <- !list_fmap_compose.
  apply reflexive_eq, list_fmap_ext. intros i k Hk. simpl. f_equal.
  apply totals_agree. by eapply list_elem_of_lookup_2.
Qed.

Lemma sorted_agrees :
  StronglySorted (le_of (Postgres.output_leb String.leb))
                 (out_of <$> Pandas.author_daily sub).
Proof.
  unfold Pandas.author_daily. rewrite <- list_fmap_compose.
  apply (StronglySorted_fmap_in _ (le_of lex_leb));
    [|apply (sort_by_StronglySorted lex_leb); [apply lex_leb_total|apply lex_leb_trans]].
  intros k1 k2 H1 H2 Hle.
  rewrite elem_of_sort_by, elem_of_remove_dups in H1, H2.
  apply list_elem_of_fmap in H1 as (x1 & -> & H1), H2 as (x2 & -> & H2).
  destruct (sub_row x1 H1) as (c1 & Hc1 & Hr1), (sub_row x2 H2) as (c2 & Hc2 & Hr2).
  destruct (valid_dates c1 Hc1) as [z1 Hz1], (valid_dates c2 Hc2) as [z2 Hz2].
  unfold le_of, Postgres.output_leb, Pandas.group_key in *. simpl in *.
  rewrite Hr1, Hr2 in *. rewrite Hz1, Hz2. simpl.
  rewrite <- (cast_date_leb _ _ _ _ Hz1 Hz2).
  apply lex_leb_spec in Hle as [[Hle Hne]|[Heq Hle]]; simpl in *.
  - rewrite Hle.
    destruct (String.leb (Pandas.author (frame_row c2)) (Pandas.author (frame_row c1)))
      eqn:Hge; [|done].
    destruct Hne. by apply String.leb_antisym.
  - rewrite Heq, string_leb_refl. simpl. done.
Qed.

(** On the same ids, counters and dates the PostgreSQL query returns, under
    a collation that compares authors as pandas does, the table of the
    pandas engine, row for row. *)
Lemma query_agrees collate :
  (∀ a b, collate a b = String.leb a b) →
  Postgres.query collate t = out_of <$> Pandas.author_daily sub.
Proof.
  intros Hcollate.
  transitivity (Postgres.query String.leb t).
  { unfold Postgres.query. apply sort_by_ext.
    intros a b. by apply pg_output_leb_ext. }
  symmetry. apply (possible_query_unique String.leb);
    [apply String.leb_total|apply string_leb_trans|apply String.leb_antisym|].
  split.
  - rewrite <- (perm_agrees String.leb). apply sort_by_Permutation.
  - eapply StronglySorted_weaken; [|apply sorted_agrees].
    intros a b. apply pg_output_leb_order, String.leb_antisym.
Qed.
Lemma engines_agree collate :
  Postgres.query collate t ≡ₚ out_of <$> Pandas.author_daily sub
  ∧ ((∀ a b, collate a b = String.leb a b) →
     Postgres.query collate t = out_of <$> Pandas.author_daily sub).
Proof. split; [apply perm_agrees|apply query_agrees]. Qed.
End Agreement.

Lemma add_author_inr csv df :
  Pandas.add_author csv = inr df →
  (∀ c, c ∈ csv → is_Some (csv_id c))
  ∧ df = (λ c, {| Pandas.id := default "" (csv_id c);
                  Pandas.downloadsAllTime := csv_downloadsAllTime c;
                  Pandas.snapshot_date := csv_snapshot_date c;
                  Pandas.author := Pandas.extract_author (default "" (csv_id c)) |})
           <$> csv.
Proof.
  revert df. induction csv as [|c csv IH]; intros df; simpl.
  - intros [= <-]. split; [|done]. by intros c ?%elem_of_nil.
  - destruct (csv_id c) as [i|] eqn:Hi; [|done].
    destruct (Pandas.add_author csv) as [e|rows]; [done|]. intros [= <-].
    destruct (IH rows eq_refl) as [Hids ->]. split; [|done].
    intros c' [->|?]%elem_of_cons; [by rewrite Hi|by apply Hids].
Qed.

(** X30. Let the table [model_downloads] hold, row for row, the id, the
    counter and the date of the rows the pandas engine reads from the CSV,
    with one row for each model and date, dates written [YYYY-MM-DD] that
    the cast accepts, and counters that are known and not negative.  When
    the pandas engine returns, the PostgreSQL query returns the rows of its
    [author_daily], whatever the collation of the database; the two tables
    are equal, row for row, when that collation compares authors byte by
    byte, as pandas does. *)
Theorem pandas_and_postgres_agree collate csv limit table out :
  Forall2 (λ c r, Postgres.id r = csv_id c
                  ∧ Postgres.downloads_all_time r = csv_downloadsAllTime c
                  ∧ Postgres.snapshot_date r = cast_date (csv_snapshot_date c))
          (read_csv csv limit) table →
  NoDup ((λ c, (csv_id c, csv_snapshot_date c)) <$> read_csv csv limit) →
  (∀ c, c ∈ read_csv csv limit → is_Some (cast_date (csv_snapshot_date c))) →
  (∀ c, c ∈ read_csv csv limit → ∃ n, csv_downloadsAllTime c = Some n ∧ 0 ≤ n) →
  Pandas.analyze_historical_data csv limit = inr out →
  Postgres.analyze_historical_data collate table
  ≡ₚ (λ g, {| Postgres.author := Some (Pandas.a_author g);
              Postgres.a_snapshot_date := cast_date (Pandas.a_snapshot_date g);
              Postgres.total_daily_downloads := Some (Pandas.total_daily_downloads g) |})
       <$> Pandas.o_author_daily out
  ∧ ((∀ a b, collate a b = String.leb a b) →
     Postgres.analyze_historical_data collate table
     = (λ g, {| Postgres.author := Some (Pandas.a_author g);
                Postgres.a_snapshot_date := cast_date (Pandas.a_snapshot_date g);
                Postgres.total_daily_downloads := Some (Pandas.total_daily_downloads g) |})
         <$> Pandas.o_author_daily out).
Proof.
  intros Hload Hnd Hdates Hcounters. unfold Pandas.analyze_historical_data.
  destruct (Pandas.add_author (read_csv csv limit)) as [e|df] eqn:Hdf; [done|].
  intros Hout.
  assert (Pandas.o_author_daily out = Pandas.author_daily (Pandas.df_subset df)) as ->.
  { destruct df; [done|]. by simplify_eq. }
  clear Hout. apply add_author_inr in Hdf as [Hids Hdf].
  remember (read_csv csv limit) as l eqn:Hl. clear Hl.
  set (frame_row := λ p : CsvRow * Postgres.ModelDownloads,
         {| Pandas.id := default "" (csv_id p.1);
            Pandas.downloadsAllTime := csv_downloadsAllTime p.1;
            Pandas.snapshot_date := csv_snapshot_date p.1;
            Pandas.author := Pandas.extract_author (default "" (csv_id p.1)) |}).
  set (table_row := λ p : CsvRow * Postgres.ModelDownloads,
         {| Postgres.id := Some (default "" (csv_id p.1));
            Postgres.likes := Postgres.likes p.2;
            Postgres.downloads := Postgres.downloads p.2;
            Postgres.downloads_all_time := csv_downloadsAllTime p.1;
            Postgres.snapshot_date := cast_date (csv_snapshot_date p.1) |}).
  assert (frame_row <$> zip l table = df) as Hframe.
  { rewrite Hdf. rewrite <- (fst_zip l table) at 2 by (apply Forall2_length in Hload; lia).
    by rewrite <- list_fmap_compose. }
  assert (table_row <$> zip l table = table) as Htable.
  { clear -Hload Hids.
    induction Hload as [|c r l table (Hid & Hc & Hd) Hload IH]; [done|].
    simpl. f_equal.
    - destruct (Hids c) as [i Hi]; [left|].
      unfold table_row. destruct r. simpl in *. rewrite Hi in *. simpl. by subst.
    - apply IH. intros c' Hc'. apply Hids. by right. }
  assert (∀ p, p ∈ zip l table → p.1 ∈ l) as Hin.
  { intros [c r] Hp. by eapply elem_of_zip_l. }
  rewrite <- Hframe. rewrite <- Htable at 1 3. unfold Postgres.analyze_historical_data.
  apply (engines_agree (zip l table) frame_row table_row); try done.
  - intros p Hp. by apply Hdates, Hin.
  - rewrite Hframe, Hdf, <- list_fmap_compose.
    eapply NoDup_fmap_1 with (f := λ k, (Some k.1, k.2)).
    rewrite <- list_fmap_compose. erewrite list_fmap_ext; [exact Hnd|].
    intros i c Hc. destruct (Hids c) as [j Hj]; [by eapply list_elem_of_lookup_2|].
    simpl. by rewrite Hj.
  - intros p n Hp Hn. destruct (Hcounters _ (Hin p Hp)) as (m & Hm & ?).
    simpl in Hn. congruence.
  - intros p Hp. destruct (Hcounters _ (Hin p Hp)) as (m & Hm & ?). simpl. by rewrite Hm.
Qed.

Lemma pandas_and_postgres_agree_witness :
  Postgres.analyze_historical_data String.leb Corpus.pg_two_authors
  = [ {| Postgres.author := Some "Zeta"; Postgres.a_snapshot_date := Some 20250101;
         Postgres.total_daily_downloads := Some 40 |};
      {| Postgres.author := Some "Zeta"; Postgres.a_snapshot_date := Some 20250102;
         Postgres.total_daily_downloads := Some 0 |};
      {| Postgres.author := Some "acme"; Postgres.a_snapshot_date := Some 20250101;
         Postgres.total_daily_downloads := Some 105 |};
      {| Postgres.author := Some "acme"; Postgres.a_snapshot_date := Some 20250102;
         Postgres.total_daily_downloads := Some 52 |} ].
Proof.
  refine (proj2 (pandas_and_postgres_agree String.leb Corpus.csv_two_authors None
                   Corpus.pg_two_authors
                   {| Pandas.o_df_subset :=
                        Pandas.df_subset Corpus.frame_two_authors;
                      Pandas.o_author_daily :=
                        Pandas.author_daily (Pandas.df_subset Corpus.frame_two_authors) |}
                   _ _ _ _ _) _).
  - repeat constructor.
  - nodup_list.
  - intros c Hc. each_of Hc; vm_compute; eexists; reflexivity.
  - intros c Hc. each_of Hc; eexists; (split; [reflexivity|lia]).
  - reflexivity.
  - reflexivity.
Defined.
